(** * loop3: the synthetic-traffic protocol engine of ziti-fabric-test,
      and the edge-router configuration command

    A shallow embedding of [ziti-fabric-test/subcmd/loop3/protocol.go]
    (framing codec, transmit loop, receive loop, verifier, session
    coordinator) and of [CreateConfigRouterEdgeOptions.run].

    Conventions.
    - Go's fixed-width integers are values of [Z]; every conversion and
      every wrapping operation is written out ([to_uint32], [to_int32]).
    - [time.Time] and [time.Duration] are [Z] nanoseconds.
    - The protocol object is threaded explicitly through a small state
      and error monad [M]; a Go function returning [error] is an [M unit],
      one returning [(T, error)] is an [M T], and a Go panic is its own
      outcome.
    - Collaborators that live outside the two source files (the digest,
      the message serializer, [Block.Tx], [Block.Rx], the template engine,
      the file system) are Section variables. *)

From Stdlib Require Import ZArith List String Ascii Bool Lia.
From Stdlib Require Import Strings.Byte.
Import ListNotations.
Open Scope Z_scope.

Set Implicit Arguments.

(* ------------------------------------------------------------------ *)
(** ** Machine integers *)

Module GoInt.

Definition to_uint32 (z : Z) : Z := z mod 2 ^ 32.

Definition to_int32 (z : Z) : Z := (z + 2 ^ 31) mod 2 ^ 32 - 2 ^ 31.

Definition MaxInt32 : Z := 2 ^ 31 - 1.
Definition MinInt32 : Z := - 2 ^ 31.

Definition is_int32 (z : Z) : Prop := MinInt32 <= z <= MaxInt32.
Definition is_uint32 (z : Z) : Prop := 0 <= z < 2 ^ 32.

(** [len(s)] of a slice, as a Go [int]. *)
Definition len {A} (l : list A) : Z := Z.of_nat (List.length l).

(** [byte(v)]: truncation of an integer to its low eight bits. *)
Definition byte_of_Z (z : Z) : byte :=
  match Byte.of_N (Z.to_N (Z.land z 255)) with
  | Some b => b
  | None => x00
  end.

(** [uint32(b)] of a byte. *)
Definition Z_of_byte (b : byte) : Z := Z.of_N (Byte.to_N b).

End GoInt.
Import GoInt.

(* ------------------------------------------------------------------ *)
(** ** encoding/binary, bytes, encoding/hex *)

(** [binary.LittleEndian.PutUint32(out, v)] on a 4-byte slice. *)
Definition PutUint32 (v : Z) : list byte :=
  [ byte_of_Z v;
    byte_of_Z (Z.shiftr v 8);
    byte_of_Z (Z.shiftr v 16);
    byte_of_Z (Z.shiftr v 24) ].

(** [binary.LittleEndian.Uint32(b)]; only the first four bytes are used. *)
Definition Uint32 (b : list byte) : Z :=
  match b with
  | b0 :: b1 :: b2 :: b3 :: _ =>
      Z.lor (Z.lor (Z.lor (Z_of_byte b0) (Z.shiftl (Z_of_byte b1) 8))
                   (Z.shiftl (Z_of_byte b2) 16))
            (Z.shiftl (Z_of_byte b3) 24)
  | _ => 0
  end.

(** [bytes.Equal]. *)
Definition bytes_Equal (a b : list byte) : bool :=
  if list_eq_dec Byte.byte_eq_dec a b then true else false.

Definition hexdigit (n : N) : Ascii.ascii :=
  match n with
  | 0%N => "0" | 1%N => "1" | 2%N => "2" | 3%N => "3"
  | 4%N => "4" | 5%N => "5" | 6%N => "6" | 7%N => "7"
  | 8%N => "8" | 9%N => "9" | 10%N => "a" | 11%N => "b"
  | 12%N => "c" | 13%N => "d" | 14%N => "e" | _ => "f"
  end%char.

(** [hex.EncodeToString]: two lower-case digits per byte. *)
Fixpoint hex_EncodeToString (src : list byte) : string :=
  match src with
  | [] => EmptyString
  | b :: rest =>
      String (hexdigit (N.div (Byte.to_N b) 16))
        (String (hexdigit (N.modulo (Byte.to_N b) 16))
           (hex_EncodeToString rest))
  end.

(* ------------------------------------------------------------------ *)
(** ** Errors, panics and observable effects *)

Inductive error : Type :=
| errors_New (msg : string)
    (** [errors.New(msg)] *)
| ErrExpectedSequence (expected got : Z)
    (** ["expected sequence [%d] got sequence [%d]"] *)
| ErrShortDataRead (n length : Z)
    (** ["short data read [%d != %d]"] *)
| ErrShortLengthRead (n : Z)
    (** ["short length read [%d != 4]"] *)
| ErrShortMagicRead (n want : Z)
    (** ["short magic header read [%v != %v]"] *)
| ErrBadHeader (got expected : list byte)
    (** ["bad header. Got %v, expected %v"] *)
| io_EOF
| io_ErrUnexpectedEOF
| errors_Wrap (cause : error) (msg : string)
    (** [errors.Wrap] and [errors.Wrapf] *)
| ErrForeign (msg : string)
    (** an error value produced by a collaborator *).

Inductive panic : Type :=
| PanicNilDereference
| PanicMakeSliceLen (n : Z).

Inductive level : Type := Debug | Info | Warn | Error | Fatal.

Inductive logmsg : Type :=
| Msg (s : string)
| MsgErr (e : error)
| MsgSendErr (e : error)
    (** ["error sending block (%s)"] *)
| MsgRxTimeout (timeout sinceLastRx tx rx : Z)
    (** ["rx timeout exceeded (%d ms.). Last rx: %v. tx count: %v, rx count: %v"] *)
| MsgFailureReading (length : Z)
    (** ["failure while reading message of length %v"] *).

(** What a run does to the outside world besides the connection: log
    records (with the logger's context) and suspensions. *)
Inductive effect : Type :=
| Log (ctx : string) (l : level) (m : logmsg)
| Sleep (d : Z).

(* ------------------------------------------------------------------ *)
(** ** The connection ([io.ReadWriteCloser]) *)

(** The peer is an interface value; its behaviour is an input of the
    program.  It is given as a script: the bytes the remote side delivers
    and the error that ends them, and the result each successive [Write]
    reports (a missing entry is a complete write). *)
Record stream : Type := mkStream {
  rx_data : list byte;
  rx_end : error;
  tx_data : list byte;
  tx_script : list (Z * option error);
  closed : bool;
  close_err : option error
}.

Definition stream_Write (buf : list byte) (s : stream)
  : (Z * option error) * stream :=
  match tx_script s with
  | [] =>
      ((len buf, None),
       mkStream (rx_data s) (rx_end s) (tx_data s ++ buf) []
                (closed s) (close_err s))
  | (n, err) :: script =>
      ((n, err),
       mkStream (rx_data s) (rx_end s)
                (tx_data s ++ firstn (Z.to_nat n) buf) script
                (closed s) (close_err s))
  end.

(** [io.ReadFull(r, buf)] with [len(buf) = n]: the buffer, the count and
    the error.  [io.EOF] only if no byte was read; an [io.EOF] after some
    but not all bytes becomes [io.ErrUnexpectedEOF]. *)
Definition stream_ReadFull (n : nat) (s : stream)
  : (list byte * Z * option error) * stream :=
  if (n <=? List.length (rx_data s))%nat then
    ((firstn n (rx_data s), Z.of_nat n, None),
     mkStream (skipn n (rx_data s)) (rx_end s) (tx_data s) (tx_script s)
              (closed s) (close_err s))
  else
    let got := rx_data s in
    let err :=
      match got, rx_end s with
      | _ :: _, io_EOF => io_ErrUnexpectedEOF
      | _, e => e
      end in
    ((got ++ repeat x00 (n - List.length got), len got, Some err),
     mkStream [] (rx_end s) (tx_data s) (tx_script s)
              (closed s) (close_err s)).

Definition stream_Close (s : stream) : option error * stream :=
  (close_err s,
   mkStream (rx_data s) (rx_end s) (tx_data s) (tx_script s)
            true (close_err s)).

(* ------------------------------------------------------------------ *)
(** ** Test descriptor, Block, protocol *)

Record Test : Type := mkTest {
  Name : string;
  TxRequests : Z;
  RxRequests : Z;
  PayloadMinBytes : Z;
  PayloadMaxBytes : Z;
  LatencyFrequency : Z;
  TxPacing : Z;
  TxMaxJitter : Z;
  RxTimeout : Z
}.

Inductive BlockType : Type :=
| BlockTypePlain
| BlockTypeLatencyRequest
| BlockTypeLatencyResponse.

Definition BlockType_eqb (a b : BlockType) : bool :=
  match a, b with
  | BlockTypePlain, BlockTypePlain
  | BlockTypeLatencyRequest, BlockTypeLatencyRequest
  | BlockTypeLatencyResponse, BlockTypeLatencyResponse => true
  | _, _ => false
  end.

Record Block : Type := mkBlock {
  Sequence : Z;
  Type_ : BlockType;
  Data : list byte;
  Hash : list byte;
  Timestamp : Z
}.

(** Capacities of the two buffered channels made by [newProtocol]. *)
Definition latencies_cap : Z := 1024.
Definition errors_cap : Z := 10240.

(** The protocol object.  [p.latencies] carries pointers to the
    [Timestamp] field of received Blocks; a received Block is a fresh
    allocation of [rxBlock] that nothing writes to once [Block.Rx] has
    returned, so the queue is kept as the timestamps pointed to.  The
    unbuffered [p.rxBlocks] and the generator's queue have no content of
    their own: what passes through them is an input of the loop that
    receives from them.  [effects] collects the log records and the
    suspensions, in program order. *)
Record protocol : Type := mkProtocol {
  test : option Test;
  rxSequence : Z;
  peer : stream;
  txCount : Z;
  rxCount : Z;
  lastRx : Z;
  latencies : list Z;
  errors : list error;
  effects : list effect
}.

Definition MagicHeader : list byte := [xca; xfe; xf0; x0d].

Definition newProtocol (peer : stream) : protocol :=
  mkProtocol None 0 peer 0 0 0 [] [] [].

(** Field updates of the protocol object. *)
Definition set_test (t : option Test) (p : protocol) : protocol :=
  mkProtocol t (rxSequence p) (peer p) (txCount p) (rxCount p) (lastRx p)
             (latencies p) (errors p) (effects p).
Definition set_rxSequence (v : Z) (p : protocol) : protocol :=
  mkProtocol (test p) v (peer p) (txCount p) (rxCount p) (lastRx p)
             (latencies p) (errors p) (effects p).
Definition set_peer (s : stream) (p : protocol) : protocol :=
  mkProtocol (test p) (rxSequence p) s (txCount p) (rxCount p) (lastRx p)
             (latencies p) (errors p) (effects p).
Definition set_txCount (v : Z) (p : protocol) : protocol :=
  mkProtocol (test p) (rxSequence p) (peer p) v (rxCount p) (lastRx p)
             (latencies p) (errors p) (effects p).
Definition set_rxCount (v : Z) (p : protocol) : protocol :=
  mkProtocol (test p) (rxSequence p) (peer p) (txCount p) v (lastRx p)
             (latencies p) (errors p) (effects p).
Definition set_lastRx (v : Z) (p : protocol) : protocol :=
  mkProtocol (test p) (rxSequence p) (peer p) (txCount p) (rxCount p) v
             (latencies p) (errors p) (effects p).
Definition set_latencies (q : list Z) (p : protocol) : protocol :=
  mkProtocol (test p) (rxSequence p) (peer p) (txCount p) (rxCount p)
             (lastRx p) q (errors p) (effects p).
Definition set_errors (q : list error) (p : protocol) : protocol :=
  mkProtocol (test p) (rxSequence p) (peer p) (txCount p) (rxCount p)
             (lastRx p) (latencies p) q (effects p).
Definition set_effects (l : list effect) (p : protocol) : protocol :=
  mkProtocol (test p) (rxSequence p) (peer p) (txCount p) (rxCount p)
             (lastRx p) (latencies p) (errors p) l.

(* ------------------------------------------------------------------ *)
(** ** The monad of protocol methods *)

Inductive result (A : Type) : Type :=
| Ok (a : A)
| Err (e : error)          (** the method returned a non-nil error *)
| Panicked (v : panic)     (** the method panicked *)
| Parked                   (** the goroutine is suspended for good *).
Arguments Err {A} e.
Arguments Panicked {A} v.
Arguments Parked {A}.

Definition M (A : Type) : Type := protocol -> result A * protocol.

Definition ret {A} (a : A) : M A := fun p => (Ok a, p).

Definition bind {A B} (c : M A) (k : A -> M B) : M B :=
  fun p =>
    match c p with
    | (Ok a, p') => k a p'
    | (Err e, p') => (Err e, p')
    | (Panicked v, p') => (Panicked v, p')
    | (Parked, p') => (Parked, p')
    end.

Declare Scope go_scope.
Delimit Scope go_scope with go.
Notation "x <- c1 ;; c2" := (bind c1 (fun x => c2))
  (at level 61, c1 at next level, right associativity) : go_scope.
Notation "' pat <- c1 ;; c2" :=
  (bind c1 (fun x => match x with pat => c2 end))
  (at level 61, pat pattern, c1 at next level, right associativity) : go_scope.
Notation "c1 ;; c2" := (bind c1 (fun _ => c2))
  (at level 61, right associativity) : go_scope.
Open Scope go_scope.

Definition fail {A} (e : error) : M A := fun p => (Err e, p).
Definition throw {A} (v : panic) : M A := fun p => (Panicked v, p).
Definition gets {A} (f : protocol -> A) : M A := fun p => (Ok (f p), p).
Definition modify (f : protocol -> protocol) : M unit :=
  fun p => (Ok tt, f p).

(** [err := f()] followed by an inspection of [err] by the caller. *)
Definition try {A} (c : M A) : M (A + error) :=
  fun p =>
    match c p with
    | (Ok a, p') => (Ok (inl a), p')
    | (Err e, p') => (Ok (inr e), p')
    | (Panicked v, p') => (Panicked v, p')
    | (Parked, p') => (Parked, p')
    end.

(** A deferred function that calls [recover()], acts on a recovered panic
    value and leaves a normal return alone. *)
Definition defer_recover {A} (h : panic -> M A) (c : M A) : M A :=
  fun p =>
    match c p with
    | (Panicked v, p') => h v p'
    | r => r
    end.

Definition emit (e : effect) : M unit :=
  modify (fun p => set_effects (effects p ++ [e]) p).

(** [p.test.X]: a nil [p.test] panics. *)
Definition get_test : M Test :=
  fun p =>
    match test p with
    | Some t => (Ok t, p)
    | None => (Panicked PanicNilDereference, p)
    end.

(** [make([]byte, n)]. *)
Definition make_bytes (n : Z) : M (list byte) :=
  if n <? 0 then throw (PanicMakeSliceLen n)
  else ret (repeat x00 (Z.to_nat n)).

Definition peer_Write (buf : list byte) : M (Z * option error) :=
  fun p =>
    let '(r, s) := stream_Write buf (peer p) in (Ok r, set_peer s p).

Definition io_ReadFull (buf : list byte)
  : M (list byte * Z * option error) :=
  fun p =>
    let '(r, s) := stream_ReadFull (List.length buf) (peer p) in
    (Ok r, set_peer s p).

Definition peer_Close : M (option error) :=
  fun p => let '(r, s) := stream_Close (peer p) in (Ok r, set_peer s p).

(** [p.errors <- err] on the queue of capacity 10240: a send on a full
    queue suspends the sender. *)
Definition errors_send (err : error) : M unit :=
  fun p =>
    if len (errors p) <? errors_cap
    then (Ok tt, set_errors (errors p ++ [err]) p)
    else (Parked, p).

(** [select { case p.latencies <- ts: default: }]: whether it was sent. *)
Definition latencies_offer (ts : Z) : M bool :=
  fun p =>
    if len (latencies p) <? latencies_cap
    then (Ok true, set_latencies (latencies p ++ [ts]) p)
    else (Ok false, p).

(** [select { case latency = <-p.latencies: default: latency = nil }]. *)
Definition latencies_poll : M (option Z) :=
  fun p =>
    match latencies p with
    | ts :: q => (Ok (Some ts), set_latencies q p)
    | [] => (Ok None, p)
    end.

(* ------------------------------------------------------------------ *)
(** ** Framing codec *)

Definition txMagicHeader : M unit :=
  '(n, err) <- peer_Write MagicHeader ;;
  match err with
  | Some e => fail e
  | None =>
      if negb (n =? len MagicHeader)
      then fail (errors_New "short data write (magic header)")
      else ret tt
  end.

Definition txLength (length : Z) : M unit :=
  let out := PutUint32 (to_uint32 length) in
  '(n, err) <- peer_Write out ;;
  match err with
  | Some e => fail e
  | None =>
      if negb (n =? 4)
      then fail (errors_New "short length write")
      else ret tt
  end.

Definition txHeader (msgLen : Z) : M unit :=
  txMagicHeader ;;
  txLength msgLen.

(** [binary.Read(buf, binary.LittleEndian, &length)] with [length] an
    [int32]: four bytes of the buffer, read as a 32-bit two's-complement
    little-endian integer. *)
Definition binary_Read_int32 (buf : list byte) : Z + error :=
  match buf with
  | [] => inr io_EOF
  | _ =>
      if (List.length buf <? 4)%nat then inr io_ErrUnexpectedEOF
      else inl (to_int32 (Uint32 buf))
  end.

Definition rxLength : M Z :=
  data <- make_bytes 4 ;;
  '(data, n, err) <- io_ReadFull data ;;
  match err with
  | Some e => fail e
  | None =>
      if negb (n =? 4) then fail (ErrShortLengthRead n)
      else
        match binary_Read_int32 data with
        | inr e => fail e
        | inl length => ret length
        end
  end.

Definition rxMagicHeader : M unit :=
  data <- make_bytes (len MagicHeader) ;;
  '(data, n, err) <- io_ReadFull data ;;
  match err with
  | Some e => fail e
  | None =>
      if negb (n =? len data) then fail (ErrShortMagicRead n (len data))
      else if negb (bytes_Equal MagicHeader data)
           then fail (ErrBadHeader data MagicHeader)
           else ret tt
  end.

Definition rxHeader : M Z :=
  rxMagicHeader ;;
  rxLength.

Definition rxMsgBody (length : Z) : M (list byte) :=
  data <- make_bytes length ;;
  '(data, _, err) <- io_ReadFull data ;;
  match err with
  | Some e => fail e
  | None => ret data
  end.

Section Codec.

(** The message schema: [proto.Marshal] and [proto.Unmarshal] at the
    type of the message being framed. *)
Variable Msg_ : Type.
Variable proto_Marshal : Msg_ -> list byte + error.
Variable proto_Unmarshal : list byte -> Msg_ + error.

Definition txPb (pb : Msg_) : M unit :=
  match proto_Marshal pb with
  | inr e => fail e
  | inl data =>
      txMagicHeader ;;
      txLength (len data) ;;
      '(n, err) <- peer_Write data ;;
      match err with
      | Some e => fail e
      | None =>
          if negb (n =? len data)
          then fail (errors_New "short data write")
          else ret tt
      end
  end.

Definition rxPb : M Msg_ :=
  rxMagicHeader ;;
  length <- rxLength ;;
  defer_recover
    (fun v =>
       t <- get_test ;;
       emit (Log (Name t) Error (MsgFailureReading length)) ;;
       throw v)
    (data <- make_bytes length ;;
     '(data, n, err) <- io_ReadFull data ;;
     match err with
     | Some e => fail e
     | None =>
         if negb (n =? length) then fail (ErrShortDataRead n length)
         else
           match proto_Unmarshal data with
           | inr e => fail e
           | inl pb => ret pb
           end
     end).

End Codec.

(** [txTest] and [rxTest], at the schema of the Test descriptor.  In Go
    they return [error] and [( *Test, error)]. *)
Section Handshake.

Variable Marshal_Test : Test -> list byte + error.
Variable Unmarshal_Test : list byte -> Test + error.

Definition txTest (t : Test) : M unit :=
  txPb Marshal_Test t ;;
  emit (Log "" Info (Msg "-> [test]")).

Definition rxTest : M Test :=
  t <- rxPb Unmarshal_Test ;;
  emit (Log "" Info (Msg "<- [test]")) ;;
  ret t.

End Handshake.

(* ------------------------------------------------------------------ *)
(** ** The engine: transmit loop, receive loop, verifier *)

Definition Millisecond : Z := 1000000.

(** [rand.Intn(n)] for [n > 0]: the generator's next raw value reduced to
    the half-open interval below [n]. *)
Definition rand_Intn (raw n : Z) : Z := raw mod n.

(** How a loop body ends: with another iteration or with [return]. *)
Inductive ctl : Type := Continue | Return.

(** How far a goroutine got on the inputs it was given. *)
Inductive progress : Type :=
| Waiting     (** suspended in a receive or [select], inputs used up *)
| Returned.

(** What the environment supplies to one iteration of the transmit loop:
    the value received from the generator's queue ([None] is the nil of a
    closed queue), the reading of [time.Now()] and the raw random value. *)
Record tx_input : Type := mkTxInput {
  tx_block : option Block;
  tx_now : Z;
  tx_raw : Z
}.

(** What the verifier's [select] yields: a value from [p.rxBlocks]
    ([None] is the nil of the closed queue), or the timer, with the
    reading of [info.NowInMilliseconds()]. *)
Inductive verifier_event : Type :=
| BlockArrives (b : option Block)
| TimerFires (now_ms : Z).

Definition with_latency (ts : Z) (b : Block) : Block :=
  mkBlock (Sequence b) BlockTypeLatencyResponse (Data b) (Hash b) ts.

Definition zero_Block : Block := mkBlock 0 BlockTypePlain [] [] 0.

Section Engine.

(** [sha512.Sum512]. *)
Variable sha512_Sum512 : list byte -> list byte.

(** [Block.Tx] and [Block.Rx] (block.go): send one Block over the
    protocol's connection; fill a Block from the connection. *)
Variable Block_Tx : Block -> M unit.
Variable Block_Rx : Block -> M Block.

Definition rxBlock : M Block :=
  let block := zero_Block in
  Block_Rx block.

(** *** Transmit loop *)

(** Lines 102-113: the latency echo. *)
Definition txer_latency (block : Block) : M Block :=
  if BlockType_eqb (Type_ block) BlockTypePlain then
    latency <- latencies_poll ;;
    match latency with
    | Some ts => ret (with_latency ts block)
    | None => ret block
    end
  else ret block.

(** Lines 115-129: pacing; yields the new [lastSend].  Pacing and jitter
    are 32-bit numbers of milliseconds, so the duration computed from
    them is far inside the range of [time.Duration] and the arithmetic
    is exact. *)
Definition txer_pacing (lastSend now raw : Z) : M Z :=
  t <- get_test ;;
  if TxPacing t >? 0 then
    let jitter :=
      if TxMaxJitter t >? 0 then rand_Intn raw (TxMaxJitter t) else 0 in
    let nextSend := lastSend + (TxPacing t + jitter) * Millisecond in
    if nextSend >? now then
      emit (Sleep (nextSend - now)) ;;
      ret nextSend
    else ret now
  else ret lastSend.

(** Lines 131-137: the send, the transmit counter, the failure path. *)
Definition txer_send (log : level -> logmsg -> effect)
           (block : Block) (lastSend : Z) : M (ctl * Z) :=
  r <- try (Block_Tx block) ;;
  match r with
  | inl _ =>
      modify (fun p => set_txCount (to_int32 (txCount p + 1)) p) ;;
      ret (Continue, lastSend)
  | inr err =>
      emit (log Error (MsgSendErr err)) ;;
      errors_send err ;;
      ret (Return, lastSend)
  end.

Definition txer_iter (log : level -> logmsg -> effect)
           (i : tx_input) (lastSend : Z) : M (ctl * Z) :=
  match tx_block i with
  | Some block =>
      block <- txer_latency block ;;
      lastSend <- txer_pacing lastSend (tx_now i) (tx_raw i) ;;
      txer_send log block lastSend
  | None =>
      emit (log Error (Msg "tx blocks chan closed")) ;;
      ret (Return, lastSend)
  end.

Fixpoint txer_loop (log : level -> logmsg -> effect)
         (inputs : list tx_input) (lastSend : Z) : M (progress * Z) :=
  t <- get_test ;;
  txc <- gets txCount ;;
  if txc <? TxRequests t then
    match inputs with
    | [] => ret (Waiting, lastSend)
    | i :: inputs' =>
        '(c, lastSend') <- txer_iter log i lastSend ;;
        match c with
        | Continue => txer_loop log inputs' lastSend'
        | Return => ret (Returned, lastSend')
        end
    end
  else
    emit (log Info (Msg "tx count reached")) ;;
    ret (Returned, lastSend).

(** *** Receive loop *)

(** One iteration up to the send on [p.rxBlocks]; the Block to be
    handed to the verifier is the result. *)
Definition rxer_iter (log : level -> logmsg -> effect) (now_ms : Z)
  : M (ctl * option Block) :=
  r <- try rxBlock ;;
  match r with
  | inr err =>
      errors_send err ;;
      emit (log Error (MsgErr err)) ;;
      ret (Return, None)
  | inl block =>
      (if BlockType_eqb (Type_ block) BlockTypeLatencyRequest then
         sent <- latencies_offer (Timestamp block) ;;
         if sent : bool then ret tt
         else emit (log Warn (Msg "latency channel out of room"))
       else ret tt) ;;
      modify (fun p => set_rxCount (to_int32 (rxCount p + 1)) p) ;;
      modify (set_lastRx now_ms) ;;
      ret (Continue, Some block)
  end.

(** *** Verifier *)

Definition verifier_iter (log : level -> logmsg -> effect)
           (ev : verifier_event) : M ctl :=
  match ev with
  | BlockArrives (Some block) =>
      rxSeq <- gets rxSequence ;;
      if Sequence block =? rxSeq then
        let hash := sha512_Sum512 (Data block) in
        if negb (String.eqb (hex_EncodeToString hash)
                            (hex_EncodeToString (Hash block))) then
          let err := errors_New "mismatched hashes" in
          errors_send err ;;
          closeErr <- peer_Close ;;
          match closeErr with
          | Some ce => emit (log Error (MsgErr ce))
          | None => ret tt
          end ;;
          emit (log Error (MsgErr err)) ;;
          ret Return
        else
          modify (fun p => set_rxSequence (to_uint32 (rxSequence p + 1)) p) ;;
          ret Continue
      else
        let err := ErrExpectedSequence rxSeq (Sequence block) in
        errors_send err ;;
        closeErr <- peer_Close ;;
        match closeErr with
        | Some ce => emit (log Error (MsgErr ce))
        | None => ret tt
        end ;;
        emit (log Error (MsgErr err)) ;;
        ret Return
  | BlockArrives None => ret Return
  | TimerFires now_ms =>
      t <- get_test ;;
      lastRx_ <- gets lastRx ;;
      let timeSinceLastRx := now_ms - lastRx_ in
      txc <- gets txCount ;;
      rxc <- gets rxCount ;;
      emit (log Error (MsgRxTimeout (RxTimeout t) timeSinceLastRx txc rxc)) ;;
      ret Return
  end.

Fixpoint verifier_loop (log : level -> logmsg -> effect)
         (evs : list verifier_event) : M progress :=
  match evs with
  | [] => ret Waiting
  | ev :: evs' =>
      c <- verifier_iter log ev ;;
      match c with
      | Continue => verifier_loop log evs'
      | Return => ret Returned
      end
  end.

(** *** The goroutines, resumable

    Each goroutine is run in turns: a turn starts it or resumes it where
    it was suspended and runs it on the inputs given, until it is
    suspended again or returns.  The first turn logs ["started"]; the
    deferred ["complete"] is logged when the loop returns. *)

Definition txer_turn (fresh : bool) (inputs : list tx_input)
           (lastSend : Z) : M (progress * Z) :=
  t <- get_test ;;
  let log := Log (Name t) in
  (if fresh then emit (log Debug (Msg "started")) else ret tt) ;;
  '(r, lastSend') <- txer_loop log inputs lastSend ;;
  match r with
  | Returned => emit (log Debug (Msg "complete")) ;; ret (Returned, lastSend')
  | Waiting => ret (Waiting, lastSend')
  end.

Definition verifier_turn (fresh : bool) (evs : list verifier_event)
  : M progress :=
  t <- get_test ;;
  let log := Log (Name t) in
  (if fresh then emit (log Debug (Msg "started")) else ret tt) ;;
  r <- verifier_loop log evs ;;
  match r with
  | Returned => emit (log Debug (Msg "complete")) ;; ret Returned
  | Waiting => ret Waiting
  end.

Definition txer (inputs : list tx_input) : M (progress * Z) :=
  txer_turn true inputs 0.

Definition verifier (evs : list verifier_event) : M progress :=
  verifier_turn true evs.

(** What a turn of the receive loop ends in. *)
Inductive rx_turn : Type :=
| RxSends (block : Block)   (** suspended in [p.rxBlocks <- block] *)
| RxCloses                  (** count reached: queue closed, returned *)
| RxFails                   (** read failed: error recorded, returned *).

(** The loop guard and one iteration up to the send, or the exit. *)
Definition rxer_turn (fresh : bool) (now_ms : Z) : M rx_turn :=
  t <- get_test ;;
  let log := Log (Name t) in
  (if fresh then emit (log Debug (Msg "started")) else ret tt) ;;
  rxc <- gets rxCount ;;
  if rxc <? RxRequests t then
    '(c, sent) <- rxer_iter log now_ms ;;
    match c, sent with
    | Continue, Some block => ret (RxSends block)
    | _, _ => emit (log Debug (Msg "complete")) ;; ret RxFails
    end
  else
    emit (log Info (Msg "rx count reached")) ;;
    emit (log Debug (Msg "complete")) ;;
    ret RxCloses.

(** *** Session coordinator *)

Inductive gstate : Type :=
| Absent      (** never started *)
| Fresh       (** started, has not run yet *)
| Active      (** suspended inside its loop *)
| Finished    (** returned *)
| Stuck       (** suspended for good *).

Definition runnable (g : gstate) : bool :=
  match g with Fresh | Active => true | _ => false end.

Definition is_fresh (g : gstate) : bool :=
  match g with Fresh => true | _ => false end.

Record session : Type := mkSession {
  proto : protocol;
  g_txer : gstate;
  lastSend_ : Z;
  g_rxer : gstate;
  rx_sending : option Block;
  rxBlocks_closed : bool;
  g_verifier : gstate;
  crashed : option panic
}.

(** One scheduling decision, with what the environment supplies. *)
Inductive sched : Type :=
| RunTxer (i : tx_input)
| RunRxer (now_ms : Z)
| Handoff
| VerifierSeesClose
| VerifierTimer (now_ms : Z).

Definition after_progress (r : progress) : gstate :=
  match r with Waiting => Active | Returned => Finished end.

Definition verifier_step (ev : verifier_event) (s : session)
  : option session :=
  match verifier_turn (is_fresh (g_verifier s)) [ev] (proto s) with
  | (Ok r, p') =>
      Some (mkSession p' (g_txer s) (lastSend_ s) (g_rxer s)
                      (rx_sending s) (rxBlocks_closed s)
                      (after_progress r) (crashed s))
  | (Parked, p') =>
      Some (mkSession p' (g_txer s) (lastSend_ s) (g_rxer s)
                      (rx_sending s) (rxBlocks_closed s)
                      Stuck (crashed s))
  | (Panicked v, p') =>
      Some (mkSession p' (g_txer s) (lastSend_ s) (g_rxer s)
                      (rx_sending s) (rxBlocks_closed s)
                      (g_verifier s) (Some v))
  | (Err _, _) => None
  end.

(** [None]: the decision is not enabled in this state. *)
Definition step (d : sched) (s : session) : option session :=
  match crashed s with
  | Some _ => None
  | None =>
      match d with
      | RunTxer i =>
          if runnable (g_txer s) then
            match txer_turn (is_fresh (g_txer s)) [i] (lastSend_ s)
                            (proto s) with
            | (Ok (r, lastSend'), p') =>
                Some (mkSession p' (after_progress r) lastSend' (g_rxer s)
                                (rx_sending s) (rxBlocks_closed s)
                                (g_verifier s) None)
            | (Parked, p') =>
                Some (mkSession p' Stuck (lastSend_ s) (g_rxer s)
                                (rx_sending s) (rxBlocks_closed s)
                                (g_verifier s) None)
            | (Panicked v, p') =>
                Some (mkSession p' (g_txer s) (lastSend_ s) (g_rxer s)
                                (rx_sending s) (rxBlocks_closed s)
                                (g_verifier s) (Some v))
            | (Err _, _) => None
            end
          else None
      | RunRxer now_ms =>
          match runnable (g_rxer s), rx_sending s with
          | true, None =>
              match rxer_turn (is_fresh (g_rxer s)) now_ms (proto s) with
              | (Ok (RxSends block), p') =>
                  Some (mkSession p' (g_txer s) (lastSend_ s) Active
                                  (Some block) (rxBlocks_closed s)
                                  (g_verifier s) None)
              | (Ok RxCloses, p') =>
                  Some (mkSession p' (g_txer s) (lastSend_ s) Finished
                                  None true (g_verifier s) None)
              | (Ok RxFails, p') =>
                  Some (mkSession p' (g_txer s) (lastSend_ s) Finished
                                  None (rxBlocks_closed s)
                                  (g_verifier s) None)
              | (Parked, p') =>
                  Some (mkSession p' (g_txer s) (lastSend_ s) Stuck
                                  None (rxBlocks_closed s)
                                  (g_verifier s) None)
              | (Panicked v, p') =>
                  Some (mkSession p' (g_txer s) (lastSend_ s) (g_rxer s)
                                  None (rxBlocks_closed s)
                                  (g_verifier s) (Some v))
              | (Err _, _) => None
              end
          | _, _ => None
          end
      | Handoff =>
          match runnable (g_verifier s), rx_sending s with
          | true, Some block =>
              verifier_step (BlockArrives (Some block))
                (mkSession (proto s) (g_txer s) (lastSend_ s) (g_rxer s)
                           None (rxBlocks_closed s) (g_verifier s)
                           (crashed s))
          | _, _ => None
          end
      | VerifierSeesClose =>
          if runnable (g_verifier s) && rxBlocks_closed s
          then verifier_step (BlockArrives None) s
          else None
      | VerifierTimer now_ms =>
          if runnable (g_verifier s)
          then verifier_step (TimerFires now_ms) s
          else None
      end
  end.

Fixpoint steps (ds : list sched) (s : session) : option session :=
  match ds with
  | [] => Some s
  | d :: ds' =>
      match step d s with
      | Some s' => steps ds' s'
      | None => None
      end
  end.

(** Lines 65-76: the goroutines are started; the verifier only when a
    receive total is configured. *)
Definition run_begin (t : Test) (p : protocol) : session :=
  mkSession (set_test (Some t) p) Fresh 0 Fresh None false
            (if RxRequests t >? 0 then Fresh else Absent) None.

(** Lines 78-86: both loops have reported completion; the first queued
    error, if any, is the outcome. *)
Definition run_end (s : session) : option (option error * protocol) :=
  match crashed s, g_rxer s, g_txer s with
  | None, Finished, Finished =>
      if len (errors (proto s)) >? 0 then
        match errors (proto s) with
        | err :: q => Some (Some err, set_errors q (proto s))
        | [] => None
        end
      else Some (None, proto s)
  | _, _, _ => None
  end.

(** [run(test)] under a schedule: [Some] with the returned error when
    the schedule is feasible and lets [run] return. *)
Definition run (t : Test) (ds : list sched) (p : protocol)
  : option (option error * protocol) :=
  match steps ds (run_begin t p) with
  | Some s => run_end s
  | None => None
  end.

End Engine.

(* ------------------------------------------------------------------ *)
(** ** The edge-router configuration command *)

Module RouterEdge.

Record CreateConfigRouterEdgeOptions : Type := mkOptions {
  Output : string;        (** of the embedded [CreateConfigRouterOptions] *)
  RouterName : string;
  Verbose : bool;
  WssEnabled : bool;
  IsPrivate : bool
}.

(** How the operation ends: it returns to its caller, with an error or
    nil, or the process exits. *)
Inductive outcome : Type :=
| Returns (err : option error)
| Exits (status : Z).

(** The levels of logrus, the most severe first. *)
Inductive logrus_Level : Type :=
| PanicLevel | FatalLevel | ErrorLevel | WarnLevel | InfoLevel
| DebugLevel | TraceLevel.

Definition Level_rank (l : logrus_Level) : Z :=
  match l with
  | PanicLevel => 0 | FatalLevel => 1 | ErrorLevel => 2 | WarnLevel => 3
  | InfoLevel => 4 | DebugLevel => 5 | TraceLevel => 6
  end.

Definition Level_of (l : level) : logrus_Level :=
  match l with
  | Debug => DebugLevel | Info => InfoLevel | Warn => WarnLevel
  | Error => ErrorLevel | Fatal => FatalLevel
  end.

(** Where a logger writes: [os.Stdout], [os.Stderr] or some other
    writer. *)
Inductive writer : Type := os_Stdout | os_Stderr | other_writer.

(** The standard logger of logrus, the one [logrus.SetLevel],
    [logrus.SetOutput], [logrus.Debugf] and [logrus.Fatal] act on.  The
    formatter gives the bytes written for a record. *)
Record Logger : Type := mkLogger {
  Out : writer;
  Formatter : level -> string -> string;
  Level : logrus_Level
}.

(** [logrus.New()]: records go to [os.Stderr], from the info level
    up. *)
Definition logrus_New (formatter : level -> string -> string) : Logger :=
  mkLogger os_Stderr formatter InfoLevel.

(** [logger.IsLevelEnabled(level)]. *)
Definition IsLevelEnabled (lg : Logger) (l : level) : bool :=
  Level_rank (Level_of l) <=? Level_rank (Level lg).

(** The part of the world the command acts on.  [stat] and [create] are
    what [os.Stat] and [os.Create] report for a path; [logged] holds the
    records the logger has emitted, in order. *)
Record world : Type := mkWorld {
  stat : string -> option error;
  create : string -> option error;
  files : list (string * string);
  stdout : string;
  logged : list (level * string);
  stderr : string;
  logger : Logger
}.

Definition os_ErrNotExist : error := ErrForeign "file does not exist".

Definition os_IsNotExist (err : option error) : bool :=
  match err with
  | Some (ErrForeign m) => String.eqb m "file does not exist"
  | _ => false
  end.

(** The line feed. *)
Definition LF : string := String "010"%char EmptyString.

Definition logrus_SetLevel (l : logrus_Level) (w : world) : world :=
  mkWorld (stat w) (create w) (files w) (stdout w) (logged w) (stderr w)
          (mkLogger (Out (logger w)) (Formatter (logger w)) l).

Definition logrus_SetOutput (out : writer) (w : world) : world :=
  mkWorld (stat w) (create w) (files w) (stdout w) (logged w) (stderr w)
          (mkLogger out (Formatter (logger w)) (Level (logger w))).

(** [logger.Log(level, message)]: a record of an enabled level is
    formatted and written to the logger's output; a record of a level
    that is not enabled is dropped. *)
Definition log_ (l : level) (m : string) (w : world) : world :=
  if IsLevelEnabled (logger w) l then
    let line := Formatter (logger w) l m in
    mkWorld (stat w) (create w) (files w)
            (match Out (logger w) with
             | os_Stdout => (stdout w ++ line)%string
             | _ => stdout w
             end)
            (logged w ++ [(l, m)])
            (match Out (logger w) with
             | os_Stderr => (stderr w ++ line)%string
             | _ => stderr w
             end)
            (logger w)
  else w.

(** [logrus.Fatal], [logrus.Fatalf]: the record is logged, then the
    logger's exit function, [os.Exit] unless replaced, ends the process
    with status 1; control does not come back to the caller. *)
Definition logrus_Fatal (m : string) (w : world) : outcome * world :=
  (Exits 1, log_ Fatal m w).

(** [os.Create(path)]: on success the file exists and is empty. *)
Definition os_Create (path : string) (w : world) : option error * world :=
  match create w path with
  | Some e => (Some e, w)
  | None =>
      (None,
       mkWorld (stat w) (create w)
               ((path, EmptyString)
                  :: filter (fun f => negb (String.eqb (fst f) path))
                            (files w))
               (stdout w) (logged w) (stderr w) (logger w))
  end.

Inductive dest : Type := ToStdout | ToFile (path : string).

Definition write_to (d : dest) (text : string) (w : world) : world :=
  match d with
  | ToStdout =>
      mkWorld (stat w) (create w) (files w) (stdout w ++ text)%string
              (logged w) (stderr w) (logger w)
  | ToFile path =>
      mkWorld (stat w) (create w)
              (map (fun f =>
                      if String.eqb (fst f) path
                      then (fst f, (snd f ++ text)%string) else f)
                   (files w))
              (stdout w) (logged w) (stderr w) (logger w)
  end.

Section Run.

(** [ConfigTemplateValues] with the three fields the command sets, the
    template engine, the embedded template text and the path
    functions. *)
Variable ConfigTemplateValues : Type.
Variable set_EdgeRouterName :
  string -> ConfigTemplateValues -> ConfigTemplateValues.
Variable set_WssEnabled :
  bool -> ConfigTemplateValues -> ConfigTemplateValues.
Variable set_IsPrivate :
  bool -> ConfigTemplateValues -> ConfigTemplateValues.
Variable Template : Type.
Variable routerConfigEdgeTemplate : string.
Variable template_Parse : string -> Template + error.
(** [tmpl.Execute]: the text written before it returned, its error. *)
Variable template_Execute :
  Template -> ConfigTemplateValues -> string * option error.
Variable strings_ToLower : string -> string.
Variable filepath_Dir : string -> string.

(** Lines 73-91: the hook cobra runs before [Run].  With [--verbose] the
    logger is set to the debug level and to standard output, or to
    standard error when the configuration itself goes to standard
    output; the values get the router's name and the two flags. *)
Definition PreRun (options : CreateConfigRouterEdgeOptions)
           (data : ConfigTemplateValues) (w : world)
  : ConfigTemplateValues * world :=
  let w :=
    if Verbose options then
      let w := logrus_SetLevel DebugLevel w in
      let logOut :=
        if negb (String.eqb (strings_ToLower (Output options)) "stdout")
        then os_Stdout else os_Stderr in
      logrus_SetOutput logOut w
    else w in
  let data := set_EdgeRouterName (RouterName options) data in
  let data := set_WssEnabled (WssEnabled options) data in
  let data := set_IsPrivate (IsPrivate options) data in
  (data, w).

Definition run (options : CreateConfigRouterEdgeOptions)
           (data : ConfigTemplateValues) (w : world) : outcome * world :=
  if IsPrivate options && WssEnabled options then
    logrus_Fatal
      "Flags for private and wss configs are mutually exclusive. You must choose private or wss, not both"
      w
  else
    match template_Parse routerConfigEdgeTemplate with
    | inr err => (Returns (Some err), w)
    | inl tmpl =>
        let execute (f : dest) (w : world) :=
          let '(text, err) := template_Execute tmpl data in
          let w := write_to f text w in
          match err with
          | Some e =>
              (Returns (Some (errors_Wrap e "unable to execute template")), w)
          | None =>
              (Returns None,
               log_ Debug
                 ("Edge Router configuration generated successfully and written to: "
                    ++ Output options)%string w)
          end in
        if negb (String.eqb (strings_ToLower (Output options)) "stdout")
        then
          let basePath := (filepath_Dir (Output options) ++ "/")%string in
          if os_IsNotExist (stat w (filepath_Dir basePath)) then
            logrus_Fatal
              ("Provided path: [" ++ basePath ++ "] does not exist" ++ LF)%string
              w
          else
            let '(err, w) := os_Create (Output options) w in
            let w :=
              log_ Debug ("Created output file: " ++ Output options)%string w in
            match err with
            | Some e =>
                (Returns
                   (Some (errors_Wrap e
                            ("unable to create config file: "
                               ++ Output options)%string)), w)
            | None => execute (ToFile (Output options)) w
            end
        else execute ToStdout w
    end.

End Run.

End RouterEdge.

(* ------------------------------------------------------------------ *)
(** ** The wire format in the specification's words *)

(** The length field read as an unsigned little-endian integer. *)
Definition le_unsigned (b0 b1 b2 b3 : byte) : Z :=
  Z_of_byte b0 + 2 ^ 8 * Z_of_byte b1 + 2 ^ 16 * Z_of_byte b2
  + 2 ^ 24 * Z_of_byte b3.

(** [fromHexChar] of encoding/hex: the value of a lower-case digit. *)
Definition fromHexChar (c : ascii) : N :=
  match c with
  | "0" => 0 | "1" => 1 | "2" => 2 | "3" => 3 | "4" => 4 | "5" => 5
  | "6" => 6 | "7" => 7 | "8" => 8 | "9" => 9 | "a" => 10 | "b" => 11
  | "c" => 12 | "d" => 13 | "e" => 14 | _ => 15
  end%char%N.

(* ------------------------------------------------------------------ *)
(** ** Vocabulary of the properties *)

(** The protocol after the connection delivered bytes up to [rest]. *)
Definition set_rx_data (rest : list byte) (p : protocol) : protocol :=
  set_peer (mkStream rest (rx_end (peer p)) (tx_data (peer p))
                     (tx_script (peer p)) (closed (peer p))
                     (close_err (peer p))) p.

(** The errors by which the codec reports a write that the connection
    accepted only in part. *)
Definition short_write_magic : error :=
  errors_New "short data write (magic header)".
Definition short_write_length : error := errors_New "short length write".
Definition short_write_data : error := errors_New "short data write".

Definition is_short_write (e : error) : Prop :=
  e = short_write_magic \/ e = short_write_length \/ e = short_write_data.



(** A connection that accepts every write in full. *)
Definition quiet_stream (rx : list byte) (rx_end : error) : stream :=
  mkStream rx rx_end [] [] false None.

(** What the caller of the frame reader gets for a payload that was read
    in full. *)
Definition decoded {A} (unmarshal : list byte -> A + error)
           (payload : list byte) : result A :=
  match unmarshal payload with
  | inl pb => Ok pb
  | inr e => Err e
  end.

(** What one [Write] reported, and the connection after it. *)
Definition write_report (buf : list byte) (s : stream) : Z * option error :=
  fst (stream_Write buf s).
Definition after_write (buf : list byte) (s : stream) : stream :=
  snd (stream_Write buf s).

(** The schema whose messages are their own encoding. *)
Definition raw_Marshal (m : list byte) : list byte + error := inl m.
Definition raw_Unmarshal (data : list byte) : list byte + error := inl data.

(** The protocol after the verifier met a fatal Block: the error is
    queued, the connection is closed, a failing close and the error are
    logged. *)
Definition verifier_failed (log : level -> logmsg -> effect) (err : error)
           (p : protocol) : protocol :=
  set_effects
    (effects p
     ++ match close_err (peer p) with
        | Some ce => [log Error (MsgErr ce)]
        | None => []
        end
     ++ [log Error (MsgErr err)])
    (set_peer (snd (stream_Close (peer p)))
              (set_errors (errors p ++ [err]) p)).

(** The verifier's event for a Block that arrived. *)
Definition arrives (b : Block) : verifier_event := BlockArrives (Some b).

(** The sequence numbers [from], [from + 1], ..., [n] of them. *)
Definition consecutive (from : Z) (n : nat) : list Z :=
  map (fun i => from + Z.of_nat i) (seq 0 n).

(** A sample digest and a sample Block schema, for the examples: the
    digest of a payload is its length modulo 256; a Block is encoded as
    its sequence byte, its type byte and its payload, and is decoded with
    the digest of the payload it carries. *)
Definition sample_digest (data : list byte) : list byte :=
  [byte_of_Z (len data)].

Definition sample_type_code (ty : BlockType) : Z :=
  match ty with
  | BlockTypePlain => 0
  | BlockTypeLatencyRequest => 1
  | BlockTypeLatencyResponse => 2
  end.

Definition sample_Marshal_Block (b : Block) : list byte + error :=
  inl (byte_of_Z (Sequence b) :: byte_of_Z (sample_type_code (Type_ b))
         :: Data b).

Definition sample_Unmarshal_Block (data : list byte) : Block + error :=
  match data with
  | sq :: ty :: payload =>
      inl (mkBlock (Z_of_byte sq)
                   (match Z_of_byte ty with
                    | 1 => BlockTypeLatencyRequest
                    | 2 => BlockTypeLatencyResponse
                    | _ => BlockTypePlain
                    end)
                   payload (sample_digest payload) (1000 + Z_of_byte sq))
  | _ => inr (ErrForeign "proto: truncated block")
  end.

Definition sample_Block_Tx (b : Block) : M unit :=
  txPb sample_Marshal_Block b.

Definition sample_Block_Rx (_ : Block) : M Block :=
  rxPb sample_Unmarshal_Block.

Definition sample_log : level -> logmsg -> effect := Log "loop".

Definition sample_test (tx rx pacing jitter timeout : Z) : Test :=
  mkTest "loop" tx rx 0 0 0 pacing jitter timeout.

(** Sample collaborators of the configuration command, for the examples:
    a template is its own text, executing it writes the text followed by
    the values, paths are already lower-case and live in ["."]. *)
Definition sample_Parse (text : string) : string + error := inl text.
Definition sample_Execute (tmpl values : string) : string * option error :=
  ((tmpl ++ values)%string, None).
Definition sample_ToLower (s : string) : string := s.
Definition sample_Dir (path : string) : string := ".".

(** The sample formatter writes the level's letter, the message and a
    line feed. *)
Definition sample_Formatter (l : level) (m : string) : string :=
  ((match l with
    | Debug => "D " | Info => "I " | Warn => "W " | Error => "E "
    | Fatal => "F "
    end) ++ m ++ RouterEdge.LF)%string.

(** A world with no files, in which every path exists and every file
    can be created, with the logger as [logrus.New] makes it. *)
Definition sample_world : RouterEdge.world :=
  RouterEdge.mkWorld (fun _ => None) (fun _ => None) [] EmptyString []
                     EmptyString (RouterEdge.logrus_New sample_Formatter).

Definition sample_options (private wss : bool)
  : RouterEdge.CreateConfigRouterEdgeOptions :=
  RouterEdge.mkOptions "stdout" "my_router" false wss private.

Definition sample_run (private wss : bool)
  : RouterEdge.outcome * RouterEdge.world :=
  RouterEdge.run "router: "%string sample_Parse sample_Execute
                 sample_ToLower sample_Dir (sample_options private wss)
                 "my_router"%string sample_world.

(* ------------------------------------------------------------------ *)
(** ** Vocabulary of the further properties *)

(** The frame of a payload, as [txPb] puts it on the wire. *)
Definition frame (data : list byte) : list byte :=
  MagicHeader ++ PutUint32 (to_uint32 (len data)) ++ data.

(** The connection after it took [out] in full. *)
Definition wrote (out : list byte) (s : stream) : stream :=
  mkStream (rx_data s) (rx_end s) (tx_data s ++ out) (tx_script s)
           (closed s) (close_err s).

(** Handing a payload that was read to the message decoder. *)
Definition decode_with {A} (unmarshal : list byte -> A + error)
           (data : list byte) : M A :=
  match unmarshal data with
  | inl pb => ret pb
  | inr e => fail e
  end.

(** [p'] differs from [p] in the connection and the log at most. *)
Definition same_but_io (p p' : protocol) : Prop :=
  p' = set_effects (effects p') (set_peer (peer p') p).

(** A method that acts on the connection and the log only, as the
    methods of the framing codec do. *)
Definition io_only {A} (c : M A) : Prop :=
  forall p r p', c p = (r, p') -> same_but_io p p'.

(** The number of goroutines of a session that have returned. *)
Definition returned (g : gstate) : Z :=
  match g with Finished => 1 | _ => 0 end.

(** The Block the receive loop is handing over counts as received but
    not yet verified. *)
Definition in_flight (s : session) : Z :=
  match rx_sending s with Some _ => 1 | None => 0 end.


(** What logging a record of level [l] with message [m] adds to
    standard output in the world [w]: the formatted record when the
    level is enabled and the logger writes to standard output, and
    nothing otherwise. *)
Definition log_line (l : level) (m : string) (w : RouterEdge.world)
  : string :=
  if RouterEdge.IsLevelEnabled (RouterEdge.logger w) l then
    match RouterEdge.Out (RouterEdge.logger w) with
    | RouterEdge.os_Stdout => RouterEdge.Formatter (RouterEdge.logger w) l m
    | _ => EmptyString
    end
  else EmptyString.

(** What it adds to the records emitted: the record when the level is
    enabled. *)
Definition log_entry (l : level) (m : string) (w : RouterEdge.world)
  : list (level * string) :=
  if RouterEdge.IsLevelEnabled (RouterEdge.logger w) l then [(l, m)]
  else [].

(** A method that leaves the log as it is. *)
Definition keeps_log {A} (c : M A) : Prop :=
  forall p r p', c p = (r, p') -> effects p' = effects p.

(** What holds of a session at every point of a run of descriptor [t]:
    the verifier is never ahead of the receive loop, no counter passes
    its total, the queues are within bounds, and every queued error
    belongs to a goroutine that has returned. *)
Definition session_ok (t : Test) (s : session) : Prop :=
  test (proto s) = Some t
  /\ 0 <= rxSequence (proto s)
  /\ rxSequence (proto s) + in_flight s <= rxCount (proto s)
  /\ rxCount (proto s) <= Z.max 0 (RxRequests t)
  /\ 0 <= txCount (proto s) <= Z.max 0 (TxRequests t)
  /\ len (latencies (proto s)) <= latencies_cap
  /\ len (errors (proto s))
     <= returned (g_txer s) + returned (g_rxer s) + returned (g_verifier s).

(** A method all of whose runs relate the protocol before and after by
    [R]. *)
Definition respects {A} (R : protocol -> protocol -> Prop) (c : M A)
  : Prop :=
  forall p r p', c p = (r, p') -> R p p'.

(** Of the connection, [p'] differs from [p] by bytes written at most:
    nothing was read and the connection was not closed. *)
Definition only_writes (p p' : protocol) : Prop :=
  rx_data (peer p') = rx_data (peer p)
  /\ rx_end (peer p') = rx_end (peer p)
  /\ closed (peer p') = closed (peer p)
  /\ close_err (peer p') = close_err (peer p)
  /\ exists out, tx_data (peer p') = tx_data (peer p) ++ out.

(** Of the connection, [p'] differs from [p] by bytes read at most:
    nothing was written and the connection was not closed. *)
Definition only_reads (p p' : protocol) : Prop :=
  tx_data (peer p') = tx_data (peer p)
  /\ tx_script (peer p') = tx_script (peer p)
  /\ rx_end (peer p') = rx_end (peer p)
  /\ closed (peer p') = closed (peer p)
  /\ close_err (peer p') = close_err (peer p)
  /\ exists consumed, rx_data (peer p) = consumed ++ rx_data (peer p').

(* ================================================================== *)
(** * Properties *)

Unset Implicit Arguments.


(** ** Bytes and integers *)

Lemma Z_of_byte_range (b : byte) : 0 <= Z_of_byte b < 256.
Proof.
  unfold Z_of_byte. pose proof (Byte.to_N_bounded b). lia.
Qed.

Lemma Z_of_byte_of_Z (z : Z) : Z_of_byte (byte_of_Z z) = z mod 256.
Proof.
  unfold Z_of_byte, byte_of_Z.
  change 255 with (Z.ones 8). rewrite Z.land_ones by lia.
  change (2 ^ 8) with 256.
  pose proof (Z.mod_pos_bound z 256 ltac:(lia)) as Hb.
  destruct (Byte.of_N (Z.to_N (z mod 256))) as [b|] eqn:E.
  - apply Byte.to_of_N in E. rewrite E. lia.
  - apply Byte.of_N_None_iff in E. lia.
Qed.

Lemma byte_of_Z_of_byte (b : byte) : byte_of_Z (Z_of_byte b) = b.
Proof.
  unfold byte_of_Z, Z_of_byte.
  change 255 with (Z.ones 8). rewrite Z.land_ones by lia.
  pose proof (Byte.to_N_bounded b).
  rewrite Z.mod_small by (change (2 ^ 8) with 256; lia).
  rewrite N2Z.id, Byte.of_to_N. reflexivity.
Qed.

(** A value below [2^n] and a value shifted left by [n] have no bit in
    common, so or-ing them adds them. *)
Lemma lor_shiftl_add (a b n : Z) :
  0 <= n -> 0 <= a < 2 ^ n -> Z.lor a (Z.shiftl b n) = a + b * 2 ^ n.
Proof.
  intros Hn Ha.
  rewrite <- Z.lxor_lor.
  - rewrite <- Z.add_nocarry_lxor; [rewrite Z.shiftl_mul_pow2 by lia; reflexivity|].
    apply Z.bits_inj'. intros i Hi. rewrite Z.land_spec, Z.bits_0.
    destruct (Z.ltb_spec i n).
    + rewrite Z.shiftl_spec_low by lia. apply andb_false_r.
    + replace a with (a mod 2 ^ n) by (apply Z.mod_small; lia).
      rewrite Z.mod_pow2_bits_high by lia. reflexivity.
  - apply Z.bits_inj'. intros i Hi. rewrite Z.land_spec, Z.bits_0.
    destruct (Z.ltb_spec i n).
    + rewrite Z.shiftl_spec_low by lia. apply andb_false_r.
    + replace a with (a mod 2 ^ n) by (apply Z.mod_small; lia).
      rewrite Z.mod_pow2_bits_high by lia. reflexivity.
Qed.

(** The bit operations of [Uint32] compute the unsigned little-endian
    value of the specification. *)
Lemma Uint32_le_unsigned (b0 b1 b2 b3 : byte) (rest : list byte) :
  Uint32 (b0 :: b1 :: b2 :: b3 :: rest) = le_unsigned b0 b1 b2 b3.
Proof.
  unfold Uint32, le_unsigned.
  pose proof (Z_of_byte_range b0). pose proof (Z_of_byte_range b1).
  pose proof (Z_of_byte_range b2). pose proof (Z_of_byte_range b3).
  rewrite (lor_shiftl_add (Z_of_byte b0) (Z_of_byte b1)) by lia.
  rewrite (lor_shiftl_add _ (Z_of_byte b2)) by lia.
  rewrite (lor_shiftl_add _ (Z_of_byte b3)) by lia.
  lia.
Qed.

Lemma le_unsigned_range (b0 b1 b2 b3 : byte) :
  0 <= le_unsigned b0 b1 b2 b3 < 2 ^ 32.
Proof.
  unfold le_unsigned.
  pose proof (Z_of_byte_range b0). pose proof (Z_of_byte_range b1).
  pose proof (Z_of_byte_range b2). pose proof (Z_of_byte_range b3).
  lia.
Qed.

(** Decoding what [PutUint32] wrote gives the value back. *)
Lemma Uint32_PutUint32 (v : Z) :
  0 <= v < 2 ^ 32 -> Uint32 (PutUint32 v) = v.
Proof.
  intros Hv. unfold PutUint32. rewrite Uint32_le_unsigned.
  unfold le_unsigned. rewrite !Z_of_byte_of_Z, !Z.shiftr_div_pow2 by lia.
  change (2 ^ 8) with 256. change (2 ^ 16) with 65536.
  change (2 ^ 24) with 16777216. change (2 ^ 32) with 4294967296 in Hv.
  assert (E2 : v / 65536 = v / 256 / 256)
    by (rewrite Z.div_div by lia; reflexivity).
  assert (E3 : v / 16777216 = v / 256 / 256 / 256)
    by (rewrite !Z.div_div by lia; reflexivity).
  rewrite E2, E3.
  pose proof (Z.div_mod v 256 ltac:(lia)).
  pose proof (Z.div_mod (v / 256) 256 ltac:(lia)).
  pose proof (Z.div_mod (v / 256 / 256) 256 ltac:(lia)).
  assert (v / 256 / 256 / 256 < 256).
  { apply Z.div_lt_upper_bound; [lia|].
    apply Z.div_lt_upper_bound; [lia|].
    apply Z.div_lt_upper_bound; lia. }
  assert (0 <= v / 256 / 256 / 256).
  { repeat apply Z.div_pos; lia. }
  rewrite (Z.mod_small (v / 256 / 256 / 256)) by lia.
  lia.
Qed.

(** [to_int32] is the identity below [2^31] and subtracts [2^32] from
    there on. *)
Lemma to_int32_unsigned (u : Z) :
  0 <= u < 2 ^ 32 ->
  to_int32 u = if u <? 2 ^ 31 then u else u - 2 ^ 32.
Proof.
  intros Hu. unfold to_int32.
  destruct (Z.ltb_spec u (2 ^ 31)).
  - rewrite Z.mod_small; lia.
  - replace (u + 2 ^ 31) with (u - 2 ^ 31 + 1 * 2 ^ 32) by lia.
    rewrite Z.mod_add by lia. rewrite Z.mod_small; lia.
Qed.

Lemma fromHexChar_hexdigit (b : byte) :
  Byte.of_N (16 * fromHexChar (hexdigit (Byte.to_N b / 16))
             + fromHexChar (hexdigit (Byte.to_N b mod 16)))%N = Some b.
Proof. destruct b; reflexivity. Qed.

Lemma hex_EncodeToString_inj (a b : list byte) :
  hex_EncodeToString a = hex_EncodeToString b -> a = b.
Proof.
  revert b. induction a as [|x a IH]; intros [|y b] H; simpl in H;
    try discriminate; [reflexivity|].
  injection H as H1 H2 H3.
  pose proof (fromHexChar_hexdigit x) as Hx.
  rewrite H1, H2, fromHexChar_hexdigit in Hx.
  injection Hx as ->. f_equal. apply IH, H3.
Qed.

(** Comparing the hex renderings, as the verifier does, is comparing the
    digests. *)
Lemma hex_eqb_iff (a b : list byte) :
  String.eqb (hex_EncodeToString a) (hex_EncodeToString b) = true <-> a = b.
Proof.
  rewrite String.eqb_eq. split; [apply hex_EncodeToString_inj|now intros ->].
Qed.

(** ** The monad *)

Lemma bind_Ok {A B} (c : M A) (k : A -> M B) p a p' :
  c p = (Ok a, p') -> bind c k p = k a p'.
Proof. intros H. unfold bind. rewrite H. reflexivity. Qed.

Lemma bind_Err {A B} (c : M A) (k : A -> M B) p e p' :
  c p = (Err e, p') -> bind c k p = (Err e, p').
Proof. intros H. unfold bind. rewrite H. reflexivity. Qed.

Lemma bind_Panicked {A B} (c : M A) (k : A -> M B) p v p' :
  c p = (Panicked v, p') -> bind c k p = (Panicked v, p').
Proof. intros H. unfold bind. rewrite H. reflexivity. Qed.

(** ** Reading from the connection *)

Lemma set_rx_data_same p : set_rx_data (rx_data (peer p)) p = p.
Proof. destruct p as [? ? [] ? ? ? ? ? ?]. reflexivity. Qed.

Lemma io_ReadFull_enough (buf : list byte) p :
  (List.length buf <= List.length (rx_data (peer p)))%nat ->
  io_ReadFull buf p =
  (Ok (firstn (List.length buf) (rx_data (peer p)),
       len buf, None),
   set_rx_data (skipn (List.length buf) (rx_data (peer p))) p).
Proof.
  intros H. unfold io_ReadFull, stream_ReadFull.
  apply Nat.leb_le in H. rewrite H. reflexivity.
Qed.

Lemma io_ReadFull_early (buf : list byte) p :
  (List.length (rx_data (peer p)) < List.length buf)%nat ->
  exists data e,
    io_ReadFull buf p =
    (Ok (data, len (rx_data (peer p)), Some e), set_rx_data [] p) /\
    (rx_end (peer p) = io_EOF ->
     e = match rx_data (peer p) with
         | [] => io_EOF
         | _ :: _ => io_ErrUnexpectedEOF
         end).
Proof.
  intros H. unfold io_ReadFull, stream_ReadFull.
  apply Nat.leb_gt in H. rewrite H. eexists _, _. split; [reflexivity|].
  intros ->. destruct (rx_data (peer p)); reflexivity.
Qed.

Lemma bytes_Equal_iff (a b : list byte) : bytes_Equal a b = true <-> a = b.
Proof.
  unfold bytes_Equal. destruct (list_eq_dec Byte.byte_eq_dec a b); split;
    congruence.
Qed.

(** ** Reading a frame *)

Lemma rxMagicHeader_match (rest : list byte) p :
  rx_data (peer p) = MagicHeader ++ rest ->
  rxMagicHeader p = (Ok tt, set_rx_data rest p).
Proof.
  intros H. unfold rxMagicHeader.
  erewrite bind_Ok by reflexivity.
  erewrite bind_Ok by (apply io_ReadFull_enough; rewrite H; simpl; lia).
  rewrite H. reflexivity.
Qed.

Lemma rxMagicHeader_mismatch (h0 h1 h2 h3 : byte) (rest : list byte) p :
  rx_data (peer p) = h0 :: h1 :: h2 :: h3 :: rest ->
  [h0; h1; h2; h3] <> MagicHeader ->
  rxMagicHeader p =
  (Err (ErrBadHeader [h0; h1; h2; h3] MagicHeader), set_rx_data rest p).
Proof.
  intros H Hne. unfold rxMagicHeader.
  erewrite bind_Ok by reflexivity.
  erewrite bind_Ok by (apply io_ReadFull_enough; rewrite H; simpl; lia).
  rewrite H.
  change (firstn _ (h0 :: h1 :: h2 :: h3 :: rest)) with [h0; h1; h2; h3].
  change (skipn _ (h0 :: h1 :: h2 :: h3 :: rest)) with rest.
  change (len (repeat x00 (Z.to_nat (len MagicHeader)))) with 4.
  change (len [h0; h1; h2; h3]) with 4.
  change (negb (4 =? 4)) with false. cbv iota.
  destruct (bytes_Equal MagicHeader [h0; h1; h2; h3]) eqn:E.
  - apply bytes_Equal_iff in E. congruence.
  - reflexivity.
Qed.


(** The length field is read as a 32-bit two's-complement integer. *)
Lemma rxLength_value (b0 b1 b2 b3 : byte) (rest : list byte) p :
  rx_data (peer p) = b0 :: b1 :: b2 :: b3 :: rest ->
  rxLength p =
  (Ok (to_int32 (le_unsigned b0 b1 b2 b3)), set_rx_data rest p).
Proof.
  intros H. unfold rxLength.
  erewrite bind_Ok by reflexivity.
  erewrite bind_Ok by (apply io_ReadFull_enough; rewrite H; simpl; lia).
  rewrite H.
  change (firstn _ (b0 :: b1 :: b2 :: b3 :: rest)) with [b0; b1; b2; b3].
  change (skipn _ (b0 :: b1 :: b2 :: b3 :: rest)) with rest.
  change (len (repeat x00 (Z.to_nat 4))) with 4.
  change (negb (4 =? 4)) with false. cbv iota.
  change (binary_Read_int32 [b0; b1; b2; b3])
    with (@inl Z error (to_int32 (Uint32 [b0; b1; b2; b3]))).
  rewrite Uint32_le_unsigned. reflexivity.
Qed.


Lemma set_rx_data_twice r1 r2 p :
  set_rx_data r2 (set_rx_data r1 p) = set_rx_data r2 p.
Proof. reflexivity. Qed.

Lemma make_bytes_nonneg (n : Z) p :
  0 <= n -> make_bytes n p = (Ok (repeat x00 (Z.to_nat n)), p).
Proof.
  intros H. unfold make_bytes.
  destruct (Z.ltb_spec n 0); [lia|reflexivity].
Qed.

Lemma make_bytes_negative (n : Z) p :
  n < 0 -> make_bytes n p = (Panicked (PanicMakeSliceLen n), p).
Proof.
  intros H. unfold make_bytes.
  destruct (Z.ltb_spec n 0); [reflexivity|lia].
Qed.

Section RxPb.

Variable Msg_ : Type.
Variable proto_Unmarshal : list byte -> Msg_ + error.

(** A whole frame on the stream: exactly the announced number of payload
    bytes is consumed and handed to the decoder. *)
Lemma rxPb_frame (b0 b1 b2 b3 : byte) (payload rest : list byte) p :
  rx_data (peer p) =
    MagicHeader ++ [b0; b1; b2; b3] ++ payload ++ rest ->
  to_int32 (le_unsigned b0 b1 b2 b3) = len payload ->
  rxPb proto_Unmarshal p = (decoded proto_Unmarshal payload, set_rx_data rest p).
Proof.
  intros H Hn. unfold rxPb.
  erewrite bind_Ok by (apply rxMagicHeader_match; exact H).
  erewrite bind_Ok by (apply rxLength_value; reflexivity).
  rewrite Hn, set_rx_data_twice. unfold defer_recover.
  assert (Hlen : List.length (repeat x00 (Z.to_nat (len payload)))
                 = List.length payload)
    by (unfold len; rewrite repeat_length, Nat2Z.id; reflexivity).
  erewrite bind_Ok by (apply make_bytes_nonneg; unfold len; lia).
  erewrite bind_Ok.
  2:{ apply io_ReadFull_enough. rewrite Hlen. cbn [peer set_rx_data set_peer rx_data].
      rewrite length_app. lia. }
  rewrite Hlen. cbn [peer set_rx_data set_peer rx_data].
  rewrite firstn_app, Nat.sub_diag, firstn_all, firstn_O, app_nil_r.
  rewrite skipn_app, Nat.sub_diag, skipn_all, skipn_O. cbn [app].
  replace (len (repeat x00 (Z.to_nat (len payload)))) with (len payload)
    by (unfold len at 2; rewrite Hlen; reflexivity).
  rewrite Z.eqb_refl. cbn [negb]. unfold decoded, set_rx_data.
  cbn [peer set_peer rx_end tx_data tx_script closed close_err].
  destruct (proto_Unmarshal payload); reflexivity.
Qed.

(** A length field with the top bit set is a negative length: the
    allocation panics, the deferred handler logs and panics again. *)
Lemma rxPb_negative_length (b0 b1 b2 b3 : byte) (rest : list byte) t p :
  rx_data (peer p) = MagicHeader ++ [b0; b1; b2; b3] ++ rest ->
  to_int32 (le_unsigned b0 b1 b2 b3) < 0 ->
  test p = Some t ->
  rxPb proto_Unmarshal p =
  (Panicked (PanicMakeSliceLen (to_int32 (le_unsigned b0 b1 b2 b3))),
   set_effects
     (effects p ++
      [Log (Name t) Error
           (MsgFailureReading (to_int32 (le_unsigned b0 b1 b2 b3)))])
     (set_rx_data rest p)).
Proof.
  intros H Hn Ht. unfold rxPb.
  erewrite bind_Ok by (apply rxMagicHeader_match; exact H).
  erewrite bind_Ok by (apply rxLength_value; reflexivity).
  rewrite set_rx_data_twice. unfold defer_recover.
  erewrite bind_Panicked by (apply make_bytes_negative; exact Hn).
  unfold bind, get_test. cbn [test set_rx_data set_peer]. rewrite Ht.
  reflexivity.
Qed.






End RxPb.

(** ** Writing a frame *)

Lemma peer_Write_report (buf : list byte) p :
  peer_Write buf p =
  (Ok (write_report buf (peer p)), set_peer (after_write buf (peer p)) p).
Proof.
  unfold peer_Write, write_report, after_write.
  destruct (stream_Write buf (peer p)). reflexivity.
Qed.

Lemma after_write_complete (buf : list byte) s :
  write_report buf s = (len buf, None) ->
  tx_data (after_write buf s) = tx_data s ++ buf.
Proof.
  unfold write_report, after_write, stream_Write.
  destruct (tx_script s) as [|[n err] script]; cbn [fst snd tx_data].
  - reflexivity.
  - intros H. injection H as -> ->.
    unfold len. rewrite Nat2Z.id, firstn_all. reflexivity.
Qed.

Lemma txMagicHeader_report p :
  txMagicHeader p =
  (match write_report MagicHeader (peer p) with
   | (_, Some e) => Err e
   | (n, None) => if n =? 4 then Ok tt else Err short_write_magic
   end,
   set_peer (after_write MagicHeader (peer p)) p).
Proof.
  unfold txMagicHeader. erewrite bind_Ok by apply peer_Write_report.
  destruct (write_report MagicHeader (peer p)) as [n [e|]]; [reflexivity|].
  change (len MagicHeader) with 4. destruct (n =? 4); reflexivity.
Qed.

Lemma txLength_report (length : Z) p :
  txLength length p =
  (match write_report (PutUint32 (to_uint32 length)) (peer p) with
   | (_, Some e) => Err e
   | (n, None) => if n =? 4 then Ok tt else Err short_write_length
   end,
   set_peer (after_write (PutUint32 (to_uint32 length)) (peer p)) p).
Proof.
  unfold txLength. erewrite bind_Ok by apply peer_Write_report.
  destruct (write_report _ (peer p)) as [n [e|]]; [reflexivity|].
  destruct (n =? 4); reflexivity.
Qed.

(** ** The length field on the reading side (C4) *)

(** What the frame reader does with the four bytes after the marker, for
    every value of them: it takes them as a 32-bit two's-complement
    little-endian integer.  The length it returns is the unsigned
    little-endian value of the bytes when that value is below 2^31, and
    that value minus 2^32 otherwise.  With a value below 2^31 exactly
    that many payload bytes are then read and handed to the decoder;
    with a larger one the length is negative and the reader panics
    having read no payload byte. *)
Lemma rxLength_twos_complement
      (b0 b1 b2 b3 : byte) (rest : list byte) (p : protocol) :
  rx_data (peer p) = b0 :: b1 :: b2 :: b3 :: rest ->
  let u := le_unsigned b0 b1 b2 b3 in
  rxLength p = (Ok (if u <? 2 ^ 31 then u else u - 2 ^ 32),
                set_rx_data rest p)
  /\ (forall (A : Type) (unmarshal : list byte -> A + error)
             (payload rest' : list byte) (q : protocol),
        rx_data (peer q) =
          MagicHeader ++ [b0; b1; b2; b3] ++ payload ++ rest' ->
        u < 2 ^ 31 -> len payload = u ->
        rxPb unmarshal q = (decoded unmarshal payload, set_rx_data rest' q))
  /\ (forall (A : Type) (unmarshal : list byte -> A + error)
             (rest' : list byte) (t : Test) (q : protocol),
        rx_data (peer q) = MagicHeader ++ [b0; b1; b2; b3] ++ rest' ->
        2 ^ 31 <= u -> test q = Some t ->
        fst (rxPb unmarshal q) = Panicked (PanicMakeSliceLen (u - 2 ^ 32))
        /\ rx_data (peer (snd (rxPb unmarshal q))) = rest').
Proof.
  intros H u.
  pose proof (le_unsigned_range b0 b1 b2 b3) as Hu. fold u in Hu.
  pose proof (to_int32_unsigned u Hu) as Hs.
  split; [|split].
  - rewrite (rxLength_value b0 b1 b2 b3 rest p H). fold u.
    rewrite Hs. reflexivity.
  - intros A unmarshal payload rest' q Hq Hlt Hlen.
    apply (rxPb_frame A unmarshal b0 b1 b2 b3); [exact Hq|].
    fold u. rewrite Hs. destruct (Z.ltb_spec u (2 ^ 31)); lia.
  - intros A unmarshal rest' t q Hq Hge Ht.
    assert (Hn : to_int32 (le_unsigned b0 b1 b2 b3) = u - 2 ^ 32).
    { fold u. rewrite Hs. destruct (Z.ltb_spec u (2 ^ 31)); lia. }
    rewrite (rxPb_negative_length A unmarshal b0 b1 b2 b3 rest' t q Hq);
      [|rewrite Hn; lia|exact Ht].
    rewrite Hn. split; reflexivity.
Qed.

(** A length field of 1 followed by one byte of payload. *)
Example rxLength_twos_complement_small :
  rxLength (newProtocol (quiet_stream [x01; x00; x00; x00; x2a] io_EOF))
  = (Ok 1, newProtocol (quiet_stream [x2a] io_EOF)).
Proof.
  exact (proj1 (rxLength_twos_complement x01 x00 x00 x00 [x2a]
                  (newProtocol
                     (quiet_stream [x01; x00; x00; x00; x2a] io_EOF))
                  eq_refl)).
Defined.

(** C4, on the code.  The frame CA FE F0 0D 00 00 00 80 2A announces, read
    as the unsigned little-endian integer of the wire format, a payload
    of 2^31 bytes.  The frame reader returns the length -2^31 for it and
    then panics in the allocation of the payload buffer, having read no
    payload byte, where the length field written by [txLength] for any
    count up to 2^32 - 1 decodes to that count. *)
Theorem rxLength_top_bit_set_is_negative :
  let p :=
    set_test (Some (sample_test 0 1 0 0 50))
      (newProtocol
         (quiet_stream [xca; xfe; xf0; x0d; x00; x00; x00; x80; x2a]
                       io_EOF)) in
  le_unsigned x00 x00 x00 x80 = 2 ^ 31
  /\ PutUint32 (to_uint32 (2 ^ 31)) = [x00; x00; x00; x80]
  /\ fst (rxLength (set_rx_data [x00; x00; x00; x80; x2a] p))
     = Ok (- 2 ^ 31)
  /\ fst (rxPb raw_Unmarshal p) = Panicked (PanicMakeSliceLen (- 2 ^ 31))
  /\ rx_data (peer (snd (rxPb raw_Unmarshal p))) = [x2a].
Proof.
  cbv zeta. repeat split.
Qed.

(** ** Writing a frame (C5) *)

(** C5, as amended.  For a payload of fewer than 2^32 bytes the frame
    writer issues three writes in this order: the marker, the four bytes
    of the little-endian length, which decode to the payload's byte
    count, and the payload.  When all three are complete it succeeds and
    the connection has received marker, length and payload, in that
    order.  When a write reports an error of its own, that error is
    returned; when a write reports no error but a count other than the
    one requested, the short-write error of that stage is returned.  In
    both cases no later write is issued and success is not reported. *)
Theorem txPb_frame_writing
        (A : Type) (marshal : A -> list byte + error) (pb : A)
        (data : list byte) (p : protocol) :
  marshal pb = inl data ->
  len data < 2 ^ 32 ->
  let field := PutUint32 (to_uint32 (len data)) in
  let s0 := peer p in
  let s1 := after_write MagicHeader s0 in
  let s2 := after_write field s1 in
  let s3 := after_write data s2 in
  let r1 := write_report MagicHeader s0 in
  let r2 := write_report field s1 in
  let r3 := write_report data s2 in
  Uint32 field = len data
  /\ (r1 = (4, None) -> r2 = (4, None) -> r3 = (len data, None) ->
      txPb marshal pb p = (Ok tt, set_peer s3 p)
      /\ tx_data s3 = tx_data s0 ++ MagicHeader ++ field ++ data)
  /\ (forall n e, r1 = (n, Some e) ->
      txPb marshal pb p = (Err e, set_peer s1 p))
  /\ (forall n, r1 = (n, None) -> n <> 4 ->
      txPb marshal pb p = (Err short_write_magic, set_peer s1 p))
  /\ (forall n e, r1 = (4, None) -> r2 = (n, Some e) ->
      txPb marshal pb p = (Err e, set_peer s2 p))
  /\ (forall n, r1 = (4, None) -> r2 = (n, None) -> n <> 4 ->
      txPb marshal pb p = (Err short_write_length, set_peer s2 p))
  /\ (forall n e, r1 = (4, None) -> r2 = (4, None) -> r3 = (n, Some e) ->
      txPb marshal pb p = (Err e, set_peer s3 p))
  /\ (forall n, r1 = (4, None) -> r2 = (4, None) -> r3 = (n, None) ->
      n <> len data ->
      txPb marshal pb p = (Err short_write_data, set_peer s3 p)).
Proof.
  intros Hm Hlen field s0 s1 s2 s3 r1 r2 r3.
  assert (Hfield : Uint32 field = len data).
  { unfold field, to_uint32.
    rewrite Z.mod_small by (unfold len in *; lia).
    apply Uint32_PutUint32. unfold len in *; lia. }
  assert (Hstage1 : forall B (k : unit -> M B),
             bind txMagicHeader k p =
             match r1 with
             | (_, Some e) => (Err e, set_peer s1 p)
             | (n, None) =>
                 if n =? 4 then k tt (set_peer s1 p)
                 else (Err short_write_magic, set_peer s1 p)
             end).
  { intros B k. unfold bind. rewrite txMagicHeader_report.
    fold s0 r1 s1. destruct r1 as [n [e|]]; [reflexivity|].
    destruct (n =? 4); reflexivity. }
  assert (Hstage2 : forall B (k : unit -> M B),
             bind (txLength (len data)) k (set_peer s1 p) =
             match r2 with
             | (_, Some e) => (Err e, set_peer s2 p)
             | (n, None) =>
                 if n =? 4 then k tt (set_peer s2 p)
                 else (Err short_write_length, set_peer s2 p)
             end).
  { intros B k. unfold bind. rewrite txLength_report.
    change (peer (set_peer s1 p)) with s1. fold field r2 s2.
    destruct r2 as [n [e|]]; [reflexivity|].
    destruct (n =? 4); reflexivity. }
  assert (Hstage3 :
             bind (peer_Write data)
                  (fun x => match x with
                            | (n, err) =>
                                match err with
                                | Some e => fail e
                                | None =>
                                    if negb (n =? len data)
                                    then fail (errors_New "short data write")
                                    else ret tt
                                end
                            end) (set_peer s2 p) =
             match r3 with
             | (_, Some e) => (Err e, set_peer s3 p)
             | (n, None) =>
                 if n =? len data then (Ok tt, set_peer s3 p)
                 else (Err short_write_data, set_peer s3 p)
             end).
  { erewrite bind_Ok by apply peer_Write_report.
    change (peer (set_peer s2 p)) with s2. fold r3 s3.
    destruct r3 as [n [e|]]; [reflexivity|].
    destruct (n =? len data); reflexivity. }
  assert (Hrun : txPb marshal pb p =
                 match r1 with
                 | (_, Some e) => (Err e, set_peer s1 p)
                 | (n, None) =>
                   if n =? 4 then
                     match r2 with
                     | (_, Some e) => (Err e, set_peer s2 p)
                     | (n, None) =>
                       if n =? 4 then
                         match r3 with
                         | (_, Some e) => (Err e, set_peer s3 p)
                         | (n, None) =>
                           if n =? len data then (Ok tt, set_peer s3 p)
                           else (Err short_write_data, set_peer s3 p)
                         end
                       else (Err short_write_length, set_peer s2 p)
                     end
                   else (Err short_write_magic, set_peer s1 p)
                 end).
  { unfold txPb. rewrite Hm, Hstage1.
    destruct r1 as [n1 [e1|]]; [reflexivity|].
    destruct (n1 =? 4); [|reflexivity].
    rewrite Hstage2.
    destruct r2 as [n2 [e2|]]; [reflexivity|].
    destruct (n2 =? 4); [|reflexivity].
    exact Hstage3. }
  split; [exact Hfield|].
  split; [intros H1 H2 H3; split|].
  - rewrite Hrun, H1, H2, H3. cbn [Z.eqb Pos.eqb]. rewrite Z.eqb_refl.
    reflexivity.
  - unfold s3.
    rewrite (after_write_complete data s2 H3). unfold s2.
    rewrite (after_write_complete field s1 H2). unfold s1.
    rewrite (after_write_complete MagicHeader s0 H1).
    rewrite <- !app_assoc. reflexivity.
  - split; [|split; [|split; [|split; [|split]]]].
    + intros n e H1. rewrite Hrun, H1. reflexivity.
    + intros n H1 Hn. rewrite Hrun, H1.
      destruct (Z.eqb_spec n 4); [contradiction|reflexivity].
    + intros n e H1 H2. rewrite Hrun, H1, H2. reflexivity.
    + intros n H1 H2 Hn. rewrite Hrun, H1, H2. cbn [Z.eqb Pos.eqb].
      destruct (Z.eqb_spec n 4); [contradiction|reflexivity].
    + intros n e H1 H2 H3. rewrite Hrun, H1, H2, H3. reflexivity.
    + intros n H1 H2 H3 Hn. rewrite Hrun, H1, H2, H3. cbn [Z.eqb Pos.eqb].
      destruct (Z.eqb_spec n (len data)); [contradiction|reflexivity].
Qed.

(** The amended statement at the one-byte payload 2a, on a connection
    that accepts every write in full. *)
Lemma txPb_frame_writing_witness :
  txPb raw_Marshal [x2a] (newProtocol (quiet_stream [] io_EOF))
  = (Ok tt,
     newProtocol
       (mkStream [] io_EOF
                 [xca; xfe; xf0; x0d; x01; x00; x00; x00; x2a]
                 [] false None)).
Proof.
  exact (proj1 (proj1 (proj2 (txPb_frame_writing
                  (list byte) raw_Marshal [x2a] [x2a]
                  (newProtocol (quiet_stream [] io_EOF))
                  eq_refl eq_refl))
                  eq_refl eq_refl eq_refl)).
Defined.

(** The claim as stated fails when the connection takes two of the four
    marker bytes and reports an error of its own: the write is partial,
    and what the frame writer returns is that error, which is none of the
    short-write errors. *)
Lemma txPb_short_write_counterexample :
  let p :=
    newProtocol
      (mkStream [] io_EOF []
                [(2, Some (ErrForeign "broken pipe"))] false None) in
  write_report MagicHeader (peer p) = (2, Some (ErrForeign "broken pipe"))
  /\ tx_data (peer (snd (txPb raw_Marshal [x2a] p))) = [xca; xfe]
  /\ fst (txPb raw_Marshal [x2a] p) = Err (ErrForeign "broken pipe")
  /\ ~ is_short_write (ErrForeign "broken pipe").
Proof.
  cbv zeta. repeat split.
  unfold is_short_write, short_write_magic, short_write_length,
    short_write_data.
  intros [H|[H|H]]; discriminate.
Qed.

(** ** Reading a frame (C6) *)




(** ** The verifier *)

Lemma errors_send_room (err : error) p :
  len (errors p) < errors_cap ->
  errors_send err p = (Ok tt, set_errors (errors p ++ [err]) p).
Proof.
  intros H. unfold errors_send.
  destruct (Z.ltb_spec (len (errors p)) errors_cap); [reflexivity|lia].
Qed.

Lemma errors_send_full (err : error) p :
  errors_cap <= len (errors p) -> errors_send err p = (Parked, p).
Proof.
  intros H. unfold errors_send.
  destruct (Z.ltb_spec (len (errors p)) errors_cap); [lia|reflexivity].
Qed.

Section Verifier.

Variable sha512_Sum512 : list byte -> list byte.
Variable log : level -> logmsg -> effect.

(** The tail shared by the two fatal branches. *)
Lemma verifier_fatal_tail (err : error) p :
  len (errors p) < errors_cap ->
  (errors_send err ;;
   closeErr <- peer_Close ;;
   match closeErr with
   | Some ce => emit (log Error (MsgErr ce))
   | None => ret tt
   end ;;
   emit (log Error (MsgErr err)) ;;
   ret Return) p
  = (Ok Return, verifier_failed log err p).
Proof.
  intros H. erewrite bind_Ok by (apply errors_send_room; exact H).
  destruct p as [t sq [rx re tx ts cl ce] txc rxc lr lat errs eff].
  unfold verifier_failed, bind, peer_Close, stream_Close, emit, modify, ret.
  destruct ce; cbn; rewrite <- ?app_assoc; reflexivity.
Qed.

Lemma verifier_iter_accept (b : Block) p :
  Sequence b = rxSequence p ->
  sha512_Sum512 (Data b) = Hash b ->
  verifier_iter sha512_Sum512 log (arrives b) p
  = (Ok Continue, set_rxSequence (to_uint32 (rxSequence p + 1)) p).
Proof.
  intros Hs Hh. unfold verifier_iter, arrives.
  erewrite bind_Ok by reflexivity. rewrite Hs, Z.eqb_refl, Hh.
  rewrite (proj2 (hex_eqb_iff (Hash b) (Hash b)) eq_refl). reflexivity.
Qed.

Lemma verifier_iter_bad_hash (b : Block) p :
  Sequence b = rxSequence p ->
  sha512_Sum512 (Data b) <> Hash b ->
  len (errors p) < errors_cap ->
  verifier_iter sha512_Sum512 log (arrives b) p
  = (Ok Return, verifier_failed log (errors_New "mismatched hashes") p).
Proof.
  intros Hs Hh Hroom. unfold verifier_iter, arrives.
  erewrite bind_Ok by reflexivity. rewrite Hs, Z.eqb_refl.
  destruct (String.eqb (hex_EncodeToString (sha512_Sum512 (Data b)))
                       (hex_EncodeToString (Hash b))) eqn:E.
  - apply hex_eqb_iff in E. contradiction.
  - cbn [negb]. apply verifier_fatal_tail. exact Hroom.
Qed.

Lemma verifier_iter_bad_sequence (b : Block) p :
  Sequence b <> rxSequence p ->
  len (errors p) < errors_cap ->
  verifier_iter sha512_Sum512 log (arrives b) p
  = (Ok Return,
     verifier_failed log (ErrExpectedSequence (rxSequence p) (Sequence b)) p).
Proof.
  intros Hs Hroom. unfold verifier_iter, arrives.
  erewrite bind_Ok by reflexivity.
  destruct (Z.eqb_spec (Sequence b) (rxSequence p)); [contradiction|].
  apply verifier_fatal_tail. exact Hroom.
Qed.

(** A fatal branch on a full error queue parks the verifier. *)
Lemma verifier_iter_parked (b : Block) p :
  errors_cap <= len (errors p) ->
  Sequence b <> rxSequence p \/ sha512_Sum512 (Data b) <> Hash b ->
  verifier_iter sha512_Sum512 log (arrives b) p = (Parked, p).
Proof.
  intros Hfull Hbad. unfold verifier_iter, arrives.
  erewrite bind_Ok by reflexivity.
  destruct (Z.eqb_spec (Sequence b) (rxSequence p)) as [Hs|Hs].
  - destruct Hbad as [Hbad|Hbad]; [contradiction|].
    destruct (String.eqb (hex_EncodeToString (sha512_Sum512 (Data b)))
                         (hex_EncodeToString (Hash b))) eqn:E.
    + apply hex_eqb_iff in E. contradiction.
    + cbn [negb]. unfold bind. rewrite errors_send_full by exact Hfull.
      reflexivity.
  - unfold bind. rewrite errors_send_full by exact Hfull. reflexivity.
Qed.

(** The timer branch: one log record, nothing else. *)
Lemma verifier_iter_timer (now_ms : Z) (t : Test) p :
  test p = Some t ->
  verifier_iter sha512_Sum512 log (TimerFires now_ms) p
  = (Ok Return,
     set_effects
       (effects p
        ++ [log Error (MsgRxTimeout (RxTimeout t) (now_ms - lastRx p)
                                    (txCount p) (rxCount p))]) p).
Proof.
  intros Ht. unfold verifier_iter, bind, get_test, gets, emit,
               modify, ret.
  rewrite Ht. reflexivity.
Qed.

Lemma verifier_loop_cons_Continue ev evs p p' :
  verifier_iter sha512_Sum512 log ev p = (Ok Continue, p') -> verifier_loop sha512_Sum512 log (ev :: evs) p = verifier_loop sha512_Sum512 log evs p'.
Proof.
  intros H. cbn [verifier_loop].
  erewrite bind_Ok by exact H. reflexivity.
Qed.

Lemma verifier_loop_cons_Return ev evs p p' :
  verifier_iter sha512_Sum512 log ev p = (Ok Return, p') -> verifier_loop sha512_Sum512 log (ev :: evs) p = (Ok Returned, p').
Proof.
  intros H. cbn [verifier_loop].
  erewrite bind_Ok by exact H. reflexivity.
Qed.

Lemma verifier_loop_cons_Parked ev evs p p' :
  verifier_iter sha512_Sum512 log ev p = (Parked, p') -> verifier_loop sha512_Sum512 log (ev :: evs) p = (Parked, p').
Proof.
  intros H. cbn [verifier_loop]. unfold bind.
  rewrite H. reflexivity.
Qed.

(** Blocks that pass without an error being queued carry consecutive
    sequence numbers from the counter on, and the counter has advanced by
    their number. *)
Lemma verifier_loop_clean (bs : list Block) :
  forall p r p',
    errors p = [] ->
    0 <= rxSequence p ->
    rxSequence p + len bs < 2 ^ 32 ->
    verifier_loop sha512_Sum512 log (map arrives bs) p = (r, p') ->
    errors p' = [] ->
    r = Ok Waiting
    /\ map Sequence bs = consecutive (rxSequence p) (List.length bs)
    /\ rxSequence p' = rxSequence p + len bs.
Proof.
  induction bs as [|b bs IH]; intros p r p' He H0 Hlt Hrun He'.
  - injection Hrun as <- <-. unfold len. cbn. split; [reflexivity|].
    split; [reflexivity|lia].
  - assert (Hroom : len (errors p) < errors_cap)
      by (rewrite He; reflexivity).
    unfold len in Hlt. cbn [List.length] in Hlt.
    cbn [map] in Hrun.
    destruct (Z.eq_dec (Sequence b) (rxSequence p)) as [Hs|Hs].
    + destruct (list_eq_dec Byte.byte_eq_dec
                  (sha512_Sum512 (Data b)) (Hash b)) as [Hh|Hh].
      * rewrite (verifier_loop_cons_Continue _ _ _ _
                   (verifier_iter_accept b p Hs Hh)) in Hrun.
        assert (Hnext : to_uint32 (rxSequence p + 1) = rxSequence p + 1)
          by (unfold to_uint32; apply Z.mod_small; lia).
        destruct (IH (set_rxSequence (to_uint32 (rxSequence p + 1)) p)
                     r p' He
                     ltac:(cbn [rxSequence set_rxSequence]; lia)
                     ltac:(cbn [rxSequence set_rxSequence]; unfold len; lia)
                     Hrun He')
          as (Hr & Hseq & Hcnt).
        cbn [rxSequence set_rxSequence] in Hseq, Hcnt.
        rewrite Hnext in Hseq, Hcnt.
        split; [exact Hr|]. split.
        -- unfold consecutive in *. cbn [List.length seq map].
           rewrite Hs, Z.add_0_r. f_equal.
           rewrite Hseq, <- seq_shift, map_map.
           apply map_ext. intros i. lia.
        -- unfold len in *. cbn [List.length]. lia.
      * rewrite (verifier_loop_cons_Return _ _ _ _
                   (verifier_iter_bad_hash b p Hs Hh Hroom)) in Hrun.
        injection Hrun as <- <-. exfalso.
        unfold verifier_failed in He'. cbn in He'.
        destruct (errors p); discriminate.
    + rewrite (verifier_loop_cons_Return _ _ _ _
                 (verifier_iter_bad_sequence b p Hs Hroom)) in Hrun.
      injection Hrun as <- <-. exfalso.
      unfold verifier_failed in He'. cbn in He'.
      destruct (errors p); discriminate.
Qed.

Lemma verifier_loop_app (evs1 evs2 : list verifier_event) :
  forall p,
    verifier_loop sha512_Sum512 log (evs1 ++ evs2) p =
    match verifier_loop sha512_Sum512 log evs1 p with
    | (Ok Waiting, p1) => verifier_loop sha512_Sum512 log evs2 p1
    | other => other
    end.
Proof.
  induction evs1 as [|ev evs1 IH]; intros p; [reflexivity|].
  cbn [app verifier_loop]. unfold bind.
  destruct (verifier_iter sha512_Sum512 log ev p) as [[[|]| | |] p1];
    try reflexivity.
  apply IH.
Qed.

(** The goroutine: the loop between the two debug records. *)
Lemma verifier_unfold (evs : list verifier_event) (t : Test) p :
  test p = Some t ->
  verifier sha512_Sum512 evs p =
  match verifier_loop sha512_Sum512 (Log (Name t)) evs
          (set_effects (effects p ++ [Log (Name t) Debug (Msg "started")]) p)
  with
  | (Ok Returned, p1) =>
      (Ok Returned,
       set_effects (effects p1 ++ [Log (Name t) Debug (Msg "complete")]) p1)
  | other => other
  end.
Proof.
  intros Ht. unfold verifier, verifier_turn, bind, get_test. rewrite Ht.
  unfold emit, modify.
  destruct (verifier_loop _ _ evs _) as [[[|]| | |] p1]; reflexivity.
Qed.

End Verifier.

(** ** Sequence continuity (C2) *)

(** C2.  In a run with receive total R > 0 the verifier starts with its
    counter at 0.  When it has taken N Blocks (N at most R, a 32-bit
    signed total) and no error is queued, it is still waiting for the
    next Block, the Blocks carried the sequence numbers 0, 1, ..., N-1 in
    that order, and the counter is N; the same holds when the queue is
    closed after the N Blocks and the verifier has returned.  A Block
    whose sequence number differs from the counter queues the sequence
    error (the error queue having room), closes the connection and stops
    the verifier, whatever follows. *)
Theorem verifier_accepts_consecutive_sequence
        (sha512_Sum512 : list byte -> list byte) :
  (forall (t : Test) (conn : stream) (bs : list Block)
          (r : result progress) (p' : protocol),
      0 < RxRequests t -> RxRequests t <= MaxInt32 ->
      len bs <= RxRequests t ->
      verifier sha512_Sum512 (map arrives bs)
               (set_test (Some t) (newProtocol conn)) = (r, p') ->
      errors p' = [] ->
      r = Ok Waiting
      /\ map Sequence bs = consecutive 0 (List.length bs)
      /\ rxSequence p' = len bs)
  /\ (forall (t : Test) (conn : stream) (bs : list Block)
             (r : result progress) (p' : protocol),
      0 < RxRequests t -> RxRequests t <= MaxInt32 ->
      len bs <= RxRequests t ->
      verifier sha512_Sum512 (map arrives bs ++ [BlockArrives None])
               (set_test (Some t) (newProtocol conn)) = (r, p') ->
      errors p' = [] ->
      r = Ok Returned
      /\ map Sequence bs = consecutive 0 (List.length bs)
      /\ rxSequence p' = len bs)
  /\ (forall (log : level -> logmsg -> effect) (b : Block)
             (later : list verifier_event) (p : protocol),
      len (errors p) < errors_cap ->
      Sequence b <> rxSequence p ->
      verifier_loop sha512_Sum512 log (arrives b :: later) p
      = (Ok Returned,
         verifier_failed log
           (ErrExpectedSequence (rxSequence p) (Sequence b)) p)
      /\ errors (verifier_failed log
                   (ErrExpectedSequence (rxSequence p) (Sequence b)) p)
         = errors p ++ [ErrExpectedSequence (rxSequence p) (Sequence b)]
      /\ closed (peer (verifier_failed log
                   (ErrExpectedSequence (rxSequence p) (Sequence b)) p))
         = true).
Proof.
  split; [|split].
  - intros t conn bs r p' Hpos Hmax Hlen Hrun He.
    rewrite (verifier_unfold sha512_Sum512 _ t) in Hrun by reflexivity.
    destruct (verifier_loop _ _ _ _) as [r1 p1] eqn:Hloop.
    assert (He1 : errors p1 = []).
    { destruct r1 as [[|]| | |]; injection Hrun as <- <-; exact He. }
    match type of Hloop with
    | verifier_loop _ _ _ ?q = _ =>
        destruct (verifier_loop_clean sha512_Sum512 _ bs q r1 p1
                    eq_refl ltac:(cbn; lia)
                    ltac:(cbn; unfold MaxInt32 in Hmax; lia) Hloop He1)
          as (-> & Hseq & Hcnt)
    end.
    injection Hrun as <- <-. auto.
  - intros t conn bs r p' Hpos Hmax Hlen Hrun He.
    rewrite (verifier_unfold sha512_Sum512 _ t) in Hrun by reflexivity.
    rewrite verifier_loop_app in Hrun.
    destruct (verifier_loop _ _ (map arrives bs) _) as [r1 p1] eqn:Hloop.
    assert (He1 : errors p1 = []).
    { destruct r1 as [[|]| | |]; cbn in Hrun; injection Hrun as <- <-;
        exact He. }
    match type of Hloop with
    | verifier_loop _ _ _ ?q = _ =>
        destruct (verifier_loop_clean sha512_Sum512 _ bs q r1 p1
                    eq_refl ltac:(cbn; lia)
                    ltac:(cbn; unfold MaxInt32 in Hmax; lia) Hloop He1)
          as (-> & Hseq & Hcnt)
    end.
    cbn in Hrun. injection Hrun as <- <-. auto.
  - intros log b later p Hroom Hs. split; [|split].
    + apply verifier_loop_cons_Return.
      apply verifier_iter_bad_sequence; assumption.
    + reflexivity.
    + reflexivity.
Qed.

(** The statement at three Blocks numbered 0, 1, 2, and at a Block
    numbered 7 that arrives while the counter stands at 0. *)
Lemma verifier_accepts_consecutive_sequence_witness :
  let b (n : Z) := mkBlock n BlockTypePlain [x2a] (sample_digest [x2a]) 0 in
  map Sequence [b 0; b 1; b 2] = [0; 1; 2]
  /\ fst (verifier_loop sample_digest sample_log [arrives (b 7); arrives (b 1)]
            (newProtocol (quiet_stream [] io_EOF)))
     = Ok Returned.
Proof.
  intros b. split.
  - refine (proj1 (proj2 (proj1 (verifier_accepts_consecutive_sequence
                     sample_digest)
                     (sample_test 0 3 0 0 50) (quiet_stream [] io_EOF)
                     [b 0; b 1; b 2] _ _ _ _ _ eq_refl eq_refl))).
    + reflexivity.
    + discriminate.
    + reflexivity.
  - refine (f_equal fst
              (proj1 (proj2 (proj2 (verifier_accepts_consecutive_sequence
                         sample_digest))
                         sample_log (b 7) [arrives (b 1)]
                         (newProtocol (quiet_stream [] io_EOF)) _ _))).
    + reflexivity.
    + discriminate.
Defined.

(** ** Content integrity (C3) *)

(** C3.  For a Block taken by the verifier, with room in the error queue
    (it holds 10240 errors, and each of the three loops queues at most
    one before it returns), the digest of its payload is compared with
    the hash it carries.  When they differ an error is queued (the hash
    error when the sequence number is the expected one; the sequence
    check, which comes first, has queued its own error otherwise), the
    connection is closed and the verifier returns: no later Block is
    looked at.  When they agree and the sequence number is the expected
    one the Block passes. *)
Theorem verifier_hash_mismatch_is_fatal
        (sha512_Sum512 : list byte -> list byte)
        (log : level -> logmsg -> effect) (b : Block) (p : protocol) :
  len (errors p) < errors_cap ->
  (sha512_Sum512 (Data b) <> Hash b ->
   exists err,
     (Sequence b = rxSequence p -> err = errors_New "mismatched hashes")
     /\ errors (verifier_failed log err p) = errors p ++ [err]
     /\ closed (peer (verifier_failed log err p)) = true
     /\ rxSequence (verifier_failed log err p) = rxSequence p
     /\ forall later,
         verifier_loop sha512_Sum512 log (arrives b :: later) p
         = (Ok Returned, verifier_failed log err p))
  /\ (sha512_Sum512 (Data b) = Hash b ->
      Sequence b = rxSequence p ->
      verifier_iter sha512_Sum512 log (arrives b) p
      = (Ok Continue, set_rxSequence (to_uint32 (rxSequence p + 1)) p)).
Proof.
  intros Hroom. split.
  - intros Hh.
    destruct (Z.eq_dec (Sequence b) (rxSequence p)) as [Hs|Hs].
    + exists (errors_New "mismatched hashes").
      repeat split. intros later.
      apply verifier_loop_cons_Return.
      apply verifier_iter_bad_hash; assumption.
    + exists (ErrExpectedSequence (rxSequence p) (Sequence b)).
      split; [intros; contradiction|]. repeat split. intros later.
      apply verifier_loop_cons_Return.
      apply verifier_iter_bad_sequence; assumption.
  - intros Hh Hs. apply verifier_iter_accept; assumption.
Qed.

(** The statement at a Block whose payload was changed after hashing. *)
Lemma verifier_hash_mismatch_is_fatal_witness :
  let b := mkBlock 0 BlockTypePlain [x2a; x2b] (sample_digest [x2a]) 0 in
  let p := newProtocol (quiet_stream [] io_EOF) in
  exists err,
    errors (verifier_failed sample_log err p) = [err]
    /\ forall later,
        verifier_loop sample_digest sample_log (arrives b :: later) p
        = (Ok Returned, verifier_failed sample_log err p).
Proof.
  intros b p.
  destruct (proj1 (verifier_hash_mismatch_is_fatal
                     sample_digest sample_log b p eq_refl))
    as (err & _ & He & _ & _ & Hl).
  - discriminate.
  - exists err. split; [exact He|exact Hl].
Defined.

(** ** Pacing (C7) *)

Lemma rand_Intn_range (raw n : Z) : 0 < n -> 0 <= rand_Intn raw n < n.
Proof. intros H. unfold rand_Intn. apply Z.mod_pos_bound. exact H. Qed.



(** ** The latency echo (C8) and the full queue (C9) *)

Lemma txer_latency_plain (block : Block) p :
  Type_ block = BlockTypePlain ->
  txer_latency block p =
  match latencies p with
  | ts :: q => (Ok (with_latency ts block), set_latencies q p)
  | [] => (Ok block, p)
  end.
Proof.
  intros H. unfold txer_latency, bind, latencies_poll. rewrite H.
  cbn [BlockType_eqb]. destruct (latencies p); reflexivity.
Qed.

Section Rxer.

Variable Block_Rx : Block -> M Block.
Variable log : level -> logmsg -> effect.

(** A Block was read: the counters move and the Block goes on to the
    verifier; a latency request leaves its timestamp in the queue, or a
    warning in the log when the queue is full. *)
Lemma rxer_iter_received (now_ms : Z) (block : Block) p p1 :
  Block_Rx zero_Block p = (Ok block, p1) ->
  rxer_iter Block_Rx log now_ms p =
  (Ok (Continue, Some block),
   set_lastRx now_ms
     (set_rxCount (to_int32 (rxCount p1 + 1))
        (match Type_ block with
         | BlockTypeLatencyRequest =>
             if len (latencies p1) <? latencies_cap
             then set_latencies (latencies p1 ++ [Timestamp block]) p1
             else set_effects
                    (effects p1
                     ++ [log Warn (Msg "latency channel out of room")]) p1
         | _ => p1
         end))).
Proof.
  intros H. unfold rxer_iter, rxBlock, try, bind at 1. rewrite H.
  unfold bind, latencies_offer, emit, modify, ret.
  destruct (Type_ block); cbn [BlockType_eqb]; try reflexivity.
  destruct (len (latencies p1) <? latencies_cap); reflexivity.
Qed.

End Rxer.

(** C8.  For a Plain Block pulled by the transmit loop the pending
    latency queue is polled without blocking.  When a timestamp is
    pending it is taken from the queue and the Block that goes through
    pacing and is sent is the same Block with type LatencyResponse and
    that timestamp; when none is pending the Block is sent as it is.  To
    send a Block is to apply [Block.Tx] to it: the protocol is then as
    [Block.Tx] left it, with the transmit counter one up when it
    returned nil, and with its error logged and queued and the loop told
    to return when it returned one.  The timestamp the receive loop
    queued for a LatencyRequest is the request's own, so the response
    that echoes it carries the request's timestamp. *)
Theorem txer_latency_echo
        (Block_Tx : Block -> M unit) (Block_Rx : Block -> M Block)
        (log : level -> logmsg -> effect) :
  (forall (i : tx_input) (block : Block) (lastSend : Z) (p : protocol),
      tx_block i = Some block ->
      Type_ block = BlockTypePlain ->
      txer_iter Block_Tx log i lastSend p =
      match latencies p with
      | ts :: q =>
          (lastSend' <- txer_pacing lastSend (tx_now i) (tx_raw i) ;;
           txer_send Block_Tx log
             (mkBlock (Sequence block) BlockTypeLatencyResponse
                      (Data block) (Hash block) ts)
             lastSend')
            (set_latencies q p)
      | [] =>
          (lastSend' <- txer_pacing lastSend (tx_now i) (tx_raw i) ;;
           txer_send Block_Tx log block lastSend') p
      end)
  /\ (forall (block : Block) (lastSend : Z) (p : protocol),
      txer_send Block_Tx log block lastSend p =
      match Block_Tx block p with
      | (Ok _, p2) =>
          (Ok (Continue, lastSend),
           set_txCount (to_int32 (txCount p2 + 1)) p2)
      | (Err err, p2) =>
          (errors_send err ;; ret (Return, lastSend))
            (set_effects (effects p2 ++ [log Error (MsgSendErr err)]) p2)
      | (Panicked v, p2) => (Panicked v, p2)
      | (Parked, p2) => (Parked, p2)
      end)
  /\ (forall (now_ms : Z) (request : Block) (p p1 : protocol),
      Block_Rx zero_Block p = (Ok request, p1) ->
      Type_ request = BlockTypeLatencyRequest ->
      len (latencies p1) < latencies_cap ->
      latencies (snd (rxer_iter Block_Rx log now_ms p))
      = latencies p1 ++ [Timestamp request])
  /\ (forall (now_ms : Z) (request plain : Block) (p p1 : protocol),
      Block_Rx zero_Block p = (Ok request, p1) ->
      Type_ request = BlockTypeLatencyRequest ->
      latencies p1 = [] ->
      Type_ plain = BlockTypePlain ->
      exists sent p3,
        txer_latency plain (snd (rxer_iter Block_Rx log now_ms p))
        = (Ok sent, p3)
        /\ Type_ sent = BlockTypeLatencyResponse
        /\ Timestamp sent = Timestamp request
        /\ Sequence sent = Sequence plain
        /\ Data sent = Data plain
        /\ Hash sent = Hash plain
        /\ latencies p3 = []).
Proof.
  split; [|split; [|split]].
  - intros i block lastSend p Hi Hplain. unfold txer_iter. rewrite Hi.
    unfold bind at 1. rewrite (txer_latency_plain block p Hplain).
    destruct (latencies p); reflexivity.
  - intros block lastSend p. unfold txer_send, try, bind at 1.
    destruct (Block_Tx block p) as [[[]|err|v|] p2]; reflexivity.
  - intros now_ms request p p1 Hrx Hreq Hroom.
    rewrite (rxer_iter_received Block_Rx log now_ms request p p1 Hrx).
    rewrite Hreq.
    destruct (Z.ltb_spec (len (latencies p1)) latencies_cap); [|lia].
    reflexivity.
  - intros now_ms request plain p p1 Hrx Hreq Hempty Hplain.
    rewrite (rxer_iter_received Block_Rx log now_ms request p p1 Hrx).
    rewrite Hreq, Hempty. cbn [snd len List.length Z.of_nat Z.ltb].
    change (0 ?= latencies_cap) with Lt. cbv iota.
    rewrite (txer_latency_plain plain _ Hplain). cbn.
    eexists _, _. split; [reflexivity|]. cbn. repeat split.
Qed.

(** The statement at a connection holding one framed LatencyRequest
    (sequence 4, hence timestamp 1004 in the sample schema), followed by
    the transmit loop pulling the Plain Block 9: what goes out on the
    connection is the frame of Block 9 as a LatencyResponse (type code
    2 in the sample schema), and it is counted. *)
Lemma txer_latency_echo_witness :
  let p :=
    set_test (Some (sample_test 1 1 0 0 50))
      (newProtocol
         (quiet_stream [xca; xfe; xf0; x0d; x02; x00; x00; x00; x04; x01]
                       io_EOF)) in
  let plain := mkBlock 9 BlockTypePlain [] (sample_digest []) 0 in
  let p1 := snd (rxer_iter sample_Block_Rx sample_log 20 p) in
  let p2 := snd (txer_iter sample_Block_Tx sample_log
                           (mkTxInput (Some plain) 0 0) 0 p1) in
  (exists sent p3,
      txer_latency plain p1 = (Ok sent, p3)
      /\ Type_ sent = BlockTypeLatencyResponse
      /\ Timestamp sent = 1004)
  /\ tx_data (peer p2)
     = [xca; xfe; xf0; x0d; x02; x00; x00; x00; x09; x02]
  /\ txCount p2 = 1.
Proof.
  intros p plain p1 p2.
  pose proof (txer_latency_echo sample_Block_Tx sample_Block_Rx sample_log)
    as (Hiter & Hsend & _ & Hecho).
  split; [|split].
  - destruct (Hecho 20 (mkBlock 4 BlockTypeLatencyRequest []
                                (sample_digest []) 1004)
                    plain p (set_rx_data [] p)
                    eq_refl eq_refl eq_refl eq_refl)
      as (sent & p3 & Hrun & Hty & Hts & _).
    exists sent, p3. split; [exact Hrun|]. split; [exact Hty|exact Hts].
  - unfold p2.
    rewrite (Hiter (mkTxInput (Some plain) 0 0) plain 0 p1
                   eq_refl eq_refl).
    reflexivity.
  - unfold p2.
    rewrite (Hiter (mkTxInput (Some plain) 0 0) plain 0 p1
                   eq_refl eq_refl).
    reflexivity.
Defined.

(** C9.  When the receive loop has read a LatencyRequest and the pending
    latency queue, of capacity 1024, is full, the timestamp is not
    queued, the warning is logged, and the iteration goes on as for any
    Block: the receive counter and the last-receive time are updated and
    the Block is handed to the verifier.  No error is queued and the loop
    does not return. *)
Theorem rxer_latency_queue_full
        (Block_Rx : Block -> M Block) (log : level -> logmsg -> effect)
        (now_ms : Z) (request : Block) (p p1 : protocol) :
  Block_Rx zero_Block p = (Ok request, p1) ->
  Type_ request = BlockTypeLatencyRequest ->
  len (latencies p1) = latencies_cap ->
  latencies_cap = 1024
  /\ rxer_iter Block_Rx log now_ms p
     = (Ok (Continue, Some request),
        set_lastRx now_ms
          (set_rxCount (to_int32 (rxCount p1 + 1))
             (set_effects
                (effects p1 ++ [log Warn (Msg "latency channel out of room")])
                p1)))
  /\ errors (snd (rxer_iter Block_Rx log now_ms p)) = errors p1
  /\ latencies (snd (rxer_iter Block_Rx log now_ms p)) = latencies p1.
Proof.
  intros Hrx Hreq Hfull.
  rewrite (rxer_iter_received Block_Rx log now_ms request p p1 Hrx).
  rewrite Hreq.
  destruct (Z.ltb_spec (len (latencies p1)) latencies_cap); [lia|].
  repeat split.
Qed.

(** The statement at a connection holding one framed LatencyRequest,
    with 1024 timestamps pending. *)
Lemma rxer_latency_queue_full_witness :
  let p :=
    set_latencies (repeat 0 1024)
      (set_test (Some (sample_test 1 1 0 0 50))
         (newProtocol
            (quiet_stream [xca; xfe; xf0; x0d; x02; x00; x00; x00; x04; x01]
                          io_EOF))) in
  fst (rxer_iter sample_Block_Rx sample_log 20 p)
  = Ok (Continue,
        Some (mkBlock 4 BlockTypeLatencyRequest [] (sample_digest []) 1004))
  /\ errors (snd (rxer_iter sample_Block_Rx sample_log 20 p)) = []
  /\ latencies (snd (rxer_iter sample_Block_Rx sample_log 20 p))
     = repeat 0 1024.
Proof.
  intros p.
  pose proof (rxer_latency_queue_full sample_Block_Rx sample_log 20
                (mkBlock 4 BlockTypeLatencyRequest [] (sample_digest []) 1004)
                p (set_rx_data [] p) eq_refl eq_refl eq_refl)
    as (_ & Hrun & Herr & Hlat).
  split; [rewrite Hrun; reflexivity|]. split; [exact Herr|exact Hlat].
Defined.

(** ** The receive-idle timeout (C1) *)

Section AfterTheVerifier.

Variable sha512_Sum512 : list byte -> list byte.
Variable Block_Tx : Block -> M unit.
Variable Block_Rx : Block -> M Block.

Lemma steps_app (ds1 ds2 : list sched) :
  forall s,
    steps sha512_Sum512 Block_Tx Block_Rx (ds1 ++ ds2) s =
    match steps sha512_Sum512 Block_Tx Block_Rx ds1 s with
    | Some s1 => steps sha512_Sum512 Block_Tx Block_Rx ds2 s1
    | None => None
    end.
Proof.
  induction ds1 as [|d ds1 IH]; intros s; [reflexivity|].
  cbn [app steps].
  destruct (step sha512_Sum512 Block_Tx Block_Rx d s); [apply IH|reflexivity].
Qed.

(** Once the verifier has returned, a receive loop that is sending a
    Block on the unbuffered queue stays there. *)
Lemma step_rxer_blocked (d : sched) (block : Block) (s s' : session) :
  g_verifier s = Finished ->
  rx_sending s = Some block ->
  g_rxer s = Active ->
  step sha512_Sum512 Block_Tx Block_Rx d s = Some s' ->
  g_verifier s' = Finished /\ rx_sending s' = Some block
  /\ g_rxer s' = Active.
Proof.
  intros Hv Hs Hr Hstep. unfold step in Hstep.
  destruct (crashed s); [discriminate|].
  destruct d as [i|now_ms| | |now_ms].
  - destruct (runnable (g_txer s)); [|discriminate].
    destruct (txer_turn Block_Tx (is_fresh (g_txer s)) [i] (lastSend_ s)
                        (proto s)) as [[[r ls]|e|v|] p'];
      try discriminate; injection Hstep as <-; cbn; auto.
  - rewrite Hs in Hstep. destruct (runnable (g_rxer s)); discriminate.
  - rewrite Hv in Hstep. discriminate.
  - rewrite Hv in Hstep. discriminate.
  - rewrite Hv in Hstep. discriminate.
Qed.

Lemma steps_rxer_blocked (ds : list sched) (block : Block) :
  forall s s',
    g_verifier s = Finished ->
    rx_sending s = Some block ->
    g_rxer s = Active ->
    steps sha512_Sum512 Block_Tx Block_Rx ds s = Some s' ->
    run_end s' = None.
Proof.
  induction ds as [|d ds IH]; intros s s' Hv Hs Hr Hsteps.
  - injection Hsteps as <-. unfold run_end. rewrite Hr.
    destruct (crashed s); reflexivity.
  - cbn [steps] in Hsteps.
    destruct (step sha512_Sum512 Block_Tx Block_Rx d s) as [s1|] eqn:Hstep;
      [|discriminate].
    destruct (step_rxer_blocked d block s s1 Hv Hs Hr Hstep)
      as (Hv1 & Hs1 & Hr1).
    exact (IH s1 s' Hv1 Hs1 Hr1 Hsteps).
Qed.

End AfterTheVerifier.

(** C1, on the code.  Three runs in which the verifier's timer fires.
    In the first (receive total 1, timeout 50 ms) the one expected Block
    arrives and passes, the timer fires before the receive loop has
    closed the queue, and [run] returns nil.  In the second (receive
    total 10) nothing arrives, the timer fires, the stream then ends and
    [run] returns the receive loop's [io.EOF].  In the third (receive
    total 1) the timer fires and the Block arrives after it: the receive
    loop waits on the queue that nobody reads any more, and [run] does
    not return, however the run goes on.  In the first two the timeout
    is in the log, the error queue holds nothing when [run] has returned,
    and what [run] returns is not a timeout error. *)
Theorem run_timeout_is_only_logged :
  let frame := [xca; xfe; xf0; x0d; x03; x00; x00; x00; x00; x00; x2a] in
  let idle := mkTxInput None 0 0 in
  (exists p,
      run sample_digest sample_Block_Tx sample_Block_Rx
          (sample_test 0 1 0 0 50)
          [RunRxer 10; Handoff; VerifierTimer 70; RunRxer 71; RunTxer idle]
          (newProtocol (quiet_stream frame io_EOF))
      = Some (None, p)
      /\ In (Log "loop" Error (MsgRxTimeout 50 60 0 1)) (effects p)
      /\ errors p = [])
  /\ (exists p,
      run sample_digest sample_Block_Tx sample_Block_Rx
          (sample_test 0 10 0 0 50)
          [VerifierTimer 50; RunTxer idle; RunRxer 60]
          (newProtocol (quiet_stream [] io_EOF))
      = Some (Some io_EOF, p)
      /\ In (Log "loop" Error (MsgRxTimeout 50 50 0 0)) (effects p)
      /\ errors p = [])
  /\ (exists s block,
      steps sample_digest sample_Block_Tx sample_Block_Rx
            [VerifierTimer 50; RunRxer 60]
            (run_begin (sample_test 0 1 0 0 50)
                       (newProtocol (quiet_stream frame io_EOF)))
      = Some s
      /\ g_verifier s = Finished /\ rx_sending s = Some block)
  /\ (forall ds,
      run sample_digest sample_Block_Tx sample_Block_Rx
          (sample_test 0 1 0 0 50)
          ([VerifierTimer 50; RunRxer 60] ++ ds)
          (newProtocol (quiet_stream frame io_EOF))
      = None).
Proof.
  cbv zeta. split; [|split; [|split]].
  - eexists. split; [vm_compute; reflexivity|].
    split; [cbn; tauto|reflexivity].
  - eexists. split; [vm_compute; reflexivity|].
    split; [cbn; tauto|reflexivity].
  - eexists _, _. split; [vm_compute; reflexivity|].
    split; reflexivity.
  - intros ds. unfold run. rewrite steps_app.
    destruct (steps sample_digest sample_Block_Tx sample_Block_Rx
                    [VerifierTimer 50; RunRxer 60] _) as [s1|] eqn:H1;
      [|reflexivity].
    vm_compute in H1. injection H1 as <-.
    destruct (steps sample_digest sample_Block_Tx sample_Block_Rx ds _)
      as [s2|] eqn:H2; [|reflexivity].
    eapply steps_rxer_blocked; [| | |exact H2]; reflexivity.
Qed.

(** ** The edge-router configuration command (C10) *)

Section RouterEdgeRun.

Import RouterEdge.

Variable ConfigTemplateValues : Type.
Variable Template : Type.
Variable routerConfigEdgeTemplate : string.
Variable template_Parse : string -> Template + error.
Variable template_Execute :
  Template -> ConfigTemplateValues -> string * option error.
Variable strings_ToLower : string -> string.
Variable filepath_Dir : string -> string.

(** With both private and wss requested, whatever the other options, the
    values and the state of the world: the operation does nothing but log
    the conflict at the fatal level, which ends the process with status
    1.  No template is parsed, no file is created or written, and
    control does not return to the caller.  Standard output gets the
    log record when the logger writes there, and nothing else. *)
Lemma run_private_and_wss_is_fatal
        (options : CreateConfigRouterEdgeOptions)
        (data : ConfigTemplateValues) (w : world) :
  IsPrivate options = true ->
  WssEnabled options = true ->
  let result :=
    RouterEdge.run routerConfigEdgeTemplate template_Parse template_Execute
                   strings_ToLower filepath_Dir options data w in
  result
  = (Exits 1,
     log_ Fatal
       "Flags for private and wss configs are mutually exclusive. You must choose private or wss, not both"
       w)
  /\ files (snd result) = files w
  /\ (Out (logger w) <> os_Stdout -> stdout (snd result) = stdout w).
Proof.
  intros Hp Hw. unfold RouterEdge.run. rewrite Hp, Hw.
  split; [reflexivity|]. unfold logrus_Fatal, log_. cbn [snd].
  destruct (IsLevelEnabled (logger w) Fatal); [|auto].
  split; [reflexivity|]. cbn [stdout].
  destruct (Out (logger w)); [contradiction|reflexivity|reflexivity].
Qed.

End RouterEdgeRun.

(** C10, on the code.  The sample command with both private and wss
    set: nothing is written, which is what the claim says, but the
    operation does not hand an error to its caller: the fatal log record
    ends the process with status 1 before the [return] of the error is
    reached. *)
Theorem run_private_and_wss_exits :
  fst (sample_run true true) = RouterEdge.Exits 1
  /\ ~ (exists err, fst (sample_run true true)
                    = RouterEdge.Returns (Some err))
  /\ RouterEdge.files (snd (sample_run true true)) = []
  /\ RouterEdge.stdout (snd (sample_run true true)) = EmptyString
  /\ RouterEdge.logged (snd (sample_run true true))
     = [(Fatal,
         "Flags for private and wss configs are mutually exclusive. You must choose private or wss, not both"%string)].
Proof.
  split; [reflexivity|]. split; [intros [err H]; discriminate H|].
  repeat split.
Qed.

(** With one of the two flags only, the sample command writes the
    configuration to standard output and returns nil. *)
Example run_private_only_writes :
  sample_run true false
  = (RouterEdge.Returns None,
     RouterEdge.write_to RouterEdge.ToStdout "router: my_router"
                         sample_world).
Proof. reflexivity. Qed.

(* ================================================================== *)
(** * Further properties of the framing codec *)

Lemma to_int32_to_uint32 (n : Z) :
  is_int32 n -> to_int32 (to_uint32 n) = n.
Proof.
  unfold is_int32, MinInt32, MaxInt32, to_int32, to_uint32. intros H.
  rewrite Zplus_mod_idemp_l.
  rewrite Z.mod_small by lia. lia.
Qed.

Lemma to_uint32_range (n : Z) : 0 <= to_uint32 n < 2 ^ 32.
Proof. unfold to_uint32. apply Z.mod_pos_bound. lia. Qed.

(** The four bytes of a length field, read back the way [rxLength] reads
    them. *)
Lemma PutUint32_read_back (n : Z) :
  exists b0 b1 b2 b3,
    PutUint32 (to_uint32 n) = [b0; b1; b2; b3]
    /\ le_unsigned b0 b1 b2 b3 = to_uint32 n.
Proof.
  eexists _, _, _, _. split; [reflexivity|].
  rewrite <- (Uint32_le_unsigned _ _ _ _ []).
  apply (Uint32_PutUint32 (to_uint32 n)). apply to_uint32_range.
Qed.

Lemma write_quiet (buf : list byte) p :
  tx_script (peer p) = [] ->
  peer_Write buf p = (Ok (len buf, None), set_peer (wrote buf (peer p)) p).
Proof.
  intros H. unfold peer_Write, stream_Write, wrote. rewrite H. reflexivity.
Qed.

Lemma txMagicHeader_quiet p :
  tx_script (peer p) = [] ->
  txMagicHeader p = (Ok tt, set_peer (wrote MagicHeader (peer p)) p).
Proof.
  intros H. unfold txMagicHeader.
  erewrite bind_Ok by (apply write_quiet; exact H). reflexivity.
Qed.

Lemma txLength_quiet (length : Z) p :
  tx_script (peer p) = [] ->
  txLength length p
  = (Ok tt, set_peer (wrote (PutUint32 (to_uint32 length)) (peer p)) p).
Proof.
  intros H. unfold txLength.
  erewrite bind_Ok by (apply write_quiet; exact H). reflexivity.
Qed.

Lemma wrote_wrote (a b : list byte) s :
  wrote b (wrote a s) = wrote (a ++ b) s.
Proof. unfold wrote. cbn. rewrite <- app_assoc. reflexivity. Qed.

Lemma txHeader_quiet (msgLen : Z) p :
  tx_script (peer p) = [] ->
  txHeader msgLen p
  = (Ok tt,
     set_peer (wrote (MagicHeader ++ PutUint32 (to_uint32 msgLen)) (peer p))
              p).
Proof.
  intros H. unfold txHeader.
  erewrite bind_Ok by (apply txMagicHeader_quiet; exact H).
  rewrite txLength_quiet by exact H.
  cbn [peer set_peer]. rewrite wrote_wrote. reflexivity.
Qed.

Lemma txPb_quiet (A : Type) (marshal : A -> list byte + error) (pb : A)
      (data : list byte) p :
  marshal pb = inl data ->
  tx_script (peer p) = [] ->
  txPb marshal pb p = (Ok tt, set_peer (wrote (frame data) (peer p)) p).
Proof.
  intros Hm H. unfold txPb. rewrite Hm.
  erewrite bind_Ok by (apply txMagicHeader_quiet; exact H).
  erewrite bind_Ok by (apply txLength_quiet; exact H).
  erewrite bind_Ok by (apply write_quiet; exact H).
  cbv beta iota. rewrite Z.eqb_refl. cbn [negb peer set_peer].
  rewrite !wrote_wrote. reflexivity.
Qed.

(** X1.  Frame round trip.  A message whose encoding has fewer than 2^31
    bytes, written by [txPb] to a connection that takes every write in
    full, puts exactly its frame on the wire; [rxPb], reading a stream
    that starts with what was written, gives the message back when the
    decoder inverts the encoder, and leaves what follows the frame
    unread. *)
Theorem txPb_rxPb_round_trip
        (A : Type) (marshal : A -> list byte + error)
        (unmarshal : list byte -> A + error)
        (pb : A) (data rest : list byte) (p q : protocol) :
  marshal pb = inl data ->
  unmarshal data = inl pb ->
  len data < 2 ^ 31 ->
  tx_script (peer p) = [] ->
  tx_data (peer p) = [] ->
  rx_data (peer q) = tx_data (peer (snd (txPb marshal pb p))) ++ rest ->
  fst (txPb marshal pb p) = Ok tt
  /\ tx_data (peer (snd (txPb marshal pb p))) = frame data
  /\ rxPb unmarshal q = (Ok pb, set_rx_data rest q).
Proof.
  intros Hm Hu Hlen Hs Ht Hq.
  rewrite (txPb_quiet A marshal pb data p Hm Hs) in *.
  cbn [fst snd peer set_peer wrote tx_data] in *. rewrite Ht in *.
  cbn [app] in *. split; [reflexivity|]. split; [reflexivity|].
  destruct (PutUint32_read_back (len data)) as (b0 & b1 & b2 & b3 & Hf & Hv).
  assert (Hint : is_int32 (len data))
    by (unfold is_int32, MinInt32, MaxInt32, len in *; lia).
  rewrite (rxPb_frame A unmarshal b0 b1 b2 b3 data rest q).
  - unfold decoded. rewrite Hu. reflexivity.
  - rewrite Hq. unfold frame. rewrite Hf, <- !app_assoc. reflexivity.
  - rewrite Hv. apply to_int32_to_uint32. exact Hint.
Qed.

(** The round trip at the three-byte message 0a 0b 0c, with ff following
    the frame on the reading side. *)
Lemma txPb_rxPb_round_trip_witness :
  rxPb raw_Unmarshal
       (newProtocol
          (quiet_stream
             [xca; xfe; xf0; x0d; x03; x00; x00; x00; x0a; x0b; x0c; xff]
             io_EOF))
  = (Ok [x0a; x0b; x0c], newProtocol (quiet_stream [xff] io_EOF)).
Proof.
  exact (proj2 (proj2 (txPb_rxPb_round_trip
                  (list byte) raw_Marshal raw_Unmarshal
                  [x0a; x0b; x0c] [x0a; x0b; x0c] [xff]
                  (newProtocol (quiet_stream [] io_EOF))
                  (newProtocol
                     (quiet_stream
                        [xca; xfe; xf0; x0d; x03; x00; x00; x00;
                         x0a; x0b; x0c; xff] io_EOF))
                  eq_refl eq_refl eq_refl eq_refl eq_refl eq_refl))).
Defined.

(** X2.  Length round trip.  [txLength] writes the low 32 bits of the
    length it is given, so two lengths that differ by a multiple of 2^32
    are written alike; [rxLength] gives back every length of the 32-bit
    signed range, the negative ones included, and consumes the four
    bytes only. *)
Theorem txLength_rxLength_round_trip
        (length : Z) (rest : list byte) (p q : protocol) :
  is_int32 length ->
  tx_script (peer p) = [] ->
  tx_data (peer p) = [] ->
  rx_data (peer q) = tx_data (peer (snd (txLength length p))) ++ rest ->
  fst (txLength length p) = Ok tt
  /\ rxLength q = (Ok length, set_rx_data rest q)
  /\ forall k, txLength (length + k * 2 ^ 32) p = txLength length p.
Proof.
  intros Hint Hs Ht Hq.
  rewrite (txLength_quiet length p Hs) in *.
  cbn [fst snd peer set_peer wrote tx_data] in *. rewrite Ht in *.
  cbn [app] in *. split; [reflexivity|].
  destruct (PutUint32_read_back length) as (b0 & b1 & b2 & b3 & Hf & Hv).
  split.
  - rewrite Hf in Hq. cbn [app] in Hq.
    rewrite (rxLength_value b0 b1 b2 b3 rest q Hq), Hv.
    rewrite (to_int32_to_uint32 length Hint). reflexivity.
  - intros k. rewrite (txLength_quiet _ p Hs). unfold to_uint32.
    rewrite Z.mod_add by lia. reflexivity.
Qed.

(** The round trip at the length -1, written as ff ff ff ff. *)
Lemma txLength_rxLength_round_trip_witness :
  rxLength (newProtocol (quiet_stream [xff; xff; xff; xff; x2a] io_EOF))
  = (Ok (-1), newProtocol (quiet_stream [x2a] io_EOF)).
Proof.
  refine (proj1 (proj2 (txLength_rxLength_round_trip
                  (-1) [x2a]
                  (newProtocol (quiet_stream [] io_EOF))
                  (newProtocol
                     (quiet_stream [xff; xff; xff; xff; x2a] io_EOF))
                  _ eq_refl eq_refl eq_refl))).
  unfold is_int32, MinInt32, MaxInt32. lia.
Defined.

(** [io.ReadFull] reports no error only with a full buffer. *)
Lemma io_ReadFull_full (buf : list byte) p data k p' :
  io_ReadFull buf p = (Ok (data, k, None), p') -> k = len buf.
Proof.
  unfold io_ReadFull, stream_ReadFull.
  destruct (List.length buf <=? List.length (rx_data (peer p)))%nat;
    intros H; [|discriminate].
  injection H as _ <- _. reflexivity.
Qed.

Lemma io_ReadFull_Ok (buf : list byte) p :
  exists data k err p', io_ReadFull buf p = (Ok (data, k, err), p').
Proof.
  unfold io_ReadFull, stream_ReadFull.
  destruct (List.length buf <=? List.length (rx_data (peer p)))%nat;
    eexists _, _, _, _; reflexivity.
Qed.

Lemma bind_assoc {A B C} (c : M A) (k : A -> M B) (h : B -> M C) p :
  bind (bind c k) h p = bind c (fun a => bind (k a) h) p.
Proof.
  unfold bind. destruct (c p) as [[a|e|v|] p1]; reflexivity.
Qed.

(** Two continuations that agree on what the first part returns. *)
Lemma bind_ext_on {A B} (c : M A) (k1 k2 : A -> M B) p :
  (forall a p1, c p = (Ok a, p1) -> k1 a p1 = k2 a p1) ->
  bind c k1 p = bind c k2 p.
Proof.
  intros H. unfold bind. destruct (c p) as [[a|e|v|] p1]; try reflexivity.
  apply H. reflexivity.
Qed.

(** X3.  Reading a frame in one call or in pieces.  When the length read
    from the header is not negative, [rxPb] does what [rxHeader],
    [rxMsgBody] and the decoder do one after the other: same result,
    same bytes consumed, same log.  With a negative length both panic on
    the allocation; [rxMsgBody] does so without a word in the log. *)
Theorem rxPb_is_header_body_decode
        (A : Type) (unmarshal : list byte -> A + error) (p : protocol) :
  ((forall n p1, rxHeader p = (Ok n, p1) -> 0 <= n) ->
   rxPb unmarshal p
   = (n <- rxHeader ;; data <- rxMsgBody n ;; decode_with unmarshal data) p)
  /\ (forall n p1,
        rxHeader p = (Ok n, p1) -> n < 0 ->
        (n' <- rxHeader ;; rxMsgBody n') p
        = (Panicked (PanicMakeSliceLen n), p1)
        /\ exists v p2, rxPb unmarshal p = (Panicked v, p2)
                        /\ peer p2 = peer p1).
Proof.
  unfold rxPb, rxHeader. split.
  - intros Hpos. rewrite bind_assoc.
    apply bind_ext_on. intros [] p1 Hm.
    apply bind_ext_on. intros n p2 Hl.
    assert (Hn : 0 <= n).
    { apply (Hpos n p2). unfold bind. rewrite Hm, Hl. reflexivity. }
    unfold defer_recover, rxMsgBody. rewrite bind_assoc.
    rewrite !(bind_Ok _ _ _ _ _ (make_bytes_nonneg n p2 Hn)).
    rewrite bind_assoc.
    destruct (io_ReadFull_Ok (repeat x00 (Z.to_nat n)) p2)
      as (data & k & err & p3 & Hr).
    rewrite !(bind_Ok _ _ _ _ _ Hr).
    destruct err as [e|]; [reflexivity|].
    rewrite (io_ReadFull_full _ _ _ _ _ Hr).
    replace (len (repeat x00 (Z.to_nat n))) with n
      by (unfold len; rewrite repeat_length; lia).
    rewrite Z.eqb_refl. cbn [negb]. unfold decode_with, bind, ret.
    destruct (unmarshal data); reflexivity.
  - intros n p1 Hh Hneg. unfold bind in Hh.
    destruct (rxMagicHeader p) as [[[]|e|v|] p0] eqn:Hm; try discriminate.
    split.
    + unfold bind. rewrite Hm, Hh. unfold rxMsgBody.
      rewrite (bind_Panicked _ _ _ _ _ (make_bytes_negative n p1 Hneg)).
      reflexivity.
    + unfold bind at 1 2. rewrite Hm, Hh. unfold defer_recover.
      rewrite (bind_Panicked _ _ _ _ _ (make_bytes_negative n p1 Hneg)).
      unfold bind, get_test, emit, modify, throw.
      destruct (test p1); eexists _, _; split; reflexivity.
Qed.

(** The statement at a whole frame and at a frame whose length field is
    ff ff ff ff. *)
Lemma rxPb_is_header_body_decode_witness :
  let p :=
    newProtocol
      (quiet_stream [xca; xfe; xf0; x0d; x01; x00; x00; x00; x2a] io_EOF) in
  let q :=
    newProtocol
      (quiet_stream [xca; xfe; xf0; x0d; xff; xff; xff; xff; x2a] io_EOF) in
  rxPb raw_Unmarshal p
  = (n <- rxHeader ;; data <- rxMsgBody n ;; decode_with raw_Unmarshal data) p
  /\ (n' <- rxHeader ;; rxMsgBody n') q
     = (Panicked (PanicMakeSliceLen (-1)),
        newProtocol (quiet_stream [x2a] io_EOF)).
Proof.
  intros p q. split.
  - apply (proj1 (rxPb_is_header_body_decode (list byte) raw_Unmarshal p)).
    intros n p1 H. vm_compute in H. injection H as <- _. lia.
  - refine (proj1 (proj2 (rxPb_is_header_body_decode
                            (list byte) raw_Unmarshal q)
                         (-1) (newProtocol (quiet_stream [x2a] io_EOF))
                         eq_refl _)).
    lia.
Defined.

(** X4.  [rxMsgBody].  Asked for a length that is not negative, it
    returns exactly that many of the next bytes and leaves the rest; a
    length of 0 succeeds even on a stream that has ended.  With fewer
    bytes left before the end of the stream it fails, with [io.EOF] when
    nothing was left and [io.ErrUnexpectedEOF] otherwise, and nothing is
    left to read.  Asked for a negative length it panics and the
    connection is as before. *)
Theorem rxMsgBody_reads_exactly (length : Z) (p : protocol) :
  (0 <= length ->
   (Z.to_nat length <= List.length (rx_data (peer p)))%nat ->
   rxMsgBody length p
   = (Ok (firstn (Z.to_nat length) (rx_data (peer p))),
      set_rx_data (skipn (Z.to_nat length) (rx_data (peer p))) p))
  /\ (length = 0 -> rxMsgBody length p = (Ok [], p))
  /\ (0 <= length ->
      (List.length (rx_data (peer p)) < Z.to_nat length)%nat ->
      rx_end (peer p) = io_EOF ->
      rxMsgBody length p
      = (Err match rx_data (peer p) with
             | [] => io_EOF
             | _ :: _ => io_ErrUnexpectedEOF
             end,
         set_rx_data [] p))
  /\ (length < 0 ->
      rxMsgBody length p = (Panicked (PanicMakeSliceLen length), p)).
Proof.
  unfold rxMsgBody. split; [|split; [|split]].
  - intros Hn Hlen.
    erewrite bind_Ok by (apply make_bytes_nonneg; exact Hn).
    erewrite bind_Ok
      by (apply io_ReadFull_enough; rewrite repeat_length; exact Hlen).
    rewrite repeat_length. reflexivity.
  - intros ->. destruct p as [t sq [rx re tx ts cl ce] txc rxc lr lat errs eff].
    reflexivity.
  - intros Hn Hlen Hend.
    erewrite bind_Ok by (apply make_bytes_nonneg; exact Hn).
    destruct (io_ReadFull_early (repeat x00 (Z.to_nat length)) p)
      as (data & e & Hr & He); [rewrite repeat_length; exact Hlen|].
    erewrite bind_Ok by exact Hr. rewrite (He Hend). reflexivity.
  - intros Hn.
    erewrite bind_Panicked by (apply make_bytes_negative; exact Hn).
    reflexivity.
Qed.

(** The statement at a request for two of three bytes, and for three
    bytes of a stream that ends after two. *)
Lemma rxMsgBody_reads_exactly_witness :
  rxMsgBody 2 (newProtocol (quiet_stream [x0a; x0b; x0c] io_EOF))
  = (Ok [x0a; x0b], newProtocol (quiet_stream [x0c] io_EOF))
  /\ rxMsgBody 3 (newProtocol (quiet_stream [x0a; x0b] io_EOF))
     = (Err io_ErrUnexpectedEOF, newProtocol (quiet_stream [] io_EOF)).
Proof.
  split.
  - refine (proj1 (rxMsgBody_reads_exactly 2
                     (newProtocol (quiet_stream [x0a; x0b; x0c] io_EOF)))
                  _ _); [lia|simpl; lia].
  - refine (proj1 (proj2 (proj2 (rxMsgBody_reads_exactly 3
                     (newProtocol (quiet_stream [x0a; x0b] io_EOF)))))
                  _ _ eq_refl); [lia|simpl; lia].
Defined.

(** ** What the codec touches *)

Lemma same_but_io_fields p p' :
  same_but_io p p' <->
  test p' = test p /\ rxSequence p' = rxSequence p
  /\ txCount p' = txCount p /\ rxCount p' = rxCount p
  /\ lastRx p' = lastRx p /\ latencies p' = latencies p
  /\ errors p' = errors p.
Proof.
  unfold same_but_io. split.
  - intros ->. repeat split.
  - destruct p, p'. cbn. intros (-> & -> & -> & -> & -> & -> & ->).
    reflexivity.
Qed.

Lemma same_but_io_refl p : same_but_io p p.
Proof. apply same_but_io_fields. repeat split. Qed.

Lemma same_but_io_trans p1 p2 p3 :
  same_but_io p1 p2 -> same_but_io p2 p3 -> same_but_io p1 p3.
Proof.
  rewrite !same_but_io_fields.
  intros (? & ? & ? & ? & ? & ? & ?) (? & ? & ? & ? & ? & ? & ?).
  repeat split; congruence.
Qed.

Lemma io_only_ret {A} (a : A) : io_only (ret a).
Proof. intros p r p' H. injection H as _ <-. apply same_but_io_refl. Qed.

Lemma io_only_fail {A} (e : error) : io_only (@fail A e).
Proof. intros p r p' H. injection H as _ <-. apply same_but_io_refl. Qed.

Lemma io_only_throw {A} (v : panic) : io_only (@throw A v).
Proof. intros p r p' H. injection H as _ <-. apply same_but_io_refl. Qed.

Lemma io_only_bind {A B} (c : M A) (k : A -> M B) :
  io_only c -> (forall a, io_only (k a)) -> io_only (bind c k).
Proof.
  intros Hc Hk p r p' H. unfold bind in H.
  destruct (c p) as [[a|e|v|] p1] eqn:E;
    try (injection H as _ <-; exact (Hc _ _ _ E)).
  eapply same_but_io_trans; [exact (Hc _ _ _ E)|exact (Hk _ _ _ _ H)].
Qed.

Lemma io_only_emit (e : effect) : io_only (emit e).
Proof.
  intros p r p' H. injection H as _ <-. apply same_but_io_fields.
  repeat split.
Qed.

Lemma io_only_get_test : io_only get_test.
Proof.
  intros p r p' H. unfold get_test in H.
  destruct (test p); injection H as _ <-; apply same_but_io_refl.
Qed.

Lemma io_only_make_bytes (n : Z) : io_only (make_bytes n).
Proof.
  unfold make_bytes. destruct (n <? 0);
    [apply io_only_throw|apply io_only_ret].
Qed.

Lemma io_only_peer_Write (buf : list byte) : io_only (peer_Write buf).
Proof.
  intros p r p' H. unfold peer_Write in H.
  destruct (stream_Write buf (peer p)). injection H as _ <-.
  apply same_but_io_fields. repeat split.
Qed.

Lemma io_only_io_ReadFull (buf : list byte) : io_only (io_ReadFull buf).
Proof.
  intros p r p' H. unfold io_ReadFull in H.
  destruct (stream_ReadFull _ (peer p)). injection H as _ <-.
  apply same_but_io_fields. repeat split.
Qed.

Lemma io_only_defer_recover {A} (h : panic -> M A) (c : M A) :
  io_only c -> (forall v, io_only (h v)) -> io_only (defer_recover h c).
Proof.
  intros Hc Hh p r p' H. unfold defer_recover in H.
  destruct (c p) as [[a|e|v|] p1] eqn:E;
    try (injection H as _ <-; exact (Hc _ _ _ E)).
  eapply same_but_io_trans; [exact (Hc _ _ _ E)|exact (Hh _ _ _ _ H)].
Qed.

Ltac io_only_step :=
  first [ apply io_only_ret | apply io_only_fail | apply io_only_throw
        | apply io_only_emit | apply io_only_get_test
        | apply io_only_make_bytes | apply io_only_peer_Write
        | apply io_only_io_ReadFull
        | apply io_only_defer_recover; [|intros ?]
        | apply io_only_bind; [|intros ?]
        | match goal with
          | |- io_only (match ?x with _ => _ end) => destruct x
          | |- io_only (if ?x then _ else _) => destruct x
          end ].

Lemma io_only_txMagicHeader : io_only txMagicHeader.
Proof. unfold txMagicHeader. repeat io_only_step. Qed.

Lemma io_only_txLength (length : Z) : io_only (txLength length).
Proof. unfold txLength. repeat io_only_step. Qed.

Lemma io_only_rxMagicHeader : io_only rxMagicHeader.
Proof. unfold rxMagicHeader. repeat io_only_step. Qed.

Lemma io_only_rxLength : io_only rxLength.
Proof. unfold rxLength. repeat io_only_step. Qed.

Lemma io_only_txPb (A : Type) (marshal : A -> list byte + error) (pb : A) :
  io_only (txPb marshal pb).
Proof.
  unfold txPb. destruct (marshal pb); [|apply io_only_fail].
  apply io_only_bind; [apply io_only_txMagicHeader|intros _].
  apply io_only_bind; [apply io_only_txLength|intros _].
  repeat io_only_step.
Qed.

Lemma io_only_rxPb (A : Type) (unmarshal : list byte -> A + error) :
  io_only (rxPb unmarshal).
Proof.
  unfold rxPb.
  apply io_only_bind; [apply io_only_rxMagicHeader|intros _].
  apply io_only_bind; [apply io_only_rxLength|intros n].
  repeat io_only_step.
Qed.

(** The log. *)

Lemma keeps_log_ret {A} (a : A) : keeps_log (ret a).
Proof. intros p r p' H. injection H as _ <-. reflexivity. Qed.

Lemma keeps_log_fail {A} (e : error) : keeps_log (@fail A e).
Proof. intros p r p' H. injection H as _ <-. reflexivity. Qed.

Lemma keeps_log_throw {A} (v : panic) : keeps_log (@throw A v).
Proof. intros p r p' H. injection H as _ <-. reflexivity. Qed.

Lemma keeps_log_bind {A B} (c : M A) (k : A -> M B) :
  keeps_log c -> (forall a, keeps_log (k a)) -> keeps_log (bind c k).
Proof.
  intros Hc Hk p r p' H. unfold bind in H.
  destruct (c p) as [[a|e|v|] p1] eqn:E;
    try (injection H as _ <-; exact (Hc _ _ _ E)).
  rewrite (Hk _ _ _ _ H). exact (Hc _ _ _ E).
Qed.

Lemma keeps_log_make_bytes (n : Z) : keeps_log (make_bytes n).
Proof.
  unfold make_bytes. destruct (n <? 0);
    [apply keeps_log_throw|apply keeps_log_ret].
Qed.

Lemma keeps_log_peer_Write (buf : list byte) : keeps_log (peer_Write buf).
Proof.
  intros p r p' H. unfold peer_Write in H.
  destruct (stream_Write buf (peer p)). injection H as _ <-. reflexivity.
Qed.

Lemma keeps_log_io_ReadFull (buf : list byte) : keeps_log (io_ReadFull buf).
Proof.
  intros p r p' H. unfold io_ReadFull in H.
  destruct (stream_ReadFull _ (peer p)). injection H as _ <-. reflexivity.
Qed.

Ltac keeps_log_step :=
  first [ apply keeps_log_ret | apply keeps_log_fail | apply keeps_log_throw
        | apply keeps_log_make_bytes | apply keeps_log_peer_Write
        | apply keeps_log_io_ReadFull
        | apply keeps_log_bind; [|intros ?]
        | match goal with
          | |- keeps_log (match ?x with _ => _ end) => destruct x
          | |- keeps_log (if ?x then _ else _) => destruct x
          end ].

Lemma keeps_log_txPb (A : Type) (marshal : A -> list byte + error) (pb : A) :
  keeps_log (txPb marshal pb).
Proof.
  unfold txPb, txMagicHeader, txLength. repeat keeps_log_step.
Qed.

Lemma keeps_log_rxMagicHeader : keeps_log rxMagicHeader.
Proof. unfold rxMagicHeader. repeat keeps_log_step. Qed.

Lemma keeps_log_rxLength : keeps_log rxLength.
Proof. unfold rxLength. repeat keeps_log_step. Qed.

(** [rxPb] writes to the log only on its way out of a panic. *)
Lemma rxPb_log (A : Type) (unmarshal : list byte -> A + error) p r p' :
  rxPb unmarshal p = (r, p') ->
  effects p' = effects p \/ exists v, r = Panicked v.
Proof.
  unfold rxPb. intros H. unfold bind at 1 in H.
  destruct (rxMagicHeader p) as [[[]|e|v|] p1] eqn:Em;
    try (injection H as <- <-; left; exact (keeps_log_rxMagicHeader _ _ _ Em)).
  unfold bind at 1 in H.
  destruct (rxLength p1) as [[n|e|v|] p2] eqn:El;
    try (injection H as <- <-; left;
         rewrite (keeps_log_rxLength _ _ _ El);
         exact (keeps_log_rxMagicHeader _ _ _ Em)).
  unfold defer_recover in H.
  match type of H with
  | match ?body p2 with _ => _ end = _ =>
      assert (Hb : keeps_log body) by repeat keeps_log_step;
      destruct (body p2) as [[a|e|v|] p3] eqn:Eb
  end.
  - injection H as <- <-. left.
    rewrite (Hb _ _ _ Eb), (keeps_log_rxLength _ _ _ El).
    exact (keeps_log_rxMagicHeader _ _ _ Em).
  - injection H as <- <-. left.
    rewrite (Hb _ _ _ Eb), (keeps_log_rxLength _ _ _ El).
    exact (keeps_log_rxMagicHeader _ _ _ Em).
  - right. unfold bind, get_test, emit, modify, throw in H.
    destruct (test p3); injection H as <- _; eauto.
  - injection H as <- <-. left.
    rewrite (Hb _ _ _ Eb), (keeps_log_rxLength _ _ _ El).
    exact (keeps_log_rxMagicHeader _ _ _ Em).
Qed.

(** X5.  The handshake.  [txTest] on a connection that takes every write
    in full sends the frame of the descriptor and logs ["-> [test]"];
    [rxTest], reading what was sent, returns the descriptor and logs
    ["<- [test]"], for an encoding of fewer than 2^31 bytes that the
    decoder inverts.  Neither logs anything when it returns an error. *)
Theorem txTest_rxTest_handshake
        (Marshal_Test : Test -> list byte + error)
        (Unmarshal_Test : list byte -> Test + error) :
  (forall (t : Test) (data rest : list byte) (p q : protocol),
      Marshal_Test t = inl data ->
      Unmarshal_Test data = inl t ->
      len data < 2 ^ 31 ->
      tx_script (peer p) = [] ->
      tx_data (peer p) = [] ->
      rx_data (peer q)
      = tx_data (peer (snd (txTest Marshal_Test t p))) ++ rest ->
      txTest Marshal_Test t p
      = (Ok tt,
         set_effects (effects p ++ [Log "" Info (Msg "-> [test]")])
                     (set_peer (wrote (frame data) (peer p)) p))
      /\ rxTest Unmarshal_Test q
         = (Ok t,
            set_effects (effects q ++ [Log "" Info (Msg "<- [test]")])
                        (set_rx_data rest q)))
  /\ (forall t p e p',
        txTest Marshal_Test t p = (Err e, p') -> effects p' = effects p)
  /\ (forall q e q',
        rxTest Unmarshal_Test q = (Err e, q') -> effects q' = effects q).
Proof.
  split; [|split].
  - intros t data rest p q Hm Hu Hlen Hs Ht Hq.
    assert (Htx : txTest Marshal_Test t p
                  = (Ok tt,
                     set_effects (effects p ++ [Log "" Info (Msg "-> [test]")])
                       (set_peer (wrote (frame data) (peer p)) p))).
    { unfold txTest.
      erewrite bind_Ok by (apply (txPb_quiet Test); eassumption).
      reflexivity. }
    split; [exact Htx|].
    rewrite Htx in Hq. cbn [snd peer set_effects set_peer wrote tx_data] in Hq.
    rewrite Ht in Hq. cbn [app] in Hq.
    destruct (PutUint32_read_back (len data))
      as (b0 & b1 & b2 & b3 & Hf & Hv).
    assert (Hrx : rxPb Unmarshal_Test q = (Ok t, set_rx_data rest q)).
    { rewrite (rxPb_frame Test Unmarshal_Test b0 b1 b2 b3 data rest q).
      - unfold decoded. rewrite Hu. reflexivity.
      - rewrite Hq. unfold frame. rewrite Hf, <- !app_assoc. reflexivity.
      - rewrite Hv. apply to_int32_to_uint32.
        unfold is_int32, MinInt32, MaxInt32, len in *. lia. }
    unfold rxTest. erewrite bind_Ok by exact Hrx. reflexivity.
  - intros t p e p' H. unfold txTest, bind in H.
    destruct (txPb Marshal_Test t p) as [[[]|e1|v|] p1] eqn:E;
      try discriminate.
    injection H as _ <-. exact (keeps_log_txPb _ _ _ _ _ _ E).
  - intros q e q' H. unfold rxTest, bind in H.
    destruct (rxPb Unmarshal_Test q) as [[t|e1|v|] q1] eqn:E;
      try discriminate.
    injection H as _ <-.
    destruct (rxPb_log _ _ _ _ _ E) as [Hl|[v Hv]];
      [exact Hl|discriminate].
Qed.

(** The handshake with a descriptor encoded as the one byte of its
    receive total. *)
Lemma txTest_rxTest_handshake_witness :
  let marshal (t : Test) : list byte + error :=
    inl [byte_of_Z (RxRequests t)] in
  let unmarshal (data : list byte) : Test + error :=
    match data with
    | [b] => inl (sample_test 0 (Z_of_byte b) 0 0 0)
    | _ => inr (ErrForeign "proto: bad descriptor")
    end in
  rxTest unmarshal
         (newProtocol
            (quiet_stream [xca; xfe; xf0; x0d; x01; x00; x00; x00; x07]
                          io_EOF))
  = (Ok (sample_test 0 7 0 0 0),
     set_effects [Log "" Info (Msg "<- [test]")]
                 (newProtocol (quiet_stream [] io_EOF))).
Proof.
  intros marshal unmarshal.
  exact (proj2 (proj1 (txTest_rxTest_handshake marshal unmarshal)
                  (sample_test 0 7 0 0 0) [x07] []
                  (newProtocol (quiet_stream [] io_EOF))
                  (newProtocol
                     (quiet_stream
                        [xca; xfe; xf0; x0d; x01; x00; x00; x00; x07]
                        io_EOF))
                  eq_refl eq_refl eq_refl eq_refl eq_refl eq_refl)).
Defined.

(** X6.  The header.  [rxHeader] gives back every length of the 32-bit
    signed range that [txHeader] wrote, having read the eight bytes of
    the header and no more; when the first four bytes are not the marker
    it fails before looking at the length. *)
Theorem txHeader_rxHeader_round_trip
        (msgLen : Z) (rest : list byte) (p q : protocol) :
  is_int32 msgLen ->
  tx_script (peer p) = [] ->
  tx_data (peer p) = [] ->
  rx_data (peer q) = tx_data (peer (snd (txHeader msgLen p))) ++ rest ->
  fst (txHeader msgLen p) = Ok tt
  /\ List.length (tx_data (peer (snd (txHeader msgLen p)))) = 8%nat
  /\ rxHeader q = (Ok msgLen, set_rx_data rest q)
  /\ (forall h0 h1 h2 h3 tail q',
        rx_data (peer q') = h0 :: h1 :: h2 :: h3 :: tail ->
        [h0; h1; h2; h3] <> MagicHeader ->
        rxHeader q'
        = (Err (ErrBadHeader [h0; h1; h2; h3] MagicHeader),
           set_rx_data tail q')).
Proof.
  intros Hint Hs Ht Hq.
  rewrite (txHeader_quiet msgLen p Hs) in *.
  cbn [fst snd peer set_peer wrote tx_data] in *. rewrite Ht in *.
  destruct (PutUint32_read_back msgLen) as (b0 & b1 & b2 & b3 & Hf & Hv).
  rewrite Hf in *. cbn [app MagicHeader List.length] in *.
  split; [reflexivity|]. split; [reflexivity|]. split.
  - unfold rxHeader.
    erewrite bind_Ok
      by (apply (rxMagicHeader_match (b0 :: b1 :: b2 :: b3 :: rest));
          exact Hq).
    rewrite (rxLength_value b0 b1 b2 b3 rest) by reflexivity.
    rewrite Hv, (to_int32_to_uint32 msgLen Hint). reflexivity.
  - intros h0 h1 h2 h3 tail q' Hrx Hne. unfold rxHeader.
    erewrite bind_Err by (apply rxMagicHeader_mismatch; eassumption).
    reflexivity.
Qed.

(** The header of a message of 300 bytes. *)
Lemma txHeader_rxHeader_round_trip_witness :
  rxHeader
    (newProtocol
       (quiet_stream [xca; xfe; xf0; x0d; x2c; x01; x00; x00; x2a] io_EOF))
  = (Ok 300, newProtocol (quiet_stream [x2a] io_EOF)).
Proof.
  refine (proj1 (proj2 (proj2 (txHeader_rxHeader_round_trip
                  300 [x2a]
                  (newProtocol (quiet_stream [] io_EOF))
                  (newProtocol
                     (quiet_stream
                        [xca; xfe; xf0; x0d; x2c; x01; x00; x00; x2a]
                        io_EOF))
                  _ eq_refl eq_refl eq_refl)))).
  unfold is_int32, MinInt32, MaxInt32. lia.
Defined.

(** What one write adds to the bytes the connection has received. *)
Lemma after_write_prefix (buf : list byte) s :
  exists k, (k <= List.length buf)%nat
            /\ tx_data (after_write buf s) = tx_data s ++ firstn k buf
            /\ rx_data (after_write buf s) = rx_data s.
Proof.
  unfold after_write, stream_Write.
  destruct (tx_script s) as [|[n err] script]; cbn [snd tx_data rx_data].
  - exists (List.length buf). rewrite firstn_all. auto.
  - exists (Nat.min (Z.to_nat n) (List.length buf)).
    split; [lia|]. split; [|reflexivity]. f_equal.
    destruct (Nat.le_ge_cases (Z.to_nat n) (List.length buf)).
    + rewrite Nat.min_l by assumption. reflexivity.
    + rewrite Nat.min_r, firstn_all, firstn_all2 by assumption.
      reflexivity.
Qed.

Lemma firstn_app_short {A} (k : nat) (l1 l2 : list A) :
  (k <= List.length l1)%nat -> firstn k (l1 ++ l2) = firstn k l1.
Proof.
  intros H. rewrite firstn_app.
  replace (k - List.length l1)%nat with 0%nat by lia.
  rewrite firstn_O, app_nil_r. reflexivity.
Qed.

(** X7.  What [txPb] leaves on the wire.  Whatever the connection does
    with the writes, the bytes it has received from [txPb] are a prefix
    of the message's frame, and the whole frame when [txPb] reports
    success; nothing is read from the connection.  When the message
    cannot be encoded, nothing is written at all. *)
Theorem txPb_writes_a_frame_prefix
        (A : Type) (marshal : A -> list byte + error) (pb : A)
        (p : protocol) :
  (forall e, marshal pb = inr e -> txPb marshal pb p = (Err e, p))
  /\ (forall data,
        marshal pb = inl data ->
        (exists k,
            tx_data (peer (snd (txPb marshal pb p)))
            = tx_data (peer p) ++ firstn k (frame data))
        /\ (fst (txPb marshal pb p) = Ok tt ->
            tx_data (peer (snd (txPb marshal pb p)))
            = tx_data (peer p) ++ frame data)
        /\ rx_data (peer (snd (txPb marshal pb p))) = rx_data (peer p)).
Proof.
  split.
  - intros e Hm. unfold txPb. rewrite Hm. reflexivity.
  - intros data Hm. unfold txPb. rewrite Hm.
    set (field := PutUint32 (to_uint32 (len data))).
    set (s0 := peer p).
    set (s1 := after_write MagicHeader s0).
    set (s2 := after_write field s1).
    set (s3 := after_write data s2).
    destruct (after_write_prefix MagicHeader s0) as (k1 & Hk1 & Ht1 & Hr1).
    destruct (after_write_prefix field s1) as (k2 & Hk2 & Ht2 & Hr2).
    destruct (after_write_prefix data s2) as (k3 & Hk3 & Ht3 & Hr3).
    fold s1 in Ht1, Hr1. fold s2 in Ht2, Hr2. fold s3 in Ht3, Hr3.
    change (List.length field) with 4%nat in Hk2.
    change (List.length MagicHeader) with 4%nat in Hk1.
    match goal with
    | |- context [snd (?c p)] => remember (c p) as res eqn:Hres
    end.
    unfold bind at 1 in Hres. rewrite txMagicHeader_report in Hres.
    fold s0 s1 in Hres.
    destruct (write_report MagicHeader s0) as [n1 [e1|]] eqn:R1.
    { subst res. cbn [fst snd peer set_peer].
      split; [|split; [discriminate|exact Hr1]].
      exists k1. rewrite Ht1. f_equal. unfold frame.
      symmetry. apply firstn_app_short. exact Hk1. }
    destruct (Z.eqb_spec n1 4) as [->|Hn1].
    2:{ subst res. cbn [fst snd peer set_peer].
        split; [|split; [discriminate|exact Hr1]].
        exists k1. rewrite Ht1. f_equal. unfold frame.
        symmetry. apply firstn_app_short. exact Hk1. }
    pose proof (after_write_complete MagicHeader s0 R1) as Hc1. fold s1 in Hc1.
    unfold bind at 1 in Hres. rewrite txLength_report in Hres.
    change (peer (set_peer s1 p)) with s1 in Hres.
    fold field in Hres. fold s2 in Hres.
    destruct (write_report field s1) as [n2 [e2|]] eqn:R2.
    { subst res. cbn [fst snd peer set_peer].
      split; [|split; [discriminate|exact (eq_trans Hr2 Hr1)]].
      exists (4 + k2)%nat. rewrite Ht2, Hc1, <- app_assoc. f_equal.
      unfold frame. change 4%nat with (List.length MagicHeader).
      rewrite firstn_app_2. f_equal.
      symmetry. apply firstn_app_short. exact Hk2. }
    destruct (Z.eqb_spec n2 4) as [->|Hn2].
    2:{ subst res. cbn [fst snd peer set_peer].
        split; [|split; [discriminate|exact (eq_trans Hr2 Hr1)]].
        exists (4 + k2)%nat. rewrite Ht2, Hc1, <- app_assoc. f_equal.
        unfold frame. change 4%nat with (List.length MagicHeader).
        rewrite firstn_app_2. f_equal.
        symmetry. apply firstn_app_short. exact Hk2. }
    pose proof (after_write_complete field s1 R2) as Hc2. fold s2 in Hc2.
    erewrite bind_Ok in Hres by apply peer_Write_report.
    change (peer (set_peer s2 (set_peer s1 p))) with s2 in Hres.
    fold s3 in Hres.
    assert (Hpre : tx_data s3
                   = tx_data s0 ++ firstn (8 + k3) (frame data)).
    { rewrite Ht3, Hc2, Hc1, <- !app_assoc. reflexivity. }
    destruct (write_report data s2) as [n3 [e3|]] eqn:R3.
    { subst res. cbn [fst snd peer set_peer].
      split; [eauto|split; [discriminate|exact (eq_trans Hr3 (eq_trans Hr2 Hr1))]]. }
    destruct (Z.eqb_spec n3 (len data)) as [->|Hn3]; cbn [negb] in Hres;
      subst res; cbn [fst snd peer set_peer].
    + split; [eauto|]. split; [|exact (eq_trans Hr3 (eq_trans Hr2 Hr1))]. intros _.
      refine (eq_trans (after_write_complete data s2 R3) _).
      rewrite Hc2, Hc1, <- !app_assoc. reflexivity.
    + split; [eauto|split; [discriminate|exact (eq_trans Hr3 (eq_trans Hr2 Hr1))]].
Qed.

(** The statement at a connection that takes the marker and then two
    bytes of the length field. *)
Lemma txPb_writes_a_frame_prefix_witness :
  exists k,
    tx_data (peer (snd (txPb raw_Marshal [x2a]
                          (newProtocol
                             (mkStream [] io_EOF [] [(4, None); (2, None)]
                                       false None)))))
    = firstn k (frame [x2a]).
Proof.
  exact (proj1 (proj2 (txPb_writes_a_frame_prefix
                  (list byte) raw_Marshal [x2a]
                  (newProtocol
                     (mkStream [] io_EOF [] [(4, None); (2, None)]
                               false None)))
               [x2a] eq_refl)).
Defined.

(* ================================================================== *)
(** * Further properties of the engine *)

(** ** The verifier's footprint *)

Section VerifierFootprint.

Variable sha512_Sum512 : list byte -> list byte.
Variable log : level -> logmsg -> effect.

(** Every way one iteration of the verifier can end. *)
Lemma verifier_iter_cases (ev : verifier_event) p r p1 :
  verifier_iter sha512_Sum512 log ev p = (r, p1) ->
  (r = Ok Continue
   /\ p1 = set_rxSequence (to_uint32 (rxSequence p + 1)) p)
  \/ (r = Ok Return /\ p1 = set_effects (effects p1) p)
  \/ (r = Ok Return /\ len (errors p) < errors_cap
      /\ exists err, p1 = verifier_failed log err p)
  \/ ((r = Parked \/ exists v, r = Panicked v) /\ p1 = p).
Proof.
  intros H. destruct ev as [[b|]|now_ms].
  - destruct (Z.ltb_spec (len (errors p)) errors_cap) as [Hroom|Hfull].
    + destruct (Z.eq_dec (Sequence b) (rxSequence p)) as [Hs|Hs].
      * destruct (list_eq_dec Byte.byte_eq_dec
                    (sha512_Sum512 (Data b)) (Hash b)) as [Hh|Hh].
        -- change (BlockArrives (Some b)) with (arrives b) in H.
           rewrite (verifier_iter_accept _ _ b p Hs Hh) in H.
           injection H as <- <-. left. auto.
        -- change (BlockArrives (Some b)) with (arrives b) in H.
           rewrite (verifier_iter_bad_hash _ _ b p Hs Hh Hroom) in H.
           injection H as <- <-. right. right. left. eauto.
      * change (BlockArrives (Some b)) with (arrives b) in H.
        rewrite (verifier_iter_bad_sequence _ _ b p Hs Hroom) in H.
        injection H as <- <-. right. right. left. eauto.
    + destruct (Z.eq_dec (Sequence b) (rxSequence p)) as [Hs|Hs].
      * destruct (list_eq_dec Byte.byte_eq_dec
                    (sha512_Sum512 (Data b)) (Hash b)) as [Hh|Hh].
        -- change (BlockArrives (Some b)) with (arrives b) in H.
           rewrite (verifier_iter_accept _ _ b p Hs Hh) in H.
           injection H as <- <-. left. auto.
        -- change (BlockArrives (Some b)) with (arrives b) in H.
           rewrite (verifier_iter_parked _ _ b p Hfull (or_intror Hh)) in H.
           injection H as <- <-. right. right. right. auto.
      * change (BlockArrives (Some b)) with (arrives b) in H.
        rewrite (verifier_iter_parked _ _ b p Hfull (or_introl Hs)) in H.
        injection H as <- <-. right. right. right. auto.
  - injection H as <- <-. right. left. split; [reflexivity|].
    destruct p. reflexivity.
  - destruct (test p) as [t|] eqn:Ht.
    + rewrite (verifier_iter_timer _ _ now_ms t p Ht) in H.
      injection H as <- <-. right. left. split; reflexivity.
    + unfold verifier_iter, bind, get_test in H. rewrite Ht in H.
      injection H as <- <-. right. right. right. eauto.
Qed.

(** What the verifier loop changes, by induction on the events. *)
Lemma verifier_loop_effect (evs : list verifier_event) :
  forall p r p',
    verifier_loop sha512_Sum512 log evs p = (r, p') ->
    (test p' = test p /\ txCount p' = txCount p /\ rxCount p' = rxCount p
     /\ lastRx p' = lastRx p /\ latencies p' = latencies p)
    /\ (rx_data (peer p') = rx_data (peer p)
        /\ tx_data (peer p') = tx_data (peer p)
        /\ tx_script (peer p') = tx_script (peer p))
    /\ (0 <= rxSequence p ->
        0 <= rxSequence p' <= rxSequence p + len evs)
    /\ ((errors p' = errors p /\ closed (peer p') = closed (peer p))
        \/ (exists e, errors p' = errors p ++ [e]
                      /\ closed (peer p') = true /\ r = Ok Returned)).
Proof.
  induction evs as [|ev evs IH]; intros p r p' H.
  - injection H as <- <-. unfold len. cbn.
    repeat split; try lia. left. auto.
  - cbn [verifier_loop] in H. unfold bind in H.
    destruct (verifier_iter sha512_Sum512 log ev p) as [r1 p1] eqn:E.
    assert (Hlen : len (ev :: evs) = len evs + 1)
      by (unfold len; cbn [List.length]; lia).
    destruct (verifier_iter_cases ev p r1 p1 E)
      as [[-> ->]|[[-> Hp1]|[(-> & Hroom & err & ->)|[Hr ->]]]].
    + destruct (IH _ _ _ H) as (Hf & Hio & Hseq & Herr).
      cbn [test txCount rxCount lastRx latencies peer errors rxSequence
           set_rxSequence] in Hf, Hio, Hseq, Herr.
      split; [exact Hf|]. split; [exact Hio|]. split; [|exact Herr].
      intros H0.
      assert (0 <= to_uint32 (rxSequence p + 1) <= rxSequence p + 1).
      { unfold to_uint32. split; [apply Z.mod_pos_bound; lia|].
        apply Z.mod_le; lia. }
      specialize (Hseq ltac:(lia)). lia.
    + injection H as <- <-. rewrite Hp1. cbn.
      repeat split; try lia. left. auto.
    + injection H as <- <-. unfold verifier_failed. cbn.
      repeat split; try lia. right. eauto.
    + assert (p' = p) as ->
        by (destruct Hr as [->|[v ->]]; injection H as _ <-; reflexivity).
      split; [repeat split|]. split; [repeat split|].
      split; [intros; unfold len; lia|]. left. auto.
Qed.

(** X8.  The verifier's footprint.  Whatever it is given, the verifier
    loop reads nothing from the connection and writes nothing to it, and
    leaves the descriptor, the two counters, the last-receive time and
    the latency queue alone; its sequence counter moves by at most the
    number of events.  Either it queues no error and the connection is
    open or closed as before, or it queues exactly one, has closed the
    connection and has returned. *)
Theorem verifier_loop_footprint (evs : list verifier_event) :
  forall p r p',
    verifier_loop sha512_Sum512 log evs p = (r, p') ->
    (test p' = test p /\ txCount p' = txCount p /\ rxCount p' = rxCount p
     /\ lastRx p' = lastRx p /\ latencies p' = latencies p)
    /\ (rx_data (peer p') = rx_data (peer p)
        /\ tx_data (peer p') = tx_data (peer p)
        /\ tx_script (peer p') = tx_script (peer p))
    /\ (0 <= rxSequence p ->
        0 <= rxSequence p' <= rxSequence p + len evs)
    /\ ((errors p' = errors p /\ closed (peer p') = closed (peer p))
        \/ (exists e, errors p' = errors p ++ [e]
                      /\ closed (peer p') = true /\ r = Ok Returned)).
Proof. exact (verifier_loop_effect evs). Qed.

End VerifierFootprint.

(** The statement at a Block out of sequence followed by anything: one
    error, the connection closed, nothing read. *)
Lemma verifier_loop_footprint_witness :
  let b := mkBlock 7 BlockTypePlain [x2a] (sample_digest [x2a]) 0 in
  let p := newProtocol (quiet_stream [x01; x02] io_EOF) in
  let p' := snd (verifier_loop sample_digest sample_log
                               [arrives b; TimerFires 5] p) in
  rx_data (peer p') = [x01; x02] /\ len (errors p') <= 1.
Proof.
  intros b p p'.
  destruct (verifier_loop_footprint sample_digest sample_log
              [arrives b; TimerFires 5] p _ _
              (surjective_pairing _))
    as (_ & (Hrx & _) & _ & [[He _]|(e & He & _)]);
    fold p' in Hrx, He; (split; [exact Hrx|]); rewrite He; cbn; lia.
Defined.

(** ** The transmit loop *)

Lemma to_int32_small (z : Z) : is_int32 z -> to_int32 z = z.
Proof.
  unfold is_int32, MinInt32, MaxInt32, to_int32. intros H.
  rewrite Z.mod_small by lia. lia.
Qed.

Lemma txer_latency_cases (block : Block) p :
  exists block' q,
    txer_latency block p = (Ok block', set_latencies q p)
    /\ len q <= len (latencies p).
Proof.
  unfold txer_latency, bind, latencies_poll, ret.
  destruct (BlockType_eqb (Type_ block) BlockTypePlain).
  - destruct (latencies p) as [|ts q] eqn:E.
    + exists block, []. rewrite <- E. split; [|rewrite E; reflexivity].
      destruct p; reflexivity.
    + exists (with_latency ts block), q. split; [reflexivity|].
      unfold len. cbn [List.length]. lia.
  - exists block, (latencies p). split; [|lia]. destruct p; reflexivity.
Qed.

(** Pacing never fails; it moves [lastSend] forward by the interval at
    least. *)
Lemma txer_pacing_cases (lastSend now raw : Z) (t : Test) p :
  test p = Some t ->
  exists lastSend' l,
    txer_pacing lastSend now raw p = (Ok lastSend', set_effects l p)
    /\ lastSend + Z.max 0 (TxPacing t) * Millisecond <= lastSend'.
Proof.
  intros Ht. unfold txer_pacing, bind, get_test, emit, modify, ret.
  rewrite Ht. unfold Millisecond.
  destruct (Z.gtb_spec (TxPacing t) 0) as [Hp|Hp].
  - set (jitter := if TxMaxJitter t >? 0
                   then rand_Intn raw (TxMaxJitter t) else 0).
    assert (Hj : 0 <= jitter).
    { unfold jitter. destruct (Z.gtb_spec (TxMaxJitter t) 0); [|lia].
      apply rand_Intn_range. lia. }
    destruct (Z.gtb_spec (lastSend + (TxPacing t + jitter) * 1000000) now).
    + eexists _, _. split; [reflexivity|]. lia.
    + exists now, (effects p). split; [destruct p; reflexivity|]. lia.
  - exists lastSend, (effects p). split; [destruct p; reflexivity|]. lia.
Qed.

Section Txer.

Variable Block_Tx : Block -> M unit.
Variable log : level -> logmsg -> effect.
Hypothesis Block_Tx_io : forall block, io_only (Block_Tx block).

(** Every way one iteration of the transmit loop can end. *)
Lemma txer_iter_cases (i : tx_input) (lastSend : Z) (t : Test) p r p' :
  test p = Some t ->
  txer_iter Block_Tx log i lastSend p = (r, p') ->
  (test p' = Some t /\ rxSequence p' = rxSequence p
   /\ rxCount p' = rxCount p /\ lastRx p' = lastRx p
   /\ len (latencies p') <= len (latencies p))
  /\ ((exists lastSend',
          r = Ok (Continue, lastSend')
          /\ lastSend + Z.max 0 (TxPacing t) * Millisecond <= lastSend'
          /\ txCount p' = to_int32 (txCount p + 1)
          /\ errors p' = errors p)
      \/ (txCount p' = txCount p
          /\ ((exists lastSend' e,
                  r = Ok (Return, lastSend') /\ lastSend <= lastSend'
                  /\ errors p' = errors p ++ [e])
              \/ (errors p' = errors p
                  /\ ((exists lastSend',
                          r = Ok (Return, lastSend')
                          /\ lastSend <= lastSend')
                      \/ r = Parked \/ exists v, r = Panicked v))))).
Proof.
  intros Ht H. unfold txer_iter in H.
  destruct (tx_block i) as [block|].
  2:{ injection H as <- <-. cbn. rewrite Ht.
      split; [repeat split; lia|]. right. split; [reflexivity|].
      right. split; [reflexivity|]. left. exists lastSend. split; [auto|lia]. }
  destruct (txer_latency_cases block p) as (b1 & q & Hl & Hq).
  rewrite (bind_Ok _ _ _ _ _ Hl) in H.
  destruct (txer_pacing_cases lastSend (tx_now i) (tx_raw i) t
              (set_latencies q p) Ht) as (ls1 & l & Hp & Hls).
  rewrite (bind_Ok _ _ _ _ _ Hp) in H.
  unfold txer_send, try, bind at 1 in H.
  destruct (Block_Tx b1 (set_effects l (set_latencies q p)))
    as [r3 p3] eqn:E3.
  pose proof (proj1 (same_but_io_fields _ _) (Block_Tx_io _ _ _ _ E3))
    as (F1 & F2 & F3 & F4 & F5 & F6 & F7).
  cbn [test rxSequence txCount rxCount lastRx latencies errors
       set_effects set_latencies] in F1, F2, F3, F4, F5, F6, F7.
  assert (Hz : 0 <= Z.max 0 (TxPacing t) * Millisecond)
    by (unfold Millisecond; lia).
  destruct r3 as [[]|e|v|].
  - injection H as <- <-. cbn. rewrite F1, F2, F3, F4, F5, F6, F7.
    split; [repeat split; auto|]. left. exists ls1. auto.
  - unfold bind, emit, modify, errors_send in H.
    cbn [errors set_effects] in H. rewrite F7 in H.
    destruct (len (errors p) <? errors_cap); injection H as <- <-; cbn;
      rewrite ?F1, ?F2, ?F3, ?F4, ?F5, ?F6, ?F7;
      (split; [repeat split; auto|]); right; (split; [reflexivity|]).
    + left. exists ls1, e. split; [reflexivity|]. split; [lia|reflexivity].
    + right. split; [reflexivity|]. right. left. reflexivity.
  - injection H as <- <-. rewrite F1, F2, F3, F4, F5, F6, F7.
    split; [repeat split; auto|]. right. split; [reflexivity|].
    right. split; [reflexivity|]. right. right. eauto.
  - injection H as <- <-. rewrite F1, F2, F3, F4, F5, F6, F7.
    split; [repeat split; auto|]. right. split; [reflexivity|].
    right. split; [reflexivity|]. right. left. reflexivity.
Qed.

(** The loop: counters, errors and time together. *)
Lemma txer_loop_invariant (inputs : list tx_input) (t : Test) :
  forall lastSend p r p',
    test p = Some t ->
    is_int32 (txCount p) ->
    TxRequests t <= MaxInt32 ->
    txer_loop Block_Tx log inputs lastSend p = (r, p') ->
    (test p' = Some t /\ rxSequence p' = rxSequence p
     /\ rxCount p' = rxCount p /\ lastRx p' = lastRx p
     /\ len (latencies p') <= len (latencies p))
    /\ (0 <= txCount p' - txCount p <= len inputs
        /\ txCount p' <= Z.max (txCount p) (TxRequests t))
    /\ (forall lastSend', r = Ok (Waiting, lastSend') ->
                          txCount p' < TxRequests t)
    /\ (errors p' = errors p
        \/ exists e lastSend',
             errors p' = errors p ++ [e] /\ r = Ok (Returned, lastSend'))
    /\ (forall pr lastSend',
           r = Ok (pr, lastSend') ->
           lastSend
           + (txCount p' - txCount p)
             * (Z.max 0 (TxPacing t) * Millisecond) <= lastSend')
    /\ (forall e, r <> Err e).
Proof.
  assert (Hms : forall z, 0 <= Z.max 0 z * Millisecond)
    by (intros; unfold Millisecond; lia).
  induction inputs as [|i inputs IH]; intros lastSend p r p' Ht Hc Hmax H.
  - cbn [txer_loop] in H. unfold bind, get_test, gets in H. rewrite Ht in H.
    destruct (Z.ltb_spec (txCount p) (TxRequests t)).
    + injection H as <- <-. unfold len. cbn [List.length].
      rewrite Z.sub_diag.
      repeat split; try lia; try discriminate; auto.
      * intros pr ls' E. injection E as _ <-. lia.
    + injection H as <- <-. cbn. unfold len. cbn. rewrite Z.sub_diag.
      repeat split; try lia; try discriminate; auto.
      * intros pr ls' E. injection E as _ <-. lia.
  - cbn [txer_loop] in H. unfold bind at 1 2, get_test, gets in H.
    rewrite Ht in H.
    assert (Hlen : len (i :: inputs) = len inputs + 1)
      by (unfold len; cbn [List.length]; lia).
    assert (Hl0 : 0 <= len inputs) by (unfold len; lia).
    destruct (Z.ltb_spec (txCount p) (TxRequests t)) as [Hlt|Hge].
    2:{ injection H as <- <-. cbn. rewrite Z.sub_diag.
        repeat split; try lia; try discriminate; auto.
        intros pr ls' E. injection E as _ <-. lia. }
    unfold bind in H.
    destruct (txer_iter Block_Tx log i lastSend p) as [r1 p1] eqn:E1.
    destruct (txer_iter_cases i lastSend t p r1 p1 Ht E1)
      as ((G1 & G2 & G3 & G4 & G5) & Hcase).
    destruct Hcase as [(ls1 & -> & Hls & Hcnt & Herr)
                      |(Hcnt & [(ls1 & e & -> & Hls & Herr)
                               |(Herr & [(ls1 & -> & Hls)|[->|[v ->]]])])].
    + assert (Hstep : txCount p1 = txCount p + 1).
      { rewrite Hcnt. apply to_int32_small.
        unfold is_int32, MinInt32, MaxInt32 in *. lia. }
      destruct (IH ls1 p1 r p' G1
                   ltac:(unfold is_int32, MinInt32, MaxInt32 in *; lia)
                   Hmax H)
        as ((K1 & K2 & K3 & K4 & K5) & (Kc & Kb) & Kw & Ke & Kt & Kn).
      split; [repeat split; try congruence; lia|].
      split; [rewrite Hlen; lia|].
      split; [exact Kw|].
      split; [rewrite <- Herr; exact Ke|].
      split; [|exact Kn].
      intros pr ls' E. specialize (Kt pr ls' E).
      pose proof (Hms (TxPacing t)). nia.
    + injection H as <- <-.
      split; [repeat split; auto|]. rewrite Hcnt, Z.sub_diag.
      repeat split; try lia; try discriminate; eauto.
      intros pr ls' E. injection E as _ <-. lia.
    + injection H as <- <-.
      split; [repeat split; auto|]. rewrite Hcnt, Z.sub_diag.
      repeat split; try lia; try discriminate; eauto.
      intros pr ls' E. injection E as _ <-. lia.
    + injection H as <- <-.
      split; [repeat split; auto|]. rewrite Hcnt, Z.sub_diag.
      repeat split; try lia; try discriminate; eauto.
    + injection H as <- <-.
      split; [repeat split; auto|]. rewrite Hcnt, Z.sub_diag.
      repeat split; try lia; try discriminate; eauto.
Qed.

End Txer.

(** *** Counting the sends *)

Section TxerSends.

Variable Block_Tx : Block -> M unit.
Variable log : level -> logmsg -> effect.

(** One iteration on a Block, in terms of its one call of [Block.Tx]:
    the Block and the protocol handed to it are those that the latency
    echo and the pacing leave. *)
Lemma txer_iter_send (i : tx_input) (block : Block) (lastSend : Z) p :
  tx_block i = Some block ->
  txer_iter Block_Tx log i lastSend p
  = match (block' <- txer_latency block ;;
           lastSend' <- txer_pacing lastSend (tx_now i) (tx_raw i) ;;
           ret (block', lastSend')) p with
    | (Ok (sent, lastSend'), p1) =>
        match Block_Tx sent p1 with
        | (Ok _, p2) =>
            (Ok (Continue, lastSend'),
             set_txCount (to_int32 (txCount p2 + 1)) p2)
        | (Err err, p2) =>
            (errors_send err ;; ret (Return, lastSend'))
              (set_effects (effects p2 ++ [log Error (MsgSendErr err)]) p2)
        | (Panicked v, p2) => (Panicked v, p2)
        | (Parked, p2) => (Parked, p2)
        end
    | (Err e, p1) => (Err e, p1)
    | (Panicked v, p1) => (Panicked v, p1)
    | (Parked, p1) => (Parked, p1)
    end.
Proof.
  intros Hi. unfold txer_iter. rewrite Hi.
  unfold txer_send, try, bind, ret.
  destruct (txer_latency block p) as [[b1|e|v|] p0]; try reflexivity.
  destruct (txer_pacing lastSend (tx_now i) (tx_raw i) p0)
    as [[ls1|e|v|] p1]; try reflexivity.
  destruct (Block_Tx b1 p1) as [[[]|err|v|] p2]; reflexivity.
Qed.

Hypothesis Block_Tx_io : forall block, io_only (Block_Tx block).

(** Before the call of [Block.Tx] neither the counter nor the error
    queue has moved. *)
Lemma txer_before_send (i : tx_input) (block : Block) (lastSend : Z)
      (t : Test) p :
  test p = Some t ->
  exists sent lastSend' p1,
    (block' <- txer_latency block ;;
     lastSend' <- txer_pacing lastSend (tx_now i) (tx_raw i) ;;
     ret (block', lastSend')) p = (Ok (sent, lastSend'), p1)
    /\ txCount p1 = txCount p /\ errors p1 = errors p.
Proof.
  intros Ht.
  destruct (txer_latency_cases block p) as (b1 & q & Hl & _).
  destruct (txer_pacing_cases lastSend (tx_now i) (tx_raw i) t
              (set_latencies q p) Ht) as (ls1 & l & Hp & _).
  exists b1, ls1, (set_effects l (set_latencies q p)).
  rewrite (bind_Ok _ _ _ _ _ Hl), (bind_Ok _ _ _ _ _ Hp).
  repeat split.
Qed.

(** An iteration that tells the loop to return and queued no error met
    the nil of the closed generator queue. *)
Lemma txer_iter_return_quiet (i : tx_input) (lastSend lastSend' : Z)
      (t : Test) p p' :
  test p = Some t ->
  txer_iter Block_Tx log i lastSend p = (Ok (Return, lastSend'), p') ->
  errors p' = errors p ->
  tx_block i = None.
Proof.
  intros Ht H He. destruct (tx_block i) as [block|] eqn:Hi; [|reflexivity].
  exfalso. rewrite (txer_iter_send i block lastSend p Hi) in H.
  destruct (txer_before_send i block lastSend t p Ht)
    as (sent & ls1 & p1 & Hb & _ & He1).
  rewrite Hb in H.
  destruct (Block_Tx sent p1) as [[[]|err|v|] p2] eqn:E;
    try discriminate.
  pose proof (proj1 (same_but_io_fields _ _) (Block_Tx_io _ _ _ _ E))
    as (_ & _ & _ & _ & _ & _ & F7).
  unfold bind, errors_send in H. cbn [errors set_effects] in H.
  destruct (len (errors p2) <? errors_cap); [|discriminate].
  injection H as _ <-. cbn [errors set_errors] in He.
  rewrite F7, He1 in He.
  apply (f_equal (@List.length error)) in He.
  rewrite length_app in He. cbn [List.length] in He. lia.
Qed.

(** The loop counts exactly: a loop that is waiting has sent and counted
    every Block it was given; a loop that returned without an error and
    without the generator's queue being closed has reached the total; a
    failed send is not counted. *)
Lemma txer_loop_exact (inputs : list tx_input) (t : Test) :
  forall lastSend p r p',
    test p = Some t ->
    is_int32 (txCount p) ->
    TxRequests t <= MaxInt32 ->
    txer_loop Block_Tx log inputs lastSend p = (r, p') ->
    (forall lastSend', r = Ok (Waiting, lastSend') ->
                       txCount p' = txCount p + len inputs)
    /\ (forall lastSend',
          r = Ok (Returned, lastSend') ->
          errors p' = errors p ->
          Forall (fun i => tx_block i <> None) inputs ->
          TxRequests t <= txCount p')
    /\ (errors p' <> errors p -> txCount p' - txCount p < len inputs).
Proof.
  induction inputs as [|i inputs IH]; intros lastSend p r p' Ht Hc Hmax H.
  - cbn [txer_loop] in H. unfold bind, get_test, gets in H. rewrite Ht in H.
    destruct (Z.ltb_spec (txCount p) (TxRequests t)).
    + injection H as <- <-. unfold len. cbn [List.length].
      split; [intros; lia|]. split; [discriminate|].
      intros Hne. contradiction.
    + injection H as <- <-. cbn [txCount errors set_effects].
      split; [discriminate|]. split; [intros; lia|].
      intros Hne. contradiction.
  - cbn [txer_loop] in H. unfold bind at 1 2, get_test, gets in H.
    rewrite Ht in H.
    assert (Hlen : len (i :: inputs) = len inputs + 1)
      by (unfold len; cbn [List.length]; lia).
    assert (Hl0 : 0 <= len inputs) by (unfold len; lia).
    destruct (Z.ltb_spec (txCount p) (TxRequests t)) as [Hlt|Hge].
    2:{ injection H as <- <-. cbn [txCount errors set_effects].
        split; [discriminate|]. split; [intros; lia|].
        intros Hne. contradiction. }
    unfold bind in H.
    destruct (txer_iter Block_Tx log i lastSend p) as [r1 p1] eqn:E1.
    destruct (txer_iter_cases Block_Tx log Block_Tx_io i lastSend t p r1 p1
                Ht E1)
      as ((G1 & _) & Hcase).
    destruct Hcase as [(ls1 & -> & _ & Hcnt & Herr)
                      |(Hcnt & [(ls1 & e & -> & _ & Herr)
                               |(Herr & [(ls1 & -> & _)|[->|[v ->]]])])].
    + assert (Hstep : txCount p1 = txCount p + 1).
      { rewrite Hcnt. apply to_int32_small.
        unfold is_int32, MinInt32, MaxInt32 in *. lia. }
      destruct (IH ls1 p1 r p' G1
                   ltac:(unfold is_int32, MinInt32, MaxInt32 in *; lia)
                   Hmax H) as (K1 & K2 & K3).
      rewrite Herr in K2, K3. split; [|split].
      * intros ls' E. rewrite (K1 ls' E). lia.
      * intros ls' E He Hall. inversion Hall; subst. eauto.
      * intros Hne. specialize (K3 Hne). lia.
    + injection H as <- <-. split; [discriminate|]. split.
      * intros ls' _ He. exfalso. rewrite Herr in He.
        apply (f_equal (@List.length error)) in He.
        rewrite length_app in He. cbn [List.length] in He. lia.
      * intros _. lia.
    + injection H as <- <-. split; [discriminate|]. split.
      * intros ls' _ He Hall. exfalso. inversion Hall; subst.
        pose proof (txer_iter_return_quiet i lastSend ls1 t p p1 Ht E1 Herr).
        contradiction.
      * intros Hne. contradiction.
    + injection H as <- <-. split; [discriminate|].
      split; [discriminate|]. intros Hne. contradiction.
    + injection H as <- <-. split; [discriminate|].
      split; [discriminate|]. intros Hne. contradiction.
Qed.

End TxerSends.

(** X9.  The transmit counter.  With a [Block.Tx] that acts on the
    connection and the log only, the transmit loop counts the Blocks it
    has sent, exactly.  In one iteration the Block that the latency echo
    leaves is handed to [Block.Tx] after the pacing; when [Block.Tx]
    returns nil the protocol is as [Block.Tx] left it with the counter
    one up and the loop goes on, and when it returns an error the
    counter stays and the loop returns (or is suspended on a full error
    queue).  Over the loop: a loop that is waiting for the generator
    has sent and counted every Block it was given and is below the
    total; a loop that returned with no error queued, all its inputs
    being Blocks, has reached the total; a loop that queued an error has
    returned and has counted fewer Blocks than it was given.  The
    counter never passes the total nor wraps, and the receive side is
    not touched. *)
Theorem txer_loop_counts
        (Block_Tx : Block -> M unit) (log : level -> logmsg -> effect)
        (t : Test) :
  (forall block, io_only (Block_Tx block)) ->
  TxRequests t <= MaxInt32 ->
  (forall (i : tx_input) (block : Block) (lastSend : Z) (p : protocol),
      test p = Some t ->
      tx_block i = Some block ->
      exists sent lastSend' p1,
        (block' <- txer_latency block ;;
         lastSend' <- txer_pacing lastSend (tx_now i) (tx_raw i) ;;
         ret (block', lastSend')) p = (Ok (sent, lastSend'), p1)
        /\ match Block_Tx sent p1 with
           | (Ok _, p2) =>
               txer_iter Block_Tx log i lastSend p
               = (Ok (Continue, lastSend'),
                  set_txCount (to_int32 (txCount p + 1)) p2)
           | (Err err, p2) =>
               txCount (snd (txer_iter Block_Tx log i lastSend p))
               = txCount p
               /\ (fst (txer_iter Block_Tx log i lastSend p)
                   = Ok (Return, lastSend')
                   \/ fst (txer_iter Block_Tx log i lastSend p) = Parked)
           | (Panicked v, p2) =>
               txer_iter Block_Tx log i lastSend p = (Panicked v, p2)
           | (Parked, p2) =>
               txer_iter Block_Tx log i lastSend p = (Parked, p2)
           end)
  /\ (forall (inputs : list tx_input) (lastSend : Z)
             (p : protocol) (r : result (progress * Z)) (p' : protocol),
      test p = Some t ->
      is_int32 (txCount p) ->
      txer_loop Block_Tx log inputs lastSend p = (r, p') ->
      0 <= txCount p' - txCount p <= len inputs
      /\ txCount p' <= Z.max (txCount p) (TxRequests t)
      /\ (forall lastSend',
            r = Ok (Waiting, lastSend') ->
            txCount p' = txCount p + len inputs
            /\ txCount p' < TxRequests t)
      /\ (forall lastSend',
            r = Ok (Returned, lastSend') ->
            errors p' = errors p ->
            Forall (fun i => tx_block i <> None) inputs ->
            txCount p' = Z.max (txCount p) (TxRequests t))
      /\ (errors p' = errors p
          \/ exists e lastSend',
               errors p' = errors p ++ [e]
               /\ r = Ok (Returned, lastSend')
               /\ txCount p' - txCount p < len inputs)
      /\ (rxSequence p' = rxSequence p /\ rxCount p' = rxCount p
          /\ lastRx p' = lastRx p)).
Proof.
  intros Hio Hmax. split.
  - intros i block lastSend p Ht Hi.
    destruct (txer_before_send i block lastSend t p Ht)
      as (sent & ls1 & p1 & Hb & Hc1 & He1).
    exists sent, ls1, p1. split; [exact Hb|].
    rewrite (txer_iter_send Block_Tx log i block lastSend p Hi), Hb.
    destruct (Block_Tx sent p1) as [[[]|err|v|] p2] eqn:E;
      try reflexivity;
      pose proof (proj1 (same_but_io_fields _ _) (Hio _ _ _ _ E))
        as (_ & _ & F3 & _).
    + rewrite F3, Hc1. reflexivity.
    + unfold bind, errors_send. cbn [errors set_effects].
      destruct (len (errors p2) <? errors_cap); cbn; rewrite F3, Hc1; auto.
  - intros inputs lastSend p r p' Ht Hc H.
    destruct (txer_loop_invariant Block_Tx log Hio inputs t lastSend p r p'
                Ht Hc Hmax H)
      as ((_ & K2 & K3 & K4 & _) & (Kc & Kb) & Kw & Ke & _ & _).
    destruct (txer_loop_exact Block_Tx log Hio inputs t lastSend p r p'
                Ht Hc Hmax H) as (X1 & X2 & X3).
    split; [exact Kc|]. split; [exact Kb|].
    split; [intros ls' E; split; [exact (X1 ls' E)|exact (Kw ls' E)]|].
    split; [|split; [|auto]].
    + intros ls' E He Hall. specialize (X2 ls' E He Hall). lia.
    + destruct Ke as [Ke|(e & ls' & Ke & Kr)]; [left; exact Ke|].
      right. exists e, ls'. split; [exact Ke|]. split; [exact Kr|].
      apply X3. rewrite Ke. intros Heq.
      apply (f_equal (@List.length error)) in Heq.
      rewrite length_app in Heq. cbn [List.length] in Heq. lia.
Qed.

(** X10.  The scheduling law.  With a pacing interval of P
    milliseconds, each send moves the scheduled instant [lastSend]
    forward by P milliseconds at least: when the loop stops, [lastSend]
    is at least its initial value plus P milliseconds for every Block
    sent. *)
Theorem txer_loop_schedule
        (Block_Tx : Block -> M unit) (log : level -> logmsg -> effect)
        (inputs : list tx_input) (lastSend lastSend' : Z) (t : Test)
        (p : protocol) (pr : progress) (p' : protocol) :
  (forall block, io_only (Block_Tx block)) ->
  test p = Some t ->
  is_int32 (txCount p) ->
  TxRequests t <= MaxInt32 ->
  0 < TxPacing t ->
  txer_loop Block_Tx log inputs lastSend p = (Ok (pr, lastSend'), p') ->
  lastSend + (txCount p' - txCount p) * (TxPacing t * Millisecond)
  <= lastSend'.
Proof.
  intros Hio Ht Hc Hmax Hp H.
  destruct (txer_loop_invariant Block_Tx log Hio inputs t lastSend p _ p'
              Ht Hc Hmax H)
    as (_ & _ & _ & _ & Kt & _).
  specialize (Kt pr lastSend' eq_refl).
  rewrite Z.max_r in Kt by lia. exact Kt.
Qed.

Lemma io_only_sample_Block_Tx (block : Block) :
  io_only (sample_Block_Tx block).
Proof. apply io_only_txPb. Qed.

Lemma io_only_sample_Block_Rx (block : Block) :
  io_only (sample_Block_Rx block).
Proof. apply io_only_rxPb. Qed.

(** Two Blocks offered to a loop with a transmit total of 5: both are
    sent and counted, and the loop waits for more. *)
Lemma txer_loop_counts_witness :
  let b (n : Z) := mkBlock n BlockTypePlain [x2a] (sample_digest [x2a]) 0 in
  let i (n : Z) := mkTxInput (Some (b n)) (n * 1000000) 0 in
  let p := set_test (Some (sample_test 5 0 100 0 0))
                    (newProtocol (quiet_stream [] io_EOF)) in
  let p' := snd (txer_loop sample_Block_Tx sample_log [i 0; i 1] 0 p) in
  txCount p' = 2
  /\ tx_data (peer p')
     = frame [x00; x00; x2a] ++ frame [x01; x00; x2a].
Proof.
  intros b i p p'. split; [|reflexivity].
  destruct (txer_loop sample_Block_Tx sample_log [i 0; i 1] 0 p)
    as [r q] eqn:E.
  assert (Hr : r = Ok (Waiting, 200000000))
    by (vm_compute in E; injection E as <- _; reflexivity).
  exact (proj1 (proj1 (proj2 (proj2
           (proj2 (txer_loop_counts sample_Block_Tx sample_log
                     (sample_test 5 0 100 0 0)
                     io_only_sample_Block_Tx
                     ltac:(unfold MaxInt32; cbn; lia))
                  [i 0; i 1] 0 p r q eq_refl
                  ltac:(unfold is_int32, MinInt32, MaxInt32; cbn; lia)
                  E)))
           200000000 Hr)).
Defined.

(** Three Blocks offered to a loop with a transmit total of 2 and an
    interval of 100 ms. *)
Lemma txer_loop_schedule_witness :
  let b (n : Z) := mkBlock n BlockTypePlain [x2a] (sample_digest [x2a]) 0 in
  let i (n : Z) := mkTxInput (Some (b n)) (n * 1000000) 0 in
  let p := set_test (Some (sample_test 2 0 100 0 0))
                    (newProtocol (quiet_stream [] io_EOF)) in
  exists pr lastSend' p',
    txer_loop sample_Block_Tx sample_log [i 0; i 1; i 2] 0 p
    = (Ok (pr, lastSend'), p')
    /\ 200000000 <= lastSend'.
Proof.
  intros b i p.
  destruct (txer_loop sample_Block_Tx sample_log [i 0; i 1; i 2] 0 p)
    as [[[pr ls']|e|v|] p'] eqn:E; try (vm_compute in E; discriminate).
  exists pr, ls', p'. split; [reflexivity|].
  pose proof (txer_loop_schedule sample_Block_Tx sample_log
                [i 0; i 1; i 2] 0 ls' (sample_test 2 0 100 0 0) p pr p'
                io_only_sample_Block_Tx eq_refl
                ltac:(unfold is_int32, MinInt32, MaxInt32; cbn; lia)
                ltac:(unfold MaxInt32; cbn; lia)
                ltac:(cbn; lia) E) as H.
  assert (Hc : txCount p' = 2) by (vm_compute in E; injection E as _ _ <-;
                                   reflexivity).
  rewrite Hc in H. cbn in H. unfold Millisecond in H. lia.
Defined.

(** ** The receive loop *)

Section Rxer.

Variable Block_Rx : Block -> M Block.
Hypothesis Block_Rx_io : forall block, io_only (Block_Rx block).

(** Every way a turn of the receive loop can end. *)
Lemma rxer_turn_cases (fresh : bool) (now_ms : Z) (t : Test) p r p' :
  test p = Some t ->
  rxer_turn Block_Rx fresh now_ms p = (r, p') ->
  (test p' = Some t /\ rxSequence p' = rxSequence p
   /\ txCount p' = txCount p)
  /\ ((exists block,
          r = Ok (RxSends block)
          /\ rxCount p < RxRequests t
          /\ rxCount p' = to_int32 (rxCount p + 1)
          /\ lastRx p' = now_ms
          /\ errors p' = errors p
          /\ (latencies p' = latencies p
              \/ (Type_ block = BlockTypeLatencyRequest
                  /\ len (latencies p) < latencies_cap
                  /\ latencies p' = latencies p ++ [Timestamp block])))
      \/ (rxCount p' = rxCount p /\ latencies p' = latencies p
          /\ lastRx p' = lastRx p
          /\ ((r = Ok RxCloses /\ RxRequests t <= rxCount p
               /\ errors p' = errors p /\ peer p' = peer p)
              \/ (r = Ok RxFails /\ rxCount p < RxRequests t
                  /\ exists e, errors p' = errors p ++ [e])
              \/ ((r = Parked \/ exists v, r = Panicked v)
                  /\ rxCount p < RxRequests t
                  /\ errors p' = errors p)))).
Proof.
  intros Ht H. unfold rxer_turn in H.
  unfold bind at 1, get_test in H. rewrite Ht in H.
  set (l0 := if fresh
             then effects p ++ [Log (Name t) Debug (Msg "started")]
             else effects p) in *.
  assert (H0 : (if fresh
                then emit (Log (Name t) Debug (Msg "started")) else ret tt) p
               = (Ok tt, set_effects l0 p)).
  { unfold l0. destruct fresh; [reflexivity|]. destruct p; reflexivity. }
  rewrite (bind_Ok _ _ _ _ _ H0) in H.
  unfold bind at 1, gets in H.
  cbn [rxCount set_effects] in H.
  destruct (Z.ltb_spec (rxCount p) (RxRequests t)) as [Hlt|Hge].
  2:{ injection H as <- <-. cbn. rewrite Ht.
      split; [auto|]. right. repeat split. left. auto. }
  unfold bind at 1, rxer_iter, bind at 1, try, rxBlock in H.
  destruct (Block_Rx zero_Block (set_effects l0 p)) as [r1 p1] eqn:E1.
  pose proof (proj1 (same_but_io_fields _ _) (Block_Rx_io _ _ _ _ E1))
    as (F1 & F2 & F3 & F4 & F5 & F6 & F7).
  cbn [test rxSequence txCount rxCount lastRx latencies errors
       set_effects] in F1, F2, F3, F4, F5, F6, F7.
  destruct r1 as [block|e|v|].
  - unfold bind at 1 in H.
    destruct (BlockType_eqb (Type_ block) BlockTypeLatencyRequest) eqn:Ety.
    + unfold bind at 1, latencies_offer in H.
      destruct (Z.ltb_spec (len (latencies p1)) latencies_cap) as [Hr|Hr];
        injection H as <- <-; cbn;
        rewrite ?F1, ?F2, ?F3, ?F4, ?F5, ?F6, ?F7;
        (split; [auto|]); left; exists block; repeat split; auto.
      right. destruct (Type_ block); try discriminate.
      rewrite <- F6. auto.
    + injection H as <- <-. cbn.
      rewrite ?F1, ?F2, ?F3, ?F4, ?F5, ?F6, ?F7.
      split; [auto|]. left. exists block. repeat split; auto.
  - unfold bind, errors_send, emit, modify, ret in H.
    destruct (len (errors p1) <? errors_cap); injection H as <- <-; cbn;
      rewrite ?F1, ?F2, ?F3, ?F4, ?F5, ?F6, ?F7;
      (split; [auto|]); right;
      (split; [reflexivity|]); (split; [reflexivity|]);
      (split; [reflexivity|]); right.
    + left. eauto.
    + right. auto.
  - injection H as <- <-. rewrite ?F1, ?F2, ?F3, ?F4, ?F5, ?F6, ?F7.
    split; [auto|]. right. do 3 (split; [reflexivity|]).
    right. right. eauto.
  - injection H as <- <-. rewrite ?F1, ?F2, ?F3, ?F4, ?F5, ?F6, ?F7.
    split; [auto|]. right. do 3 (split; [reflexivity|]).
    right. right. auto.
Qed.

End Rxer.

(** ** The session as a whole *)

Lemma len_snoc {A} (l : list A) (x : A) : len (l ++ [x]) = len l + 1.
Proof. unfold len. rewrite length_app. cbn [List.length]. lia. Qed.

Lemma len_nonneg {A} (l : list A) : 0 <= len l.
Proof. unfold len. lia. Qed.

Lemma returned_range (g : gstate) : 0 <= returned g <= 1.
Proof. destruct g; cbn; lia. Qed.

Lemma returned_runnable (g : gstate) : runnable g = true -> returned g = 0.
Proof. destruct g; cbn; intros; try discriminate; reflexivity. Qed.

Lemma started_step (fresh : bool) (l : effect) (p : protocol) :
  (if fresh then emit l else ret tt) p
  = (Ok tt, set_effects (if fresh then effects p ++ [l] else effects p) p).
Proof. destruct fresh; [reflexivity|]. destruct p; reflexivity. Qed.

Section Session.

Variable sha512_Sum512 : list byte -> list byte.
Variable Block_Tx : Block -> M unit.
Variable Block_Rx : Block -> M Block.
Hypothesis Block_Tx_io : forall block, io_only (Block_Tx block).
Hypothesis Block_Rx_io : forall block, io_only (Block_Rx block).
Variable t : Test.
Hypothesis TxRequests_int32 : TxRequests t <= MaxInt32.
Hypothesis RxRequests_int32 : RxRequests t <= MaxInt32.

(** Every way a turn of the transmit loop can end. *)
Lemma txer_turn_cases (fresh : bool) (inputs : list tx_input) (ls : Z)
      p r p' :
  test p = Some t ->
  0 <= txCount p <= Z.max 0 (TxRequests t) ->
  txer_turn Block_Tx fresh inputs ls p = (r, p') ->
  (test p' = Some t /\ rxSequence p' = rxSequence p
   /\ rxCount p' = rxCount p
   /\ len (latencies p') <= len (latencies p))
  /\ 0 <= txCount p' <= Z.max 0 (TxRequests t)
  /\ (errors p' = errors p
      \/ exists e ls', errors p' = errors p ++ [e]
                       /\ r = Ok (Returned, ls'))
  /\ (forall e, r <> Err e).
Proof.
  intros Ht Hc H. unfold txer_turn in H.
  unfold bind at 1, get_test in H. rewrite Ht in H.
  rewrite (bind_Ok _ _ _ _ _ (started_step fresh _ p)) in H.
  set (p0 := set_effects _ p) in H.
  unfold bind at 1 in H.
  destruct (txer_loop Block_Tx (Log (Name t)) inputs ls p0)
    as [r1 p1] eqn:E.
  assert (Hc0 : is_int32 (txCount p0)).
  { unfold is_int32, MinInt32, MaxInt32 in *. cbn. lia. }
  destruct (txer_loop_invariant Block_Tx (Log (Name t)) Block_Tx_io
              inputs t ls p0 r1 p1 Ht Hc0 TxRequests_int32 E)
    as ((K1 & K2 & K3 & _ & K5) & (Kc & Kb) & _ & Ke & _ & Kn).
  cbn [p0 test rxSequence rxCount latencies txCount errors set_effects]
    in K1, K2, K3, K5, Kc, Kb, Ke.
  assert (Hb : 0 <= txCount p1 <= Z.max 0 (TxRequests t)) by lia.
  destruct r1 as [[pr ls']|e|v|].
  - destruct pr; injection H as <- <-; cbn;
      (split; [auto|]); (split; [exact Hb|]); (split; [|discriminate]).
    + destruct Ke as [Ke|(e & l' & Ke & Kr)]; [auto|discriminate].
    + destruct Ke as [Ke|(e & l' & Ke & Kr)]; [auto|]. right. eauto.
  - exfalso. exact (Kn e eq_refl).
  - injection H as <- <-.
    split; [auto|]. split; [exact Hb|]. split; [|discriminate].
    destruct Ke as [Ke|(e & l' & _ & Kr)]; [auto|discriminate].
  - injection H as <- <-.
    split; [auto|]. split; [exact Hb|]. split; [|discriminate].
    destruct Ke as [Ke|(e & l' & _ & Kr)]; [auto|discriminate].
Qed.

(** The verifier loop never ends in a returned error. *)
Lemma verifier_loop_no_Err (log : level -> logmsg -> effect)
      (evs : list verifier_event) :
  forall p r p',
    verifier_loop sha512_Sum512 log evs p = (r, p') ->
    forall e, r <> Err e.
Proof.
  induction evs as [|ev evs IH]; intros p r p' H e.
  - injection H as <- _. discriminate.
  - cbn [verifier_loop] in H. unfold bind in H.
    destruct (verifier_iter sha512_Sum512 log ev p) as [r1 p1] eqn:E.
    destruct (verifier_iter_cases sha512_Sum512 log ev p r1 p1 E)
      as [[-> _]|[[-> _]|[(-> & _)|[[->|[v ->]] _]]]].
    + exact (IH _ _ _ H e).
    + injection H as <- _. discriminate.
    + injection H as <- _. discriminate.
    + injection H as <- _. discriminate.
    + injection H as <- _. discriminate.
Qed.

(** Every way a turn of the verifier can end. *)
Lemma verifier_turn_cases (fresh : bool) (evs : list verifier_event)
      p r p' :
  test p = Some t ->
  0 <= rxSequence p ->
  verifier_turn sha512_Sum512 fresh evs p = (r, p') ->
  (test p' = Some t /\ txCount p' = txCount p /\ rxCount p' = rxCount p
   /\ latencies p' = latencies p)
  /\ 0 <= rxSequence p' <= rxSequence p + len evs
  /\ (errors p' = errors p
      \/ exists e, errors p' = errors p ++ [e] /\ r = Ok Returned)
  /\ (forall e, r <> Err e).
Proof.
  intros Ht Hs H. unfold verifier_turn in H.
  unfold bind at 1, get_test in H. rewrite Ht in H.
  rewrite (bind_Ok _ _ _ _ _ (started_step fresh _ p)) in H.
  set (p0 := set_effects _ p) in H.
  unfold bind at 1 in H.
  destruct (verifier_loop sha512_Sum512 (Log (Name t)) evs p0)
    as [r1 p1] eqn:E.
  pose proof (verifier_loop_no_Err _ _ _ _ _ E) as Kn.
  destruct (verifier_loop_effect sha512_Sum512 (Log (Name t)) evs
              p0 r1 p1 E)
    as ((K1 & K2 & K3 & _ & K5) & _ & Kseq & Ke).
  cbn [p0 test rxSequence rxCount latencies txCount errors set_effects]
    in K1, K2, K3, K5, Kseq, Ke.
  specialize (Kseq Hs). rewrite Ht in K1.
  assert (Ke' : errors p1 = errors p
                \/ exists e, errors p1 = errors p ++ [e]
                             /\ r1 = Ok Returned).
  { destruct Ke as [[Ke _]|(e & Ke & _ & Kr)]; [auto|eauto]. }
  destruct r1 as [pr|e|v|].
  - destruct pr; injection H as <- <-; cbn;
      (split; [auto|]); (split; [exact Kseq|]); (split; [|discriminate]).
    + destruct Ke' as [Ke'|(e & _ & Kr)]; [auto|discriminate].
    + exact Ke'.
  - exfalso. exact (Kn e eq_refl).
  - injection H as <- <-.
    split; [auto|]. split; [exact Kseq|]. split; [|discriminate].
    destruct Ke' as [Ke'|(e & _ & Kr)]; [auto|discriminate].
  - injection H as <- <-.
    split; [auto|]. split; [exact Kseq|]. split; [|discriminate].
    destruct Ke' as [Ke'|(e & _ & Kr)]; [auto|discriminate].
Qed.

(** A verifier step keeps the invariant when the Block it consumes, if
    any, has been counted by the receive loop. *)
Lemma verifier_step_ok (ev : verifier_event) (s s' : session) :
  test (proto s) = Some t ->
  0 <= rxSequence (proto s) ->
  rxSequence (proto s) + 1 <= rxCount (proto s) \/ 
  (rxSequence (proto s) <= rxCount (proto s)
   /\ match ev with BlockArrives (Some _) => False | _ => True end) ->
  rx_sending s = None ->
  rxCount (proto s) <= Z.max 0 (RxRequests t) ->
  0 <= txCount (proto s) <= Z.max 0 (TxRequests t) ->
  len (latencies (proto s)) <= latencies_cap ->
  len (errors (proto s))
  <= returned (g_txer s) + returned (g_rxer s) ->
  runnable (g_verifier s) = true ->
  verifier_step sha512_Sum512 ev s = Some s' ->
  session_ok t s'.
Proof.
  intros Ht Hs Hrx Hsend Hrc Htc Hlat Herr Hrun H.
  unfold verifier_step in H.
  destruct (verifier_turn sha512_Sum512 (is_fresh (g_verifier s)) [ev]
              (proto s)) as [r p'] eqn:E.
  destruct (verifier_turn_cases _ _ _ _ _ Ht Hs E)
    as ((K1 & K2 & K3 & K4) & Kseq & Ke & _).
  assert (Hseq' : rxSequence p' <= rxCount p').
  { rewrite K3. destruct Hrx as [Hrx|[Hrx Hev]].
    - unfold len in Kseq. cbn in Kseq. lia.
    - destruct ev as [[b|]|now_ms]; [contradiction| |].
      + unfold verifier_turn in E.
        unfold bind at 1, get_test in E. rewrite Ht in E.
        rewrite (bind_Ok _ _ _ _ _ (started_step _ _ _)) in E.
        cbn in E. injection E as _ <-. cbn. exact Hrx.
      + unfold verifier_turn in E.
        unfold bind at 1, get_test in E. rewrite Ht in E.
        rewrite (bind_Ok _ _ _ _ _ (started_step _ _ _)) in E.
        set (p0 := set_effects _ (proto s)) in E.
        unfold bind at 1 in E. cbn [verifier_loop] in E.
        unfold bind at 1 in E.
        rewrite (verifier_iter_timer _ _ now_ms t p0 Ht) in E.
        cbn in E. injection E as _ <-. cbn. exact Hrx. }
  rewrite K3 in Hseq'.
  pose proof (returned_runnable _ Hrun) as Hv0.
  pose proof (returned_range (g_verifier s)) as Hv.
  destruct r as [pr|e|v|]; [| discriminate | |];
    injection H as <-; unfold session_ok, in_flight;
    cbn [proto g_txer g_rxer g_verifier rx_sending];
    rewrite ?Hsend, ?K1, ?K2, ?K3, ?K4;
    (split; [reflexivity|]); (split; [lia|]); (split; [lia|]);
    (split; [lia|]); (split; [lia|]); (split; [lia|]).
  - destruct Ke as [->|(e & -> & Kr)].
    + pose proof (returned_range (after_progress pr)). lia.
    + injection Kr as ->. rewrite len_snoc. cbn [returned after_progress]. lia.
  - destruct Ke as [->|(e & _ & Kr)]; [|discriminate]. lia.
  - destruct Ke as [->|(e & _ & Kr)]; [|discriminate]. cbn [returned]. lia.
Qed.

(** One scheduling decision keeps the invariant. *)
Lemma step_session_ok (d : sched) (s s' : session) :
  session_ok t s ->
  step sha512_Sum512 Block_Tx Block_Rx d s = Some s' ->
  session_ok t s'.
Proof.
  intros (Ht & Hs & Hrx & Hrc & Htc & Hlat & Herr) H.
  unfold step in H. destruct (crashed s) eqn:Hcr; [discriminate|].
  pose proof (returned_range (g_txer s)) as Rt.
  pose proof (returned_range (g_rxer s)) as Rr.
  pose proof (returned_range (g_verifier s)) as Rv.
  destruct d as [i|now_ms| | |now_ms].
  - destruct (runnable (g_txer s)) eqn:Hrun; [|discriminate].
    pose proof (returned_runnable _ Hrun) as R0.
    destruct (txer_turn Block_Tx (is_fresh (g_txer s)) [i] (lastSend_ s)
                (proto s)) as [r p'] eqn:E.
    destruct (txer_turn_cases _ _ _ _ _ _ Ht Htc E)
      as ((K1 & K2 & K3 & K4) & Kc & Ke & _).
    destruct r as [[pr ls']|e|v|]; [| discriminate | |];
      injection H as <-; unfold session_ok, in_flight in *;
      cbn [proto g_txer g_rxer g_verifier rx_sending];
      rewrite ?K1, ?K2, ?K3;
      (split; [reflexivity|]); (split; [lia|]); (split; [lia|]);
      (split; [lia|]); (split; [lia|]); (split; [lia|]).
    + destruct Ke as [->|(e & l' & -> & Kr)].
      * pose proof (returned_range (after_progress pr)). lia.
      * injection Kr as -> _. rewrite len_snoc. cbn [returned after_progress]. lia.
    + destruct Ke as [->|(e & l' & _ & Kr)]; [|discriminate]. lia.
    + destruct Ke as [->|(e & l' & _ & Kr)]; [|discriminate]. cbn [returned]. lia.
  - destruct (runnable (g_rxer s)) eqn:Hrun; [|discriminate].
    destruct (rx_sending s) eqn:Hsend; [discriminate|].
    pose proof (returned_runnable _ Hrun) as R0.
    destruct (rxer_turn Block_Rx (is_fresh (g_rxer s)) now_ms (proto s))
      as [r p'] eqn:E.
    destruct (rxer_turn_cases Block_Rx Block_Rx_io _ _ t _ _ _ Ht E)
      as ((K1 & K2 & K3) & K).
    unfold in_flight in Hrx. rewrite Hsend in Hrx.
    destruct K as [(block & -> & Klt & Kc & _ & Ke & Kl)
                  |(Kc & Kl & _ & [(-> & _ & Ke & _)
                                  |[(-> & _ & e & Ke)
                                   |([->|[v ->]] & _ & Ke)]])].
    + injection H as <-. unfold session_ok, in_flight.
      cbn [proto g_txer g_rxer g_verifier rx_sending].
      assert (Kc' : rxCount p' = rxCount (proto s) + 1).
      { rewrite Kc. apply to_int32_small.
        unfold is_int32, MinInt32, MaxInt32 in *. lia. }
      rewrite K1, K2, K3, Kc', Ke.
      split; [reflexivity|]. split; [lia|]. split; [lia|].
      split; [lia|]. split; [lia|]. split; [|cbn [returned]; lia].
      destruct Kl as [->|(_ & Kroom & ->)]; [lia|].
      rewrite len_snoc. lia.
    + injection H as <-. unfold session_ok, in_flight.
      cbn [proto g_txer g_rxer g_verifier rx_sending].
      rewrite K1, K2, K3, Kc, Kl, Ke.
      split; [reflexivity|]. split; [lia|]. split; [lia|].
      split; [lia|]. split; [lia|]. split; [lia|]. cbn [returned]. lia.
    + injection H as <-. unfold session_ok, in_flight.
      cbn [proto g_txer g_rxer g_verifier rx_sending].
      rewrite K1, K2, K3, Kc, Kl, Ke, len_snoc.
      split; [reflexivity|]. split; [lia|]. split; [lia|].
      split; [lia|]. split; [lia|]. split; [lia|]. cbn [returned]. lia.
    + injection H as <-. unfold session_ok, in_flight.
      cbn [proto g_txer g_rxer g_verifier rx_sending].
      rewrite K1, K2, K3, Kc, Kl, Ke.
      split; [reflexivity|]. split; [lia|]. split; [lia|].
      split; [lia|]. split; [lia|]. split; [lia|]. cbn [returned]. lia.
    + injection H as <-. unfold session_ok, in_flight.
      cbn [proto g_txer g_rxer g_verifier rx_sending].
      rewrite K1, K2, K3, Kc, Kl, Ke.
      split; [reflexivity|]. split; [lia|]. split; [lia|].
      split; [lia|]. split; [lia|]. split; [lia|]. lia.
  - destruct (runnable (g_verifier s)) eqn:Hrun; [|discriminate].
    destruct (rx_sending s) as [block|] eqn:Hsend; [|discriminate].
    unfold in_flight in Hrx. rewrite Hsend in Hrx.
    pose proof (returned_runnable _ Hrun) as R0.
    refine (verifier_step_ok _ _ _ _ _ _ _ _ _ _ _ _ H);
      cbn [proto g_txer g_rxer g_verifier rx_sending]; auto; lia.
  - destruct (runnable (g_verifier s)) eqn:Hrun; [|discriminate].
    cbn [andb] in H.
    destruct (rxBlocks_closed s) eqn:Hcl; [|discriminate].
    pose proof (returned_runnable _ Hrun) as R0.
    unfold in_flight in Hrx.
    destruct (rx_sending s) as [block|] eqn:Hsend.
    + (* a Block on offer stays on offer *)
      assert (H' := H). unfold verifier_step in H'.
      destruct (verifier_turn sha512_Sum512 (is_fresh (g_verifier s))
                  [BlockArrives None] (proto s)) as [r p'] eqn:E.
      unfold verifier_turn in E.
      unfold bind at 1, get_test in E. rewrite Ht in E.
      rewrite (bind_Ok _ _ _ _ _ (started_step _ _ _)) in E.
      cbn in E. injection E as <- <-. injection H' as <-.
      unfold session_ok, in_flight.
      cbn [proto g_txer g_rxer g_verifier rx_sending test rxSequence
           rxCount txCount latencies errors set_effects after_progress
           returned].
      rewrite Ht, Hsend.
      split; [reflexivity|]. split; [lia|]. split; [lia|].
      split; [lia|]. split; [lia|]. split; [lia|]. lia.
    + refine (verifier_step_ok (BlockArrives None) _ _ Ht Hs
                (or_intror (conj _ I)) Hsend Hrc Htc Hlat _ Hrun H); lia.
  - destruct (runnable (g_verifier s)) eqn:Hrun; [|discriminate].
    pose proof (returned_runnable _ Hrun) as R0.
    unfold in_flight in Hrx.
    destruct (rx_sending s) as [block|] eqn:Hsend.
    + assert (H' := H). unfold verifier_step in H'.
      destruct (verifier_turn sha512_Sum512 (is_fresh (g_verifier s))
                  [TimerFires now_ms] (proto s)) as [r p'] eqn:E.
      unfold verifier_turn in E.
      unfold bind at 1, get_test in E. rewrite Ht in E.
      rewrite (bind_Ok _ _ _ _ _ (started_step _ _ _)) in E.
      set (p0 := set_effects _ (proto s)) in E.
      unfold bind at 1 in E. cbn [verifier_loop] in E.
      unfold bind at 1 in E.
      rewrite (verifier_iter_timer _ _ now_ms t p0 Ht) in E.
      cbn in E. injection E as <- <-. injection H' as <-. subst p0.
      unfold session_ok, in_flight.
      cbn [proto g_txer g_rxer g_verifier rx_sending test rxSequence
           rxCount txCount latencies errors set_effects after_progress
           returned].
      rewrite Ht, Hsend.
      split; [reflexivity|]. split; [lia|]. split; [lia|].
      split; [lia|]. split; [lia|]. split; [lia|]. lia.
    + refine (verifier_step_ok (TimerFires now_ms) _ _ Ht Hs
                (or_intror (conj _ I)) Hsend Hrc Htc Hlat _ Hrun H); lia.
Qed.

Lemma steps_session_ok (ds : list sched) :
  forall s s',
    session_ok t s ->
    steps sha512_Sum512 Block_Tx Block_Rx ds s = Some s' ->
    session_ok t s'.
Proof.
  induction ds as [|d ds IH]; intros s s' Hok H.
  - injection H as <-. exact Hok.
  - cbn [steps] in H.
    destruct (step sha512_Sum512 Block_Tx Block_Rx d s) as [s1|] eqn:E;
      [|discriminate].
    exact (IH _ _ (step_session_ok _ _ _ Hok E) H).
Qed.

Lemma run_begin_session_ok (conn : stream) :
  session_ok t (run_begin t (newProtocol conn)).
Proof.
  unfold session_ok, run_begin, in_flight, newProtocol.
  cbn [proto test set_test rxSequence rxCount txCount latencies errors
       rx_sending g_txer g_rxer g_verifier returned].
  unfold len, latencies_cap. cbn [List.length].
  split; [reflexivity|]. split; [lia|]. split; [lia|]. split; [lia|].
  split; [lia|]. split; [lia|].
  destruct (RxRequests t >? 0); cbn [returned]; lia.
Qed.

End Session.

(** X11.  The counters of a session.  Under every schedule, with a
    [Block.Tx] and a [Block.Rx] that act on the connection and the log
    only and totals that are 32-bit numbers, the verifier is never ahead
    of the receive loop (a Block being handed over is counted as
    received, not as verified), and neither counter passes its total or
    wraps. *)
Theorem run_counters_in_order
        (sha512_Sum512 : list byte -> list byte)
        (Block_Tx : Block -> M unit) (Block_Rx : Block -> M Block)
        (t : Test) (conn : stream) (ds : list sched) (s : session) :
  (forall block, io_only (Block_Tx block)) ->
  (forall block, io_only (Block_Rx block)) ->
  TxRequests t <= MaxInt32 ->
  RxRequests t <= MaxInt32 ->
  steps sha512_Sum512 Block_Tx Block_Rx ds (run_begin t (newProtocol conn))
  = Some s ->
  0 <= rxSequence (proto s)
  /\ rxSequence (proto s) + in_flight s <= rxCount (proto s)
  /\ rxCount (proto s) <= Z.max 0 (RxRequests t)
  /\ 0 <= txCount (proto s) <= Z.max 0 (TxRequests t).
Proof.
  intros Htx Hrx HT HR H.
  destruct (steps_session_ok sha512_Sum512 Block_Tx Block_Rx Htx Hrx t
              HT HR ds _ _ (run_begin_session_ok t conn) H)
    as (_ & K1 & K2 & K3 & K4 & _).
  auto.
Qed.

(** X12.  The queues of a session.  Under the same conditions the
    latency queue never holds more than its 1024 places, and the error
    queue holds at most one error for each goroutine that has returned,
    three at most: a send on the error queue never blocks. *)
Theorem run_queues_never_full
        (sha512_Sum512 : list byte -> list byte)
        (Block_Tx : Block -> M unit) (Block_Rx : Block -> M Block)
        (t : Test) (conn : stream) (ds : list sched) (s : session) :
  (forall block, io_only (Block_Tx block)) ->
  (forall block, io_only (Block_Rx block)) ->
  TxRequests t <= MaxInt32 ->
  RxRequests t <= MaxInt32 ->
  steps sha512_Sum512 Block_Tx Block_Rx ds (run_begin t (newProtocol conn))
  = Some s ->
  len (latencies (proto s)) <= latencies_cap
  /\ len (errors (proto s))
     <= returned (g_txer s) + returned (g_rxer s) + returned (g_verifier s)
  /\ len (errors (proto s)) <= 3
  /\ (forall err, fst (errors_send err (proto s)) = Ok tt).
Proof.
  intros Htx Hrx HT HR H.
  destruct (steps_session_ok sha512_Sum512 Block_Tx Block_Rx Htx Hrx t
              HT HR ds _ _ (run_begin_session_ok t conn) H)
    as (_ & _ & _ & _ & _ & K5 & K6).
  pose proof (returned_range (g_txer s)).
  pose proof (returned_range (g_rxer s)).
  pose proof (returned_range (g_verifier s)).
  split; [exact K5|]. split; [exact K6|]. split; [lia|].
  intros err. unfold errors_send.
  destruct (Z.ltb_spec (len (errors (proto s))) errors_cap) as [_|Hfull];
    [reflexivity|].
  unfold errors_cap in Hfull. lia.
Qed.

(** X13.  A failed read leaves the queue open.  A turn of the receive
    loop closes the queue to the verifier exactly when the receive total
    has been reached.  When the turn queued an error instead, the loop
    has returned without closing the queue: the verifier cannot end by
    seeing the close. *)
Theorem rxer_failure_leaves_queue_open
        (sha512_Sum512 : list byte -> list byte)
        (Block_Tx : Block -> M unit) (Block_Rx : Block -> M Block)
        (t : Test) (now_ms : Z) (s s' : session) :
  (forall block, io_only (Block_Rx block)) ->
  test (proto s) = Some t ->
  rxBlocks_closed s = false ->
  step sha512_Sum512 Block_Tx Block_Rx (RunRxer now_ms) s = Some s' ->
  (rxBlocks_closed s' = true <-> RxRequests t <= rxCount (proto s))
  /\ (errors (proto s') <> errors (proto s) ->
      g_rxer s' = Finished
      /\ rxBlocks_closed s' = false
      /\ step sha512_Sum512 Block_Tx Block_Rx VerifierSeesClose s' = None).
Proof.
  intros Hio Ht Hcl H. unfold step in H.
  destruct (crashed s) eqn:Hcr; [discriminate|].
  destruct (runnable (g_rxer s)) eqn:Hrun; [|discriminate].
  destruct (rx_sending s) eqn:Hsend; [discriminate|].
  destruct (rxer_turn Block_Rx (is_fresh (g_rxer s)) now_ms (proto s))
    as [r p'] eqn:E.
  destruct (rxer_turn_cases Block_Rx Hio _ _ t _ _ _ Ht E) as (_ & K).
  destruct K as [(block & -> & Klt & _ & _ & Ke & _)
                |(_ & _ & _ & [(-> & Kge & Ke & _)
                              |[(-> & Klt & e & Ke)
                               |([->|[v ->]] & Klt & Ke)]])];
    injection H as <-; cbn [rxBlocks_closed proto g_rxer].
  - rewrite Hcl. split; [split; [discriminate|lia]|].
    intros Hne. contradiction.
  - split; [split; auto|]. intros Hne. contradiction.
  - rewrite Hcl. split; [split; [discriminate|lia]|].
    intros _. split; [reflexivity|]. split; [reflexivity|].
    unfold step. cbn [crashed g_verifier rxBlocks_closed].
    rewrite andb_false_r. reflexivity.
  - rewrite Hcl. split; [split; [discriminate|lia]|].
    intros Hne. contradiction.
  - rewrite Hcl. split; [split; [discriminate|lia]|].
    intros Hne. contradiction.
Qed.

(** With the receive total reached the receive loop does not read. *)
Lemma rxer_turn_closes (Block_Rx : Block -> M Block) (fresh : bool)
      (now_ms : Z) (t : Test) (p : protocol) :
  test p = Some t ->
  RxRequests t <= rxCount p ->
  rxer_turn Block_Rx fresh now_ms p
  = (Ok RxCloses,
     set_effects
       ((if fresh
         then effects p ++ [Log (Name t) Debug (Msg "started")]
         else effects p)
        ++ [Log (Name t) Info (Msg "rx count reached");
            Log (Name t) Debug (Msg "complete")]) p).
Proof.
  intros Ht Hge. unfold rxer_turn.
  unfold bind at 1, get_test. rewrite Ht.
  rewrite (bind_Ok _ _ _ _ _ (started_step fresh _ p)).
  unfold bind at 1, gets. cbn [rxCount set_effects].
  destruct (Z.ltb_spec (rxCount p) (RxRequests t)) as [Hlt|_]; [lia|].
  cbn. rewrite <- app_assoc. reflexivity.
Qed.

(** A session without a receive total: what every step keeps, and that
    no step depends on [Block.Rx]. *)
Lemma step_without_receive_total
      (sha512_Sum512 : list byte -> list byte)
      (Block_Tx : Block -> M unit) (Block_Rx Block_Rx' : Block -> M Block)
      (t : Test) (d : sched) (s : session) :
  (forall block, io_only (Block_Tx block)) ->
  TxRequests t <= MaxInt32 ->
  RxRequests t <= 0 ->
  test (proto s) = Some t ->
  rxCount (proto s) = 0 ->
  0 <= txCount (proto s) <= Z.max 0 (TxRequests t) ->
  g_verifier s = Absent ->
  step sha512_Sum512 Block_Tx Block_Rx d s
  = step sha512_Sum512 Block_Tx Block_Rx' d s
  /\ forall s',
       step sha512_Sum512 Block_Tx Block_Rx d s = Some s' ->
       test (proto s') = Some t
       /\ rxCount (proto s') = 0
       /\ 0 <= txCount (proto s') <= Z.max 0 (TxRequests t)
       /\ g_verifier s' = Absent
       /\ rxSequence (proto s') = rxSequence (proto s)
       /\ rx_sending s' = rx_sending s.
Proof.
  intros Hio HT HR Ht Hrc Htc Hv. unfold step.
  destruct (crashed s); [split; [reflexivity|discriminate]|].
  destruct d as [i|now_ms| | |now_ms].
  - split; [reflexivity|]. intros s' H.
    destruct (runnable (g_txer s)); [|discriminate].
    destruct (txer_turn Block_Tx (is_fresh (g_txer s)) [i] (lastSend_ s)
                (proto s)) as [r p'] eqn:E.
    destruct (txer_turn_cases Block_Tx Hio t HT _ _ _ _ _ _ Ht Htc E)
      as ((K1 & K2 & K3 & _) & Kc & _ & _).
    destruct r as [[pr ls']|e|v|]; [| discriminate | |];
      injection H as <-; cbn [proto g_verifier rx_sending];
      rewrite K3, Hrc; auto 10.
  - destruct (runnable (g_rxer s)); [|split; [reflexivity|discriminate]].
    destruct (rx_sending s) eqn:Hsend; [split; [reflexivity|discriminate]|].
    rewrite (rxer_turn_closes Block_Rx _ now_ms t _ Ht) by lia.
    rewrite (rxer_turn_closes Block_Rx' _ now_ms t _ Ht) by lia.
    split; [reflexivity|]. intros s' H. injection H as <-.
    cbn [proto g_verifier rx_sending test rxCount txCount rxSequence
         set_effects].
    auto 10.
  - rewrite Hv. cbn [runnable]. split; [reflexivity|discriminate].
  - rewrite Hv. cbn [runnable andb]. split; [reflexivity|discriminate].
  - rewrite Hv. cbn [runnable]. split; [reflexivity|discriminate].
Qed.

(** X14.  A session without a receive total.  When the descriptor asks
    for no Blocks to be received, no verifier is started and the receive
    loop never reads: the session runs the same whatever [Block.Rx]
    would do, and at every point nothing has been received, verified or
    offered to a verifier. *)
Theorem run_without_receive_total
        (sha512_Sum512 : list byte -> list byte)
        (Block_Tx : Block -> M unit) (Block_Rx Block_Rx' : Block -> M Block)
        (t : Test) (conn : stream) (ds : list sched) :
  (forall block, io_only (Block_Tx block)) ->
  TxRequests t <= MaxInt32 ->
  RxRequests t <= 0 ->
  steps sha512_Sum512 Block_Tx Block_Rx ds (run_begin t (newProtocol conn))
  = steps sha512_Sum512 Block_Tx Block_Rx' ds
          (run_begin t (newProtocol conn))
  /\ forall s,
       steps sha512_Sum512 Block_Tx Block_Rx ds
             (run_begin t (newProtocol conn)) = Some s ->
       g_verifier s = Absent /\ rx_sending s = None
       /\ rxCount (proto s) = 0 /\ rxSequence (proto s) = 0.
Proof.
  intros Hio HT HR.
  assert (G : forall ds s0,
             test (proto s0) = Some t ->
             rxCount (proto s0) = 0 ->
             0 <= txCount (proto s0) <= Z.max 0 (TxRequests t) ->
             g_verifier s0 = Absent ->
             steps sha512_Sum512 Block_Tx Block_Rx ds s0
             = steps sha512_Sum512 Block_Tx Block_Rx' ds s0
             /\ forall s,
                  steps sha512_Sum512 Block_Tx Block_Rx ds s0 = Some s ->
                  g_verifier s = Absent /\ rx_sending s = rx_sending s0
                  /\ rxCount (proto s) = 0
                  /\ rxSequence (proto s) = rxSequence (proto s0)).
  { clear ds. induction ds as [|d ds IH]; intros s0 Ht Hrc Htc Hv.
    - split; [reflexivity|]. intros s H. injection H as <-. auto.
    - cbn [steps].
      destruct (step_without_receive_total sha512_Sum512 Block_Tx
                  Block_Rx Block_Rx' t d s0 Hio HT HR Ht Hrc Htc Hv)
        as (Heq & Hk).
      rewrite <- Heq.
      destruct (step sha512_Sum512 Block_Tx Block_Rx d s0) as [s1|];
        [|split; [reflexivity|discriminate]].
      destruct (Hk s1 eq_refl) as (K1 & K2 & K3 & K4 & K5 & K6).
      destruct (IH s1 K1 K2 K3 K4) as (IH1 & IH2).
      split; [exact IH1|]. intros s H.
      destruct (IH2 s H) as (J1 & J2 & J3 & J4).
      rewrite J2, J4, K5, K6. auto. }
  destruct (G ds (run_begin t (newProtocol conn))) as (G1 & G2).
  - reflexivity.
  - reflexivity.
  - cbn. lia.
  - unfold run_begin. cbn [g_verifier].
    destruct (Z.gtb_spec (RxRequests t) 0); [lia|reflexivity].
  - split; [exact G1|]. intros s H.
    destruct (G2 s H) as (J1 & J2 & J3 & J4). auto.
Qed.

(** A session in which one Block goes out and one comes in and is
    verified; every goroutine returns. *)
Lemma run_counters_in_order_witness :
  let b := mkBlock 0 BlockTypePlain [x2a] (sample_digest [x2a]) 0 in
  let conn := quiet_stream (frame [x00; x00; x2a]) io_EOF in
  let ds := [RunTxer (mkTxInput (Some b) 0 0); RunRxer 5; Handoff;
             RunRxer 6; VerifierSeesClose] in
  exists s,
    steps sample_digest sample_Block_Tx sample_Block_Rx ds
          (run_begin (sample_test 1 1 0 0 0) (newProtocol conn)) = Some s
    /\ rxSequence (proto s) <= rxCount (proto s) <= 1.
Proof.
  intros b conn ds.
  destruct (steps sample_digest sample_Block_Tx sample_Block_Rx ds
              (run_begin (sample_test 1 1 0 0 0) (newProtocol conn)))
    as [s|] eqn:E; [|vm_compute in E; discriminate].
  exists s. split; [reflexivity|].
  destruct (run_counters_in_order sample_digest sample_Block_Tx
              sample_Block_Rx (sample_test 1 1 0 0 0) conn ds s
              io_only_sample_Block_Tx io_only_sample_Block_Rx
              ltac:(unfold MaxInt32; cbn; lia)
              ltac:(unfold MaxInt32; cbn; lia) E)
    as (_ & K2 & K3 & _).
  pose proof (Z.le_refl 0) as K0.
  assert (0 <= in_flight s) by (unfold in_flight; destruct (rx_sending s); lia).
  cbn [RxRequests sample_test] in K3. lia.
Defined.

(** A session in which the read fails at once and the Block that goes
    out is verified by nobody: one error is queued. *)
Lemma run_queues_never_full_witness :
  let b := mkBlock 0 BlockTypePlain [x2a] (sample_digest [x2a]) 0 in
  let conn := quiet_stream [] io_EOF in
  let ds := [RunRxer 5; RunTxer (mkTxInput (Some b) 0 0)] in
  exists s,
    steps sample_digest sample_Block_Tx sample_Block_Rx ds
          (run_begin (sample_test 1 1 0 0 0) (newProtocol conn)) = Some s
    /\ len (errors (proto s)) <= 3.
Proof.
  intros b conn ds.
  destruct (steps sample_digest sample_Block_Tx sample_Block_Rx ds
              (run_begin (sample_test 1 1 0 0 0) (newProtocol conn)))
    as [s|] eqn:E; [|vm_compute in E; discriminate].
  exists s. split; [reflexivity|].
  exact (proj1 (proj2 (proj2
           (run_queues_never_full sample_digest sample_Block_Tx
              sample_Block_Rx (sample_test 1 1 0 0 0) conn ds s
              io_only_sample_Block_Tx io_only_sample_Block_Rx
              ltac:(unfold MaxInt32; cbn; lia)
              ltac:(unfold MaxInt32; cbn; lia) E)))).
Defined.

(** The read fails on an empty connection: the loop has returned, the
    queue is open. *)
Lemma rxer_failure_leaves_queue_open_witness :
  let s := run_begin (sample_test 1 1 0 0 0)
                     (newProtocol (quiet_stream [] io_EOF)) in
  exists s',
    step sample_digest sample_Block_Tx sample_Block_Rx (RunRxer 5) s
    = Some s'
    /\ g_rxer s' = Finished /\ rxBlocks_closed s' = false.
Proof.
  intros s.
  destruct (step sample_digest sample_Block_Tx sample_Block_Rx (RunRxer 5) s)
    as [s'|] eqn:E; [|vm_compute in E; discriminate].
  exists s'. split; [reflexivity|].
  destruct (rxer_failure_leaves_queue_open sample_digest sample_Block_Tx
              sample_Block_Rx (sample_test 1 1 0 0 0) 5 s s'
              io_only_sample_Block_Rx eq_refl eq_refl E) as (_ & K).
  assert (Hne : errors (proto s') <> errors (proto s)).
  { vm_compute in E. injection E as <-. discriminate. }
  destruct (K Hne) as (K1 & K2 & _). auto.
Defined.

(** A transmit-only session run with the sample [Block.Rx] and with one
    that would always fail. *)
Lemma run_without_receive_total_witness :
  let b := mkBlock 0 BlockTypePlain [x2a] (sample_digest [x2a]) 0 in
  let conn := quiet_stream [x01] io_EOF in
  let ds := [RunRxer 5; RunTxer (mkTxInput (Some b) 0 0)] in
  steps sample_digest sample_Block_Tx sample_Block_Rx ds
        (run_begin (sample_test 1 0 0 0 0) (newProtocol conn))
  = steps sample_digest sample_Block_Tx (fun _ => fail io_EOF) ds
          (run_begin (sample_test 1 0 0 0 0) (newProtocol conn)).
Proof.
  intros b conn ds.
  exact (proj1 (run_without_receive_total sample_digest sample_Block_Tx
                  sample_Block_Rx (fun _ => fail io_EOF)
                  (sample_test 1 0 0 0 0) conn ds
                  io_only_sample_Block_Tx
                  ltac:(unfold MaxInt32; cbn; lia)
                  ltac:(cbn; lia))).
Defined.

(* ================================================================== *)
(** * Further properties of the configuration command *)

Lemma append_nil_r (s : string) : (s ++ "")%string = s.
Proof. induction s as [|c s IH]; cbn; [reflexivity|rewrite IH; reflexivity]. Qed.

Lemma append_assoc (s1 s2 s3 : string) :
  ((s1 ++ s2) ++ s3)%string = (s1 ++ s2 ++ s3)%string.
Proof.
  induction s1 as [|c s1 IH]; cbn; [reflexivity|rewrite IH; reflexivity].
Qed.



(** What logging a record does to the world. *)
Lemma log_effect (l : level) (m : string) (w : RouterEdge.world) :
  RouterEdge.stdout (RouterEdge.log_ l m w)
  = (RouterEdge.stdout w ++ log_line l m w)%string
  /\ RouterEdge.logged (RouterEdge.log_ l m w)
     = RouterEdge.logged w ++ log_entry l m w
  /\ RouterEdge.files (RouterEdge.log_ l m w) = RouterEdge.files w
  /\ RouterEdge.stat (RouterEdge.log_ l m w) = RouterEdge.stat w
  /\ RouterEdge.create (RouterEdge.log_ l m w) = RouterEdge.create w
  /\ RouterEdge.logger (RouterEdge.log_ l m w) = RouterEdge.logger w.
Proof.
  unfold RouterEdge.log_, log_line, log_entry.
  destruct (RouterEdge.IsLevelEnabled (RouterEdge.logger w) l).
  - cbn. destruct (RouterEdge.Out (RouterEdge.logger w));
      rewrite ?append_nil_r; auto 10.
  - rewrite append_nil_r, app_nil_r. auto 10.
Qed.

(** What is logged depends on the logger only. *)
Lemma log_line_logger (l : level) (m : string) (w w' : RouterEdge.world) :
  RouterEdge.logger w' = RouterEdge.logger w ->
  log_line l m w' = log_line l m w /\ log_entry l m w' = log_entry l m w.
Proof. intros H. unfold log_line, log_entry. rewrite H. auto. Qed.

Section RouterEdgeFiles.

Import RouterEdge.

Variable ConfigTemplateValues : Type.
Variable set_EdgeRouterName :
  string -> ConfigTemplateValues -> ConfigTemplateValues.
Variable set_WssEnabled :
  bool -> ConfigTemplateValues -> ConfigTemplateValues.
Variable set_IsPrivate :
  bool -> ConfigTemplateValues -> ConfigTemplateValues.
Variable Template : Type.
Variable routerConfigEdgeTemplate : string.
Variable template_Parse : string -> Template + error.
Variable template_Execute :
  Template -> ConfigTemplateValues -> string * option error.
Variable strings_ToLower : string -> string.
Variable filepath_Dir : string -> string.

(** [PreRun] acts on the logger only; with [--verbose] every record is
    emitted afterwards, to standard output in file mode and elsewhere in
    standard output mode. *)
Lemma PreRun_logger (options : CreateConfigRouterEdgeOptions)
      (data : ConfigTemplateValues) (w : world) :
  let w' :=
    snd (PreRun set_EdgeRouterName set_WssEnabled set_IsPrivate
                strings_ToLower options data w) in
  (stat w' = stat w /\ create w' = create w /\ files w' = files w
   /\ stdout w' = stdout w /\ logged w' = logged w)
  /\ (Verbose options = false -> w' = w)
  /\ (Verbose options = true ->
      forall l m,
        log_entry l m w' = [(l, m)]
        /\ log_line l m w'
           = if String.eqb (strings_ToLower (Output options)) "stdout"
             then EmptyString else Formatter (logger w) l m).
Proof.
  cbn zeta. unfold PreRun. cbn [snd].
  destruct (Verbose options).
  - split; [repeat split|]. split; [discriminate|].
    intros _ l m. unfold log_entry, log_line, IsLevelEnabled.
    cbn [logger logrus_SetOutput logrus_SetLevel Level Out Formatter].
    destruct (String.eqb (strings_ToLower (Output options)) "stdout");
      destruct l; cbn; auto.
  - split; [repeat split|]. split; [reflexivity|discriminate].
Qed.


(** X16.  When the process exits.  The operation ends the process in
    two situations only: both the private and the wss flag are set, or,
    in file mode with a template that parses, the directory of the
    output path does not exist.  The exit status is then 1 and no file
    has been created or written.  One record is issued at the fatal
    level, with the message of the situation (the second ends in a line
    feed); it is emitted unless the logger is at the panic level, and
    standard output gains its formatted text when the logger writes
    there, as after [PreRun] with [--verbose] in file mode, and nothing
    otherwise. *)
Theorem run_exit_conditions
        (options : CreateConfigRouterEdgeOptions)
        (data : ConfigTemplateValues) (w : world) :
  let result :=
    RouterEdge.run routerConfigEdgeTemplate template_Parse template_Execute
                   strings_ToLower filepath_Dir options data w in
  let conflict :=
    "Flags for private and wss configs are mutually exclusive. You must choose private or wss, not both"%string in
  let missing :=
    ("Provided path: [" ++ (filepath_Dir (Output options) ++ "/")
       ++ "] does not exist" ++ LF)%string in
  ((exists status, fst result = Exits status)
   <-> (IsPrivate options && WssEnabled options = true
        \/ ((exists tmpl, template_Parse routerConfigEdgeTemplate = inl tmpl)
            /\ strings_ToLower (Output options) <> "stdout"%string
            /\ os_IsNotExist
                 (stat w (filepath_Dir
                            (filepath_Dir (Output options) ++ "/")%string))
               = true)))
  /\ (forall status, fst result = Exits status ->
        status = 1
        /\ files (snd result) = files w
        /\ exists m,
             m = (if IsPrivate options && WssEnabled options
                  then conflict else missing)
             /\ logged (snd result) = logged w ++ log_entry Fatal m w
             /\ stdout (snd result)
                = (stdout w ++ log_line Fatal m w)%string
             /\ (Level (logger w) <> PanicLevel ->
                 log_entry Fatal m w = [(Fatal, m)])
             /\ (Out (logger w) <> os_Stdout ->
                 stdout (snd result) = stdout w)
             /\ (forall data0 w0,
                   w = snd (PreRun set_EdgeRouterName set_WssEnabled
                                   set_IsPrivate strings_ToLower
                                   options data0 w0) ->
                   Verbose options = true ->
                   strings_ToLower (Output options) <> "stdout"%string ->
                   stdout (snd result)
                   = (stdout w0 ++ Formatter (logger w0) Fatal m)%string)).
Proof.
  cbn zeta. unfold RouterEdge.run.
  assert (Hfatal : forall m status,
             fst (logrus_Fatal m w) = Exits status ->
             status = 1
             /\ files (snd (logrus_Fatal m w)) = files w
             /\ logged (snd (logrus_Fatal m w))
                = logged w ++ log_entry Fatal m w
             /\ stdout (snd (logrus_Fatal m w))
                = (stdout w ++ log_line Fatal m w)%string
             /\ (Level (logger w) <> PanicLevel ->
                 log_entry Fatal m w = [(Fatal, m)])
             /\ (Out (logger w) <> os_Stdout ->
                 stdout (snd (logrus_Fatal m w)) = stdout w)
             /\ (forall data0 w0,
                   w = snd (PreRun set_EdgeRouterName set_WssEnabled
                                   set_IsPrivate strings_ToLower
                                   options data0 w0) ->
                   Verbose options = true ->
                   strings_ToLower (Output options) <> "stdout"%string ->
                   stdout (snd (logrus_Fatal m w))
                   = (stdout w0 ++ Formatter (logger w0) Fatal m)%string)).
  { intros m status H. injection H as <-. cbn [snd logrus_Fatal].
    destruct (log_effect Fatal m w) as (S1 & L1 & F1 & _).
    split; [reflexivity|]. split; [exact F1|]. split; [exact L1|].
    split; [exact S1|]. split; [|split].
    - intros Hlv. unfold log_entry, IsLevelEnabled.
      destruct (Level (logger w)); cbn; congruence.
    - intros Hout. rewrite S1. unfold log_line.
      destruct (IsLevelEnabled (logger w) Fatal);
        [|apply append_nil_r].
      destruct (Out (logger w)); [contradiction| |]; apply append_nil_r.
    - intros data0 w0 Hw Hv Hmode.
      destruct (PreRun_logger options data0 w0)
        as ((_ & _ & _ & P4 & _) & _ & P).
      cbn zeta in P4, P. rewrite <- Hw in P4, P. specialize (P Hv Fatal m).
      apply String.eqb_neq in Hmode. rewrite Hmode in P.
      rewrite S1, P4, (proj2 P). reflexivity. }
  destruct (IsPrivate options && WssEnabled options).
  { split; [split; [auto|intros _; exists 1; reflexivity]|].
    intros status H. destruct (Hfatal _ status H) as (A1 & A2 & A3).
    split; [exact A1|]. split; [exact A2|]. eexists. split; [reflexivity|].
    exact A3. }
  destruct (template_Parse routerConfigEdgeTemplate) as [tmpl|perr].
  2:{ cbn. split; [split|].
      - intros (st & H). discriminate.
      - intros [H|((tm & H) & _)]; discriminate.
      - intros st H. discriminate. }
  destruct (template_Execute tmpl data) as [text err].
  destruct (String.eqb_spec (strings_ToLower (Output options)) "stdout")
    as [Hmode|Hmode]; cbn [negb].
  { split; [split|].
    - intros (st & H). destruct err; discriminate.
    - intros [H|(_ & H & _)]; [discriminate|contradiction].
    - intros st H. destruct err; discriminate. }
  destruct (os_IsNotExist _) eqn:Hdir.
  { split; [split; [eauto|intros _; exists 1; reflexivity]|].
    intros status H.
    destruct (Hfatal _ status H) as (A1 & A2 & A3).
    split; [exact A1|]. split; [exact A2|]. eexists. split; [reflexivity|].
    exact A3. }
  destruct (os_Create (Output options) w) as [cerr w1].
  split; [split|].
  - intros (st & H). destruct cerr, err; discriminate.
  - intros [H|(_ & _ & H)]; discriminate.
  - intros st H. destruct cerr, err; discriminate.
Qed.

(** X17.  A file that cannot be created.  When [os.Create] fails, the
    operation returns its error wrapped, with no file created or changed
    and nothing executed.  The debug record that announces the created
    file is issued all the same, since it is issued before the error is
    looked at: at the debug level it is emitted, and written to standard
    output when the logger writes there, as after [PreRun] with
    [--verbose]; at the info level nothing is logged and nothing
    written. *)
Theorem run_create_failure
        (options : CreateConfigRouterEdgeOptions)
        (data : ConfigTemplateValues) (w : world)
        (tmpl : Template) (e : error) :
  IsPrivate options && WssEnabled options = false ->
  template_Parse routerConfigEdgeTemplate = inl tmpl ->
  strings_ToLower (Output options) <> "stdout"%string ->
  os_IsNotExist
    (stat w (filepath_Dir (filepath_Dir (Output options) ++ "/")%string))
  = false ->
  create w (Output options) = Some e ->
  let result :=
    RouterEdge.run routerConfigEdgeTemplate template_Parse template_Execute
                   strings_ToLower filepath_Dir options data w in
  let created := ("Created output file: " ++ Output options)%string in
  fst result
  = Returns (Some (errors_Wrap e ("unable to create config file: "
                                    ++ Output options)%string))
  /\ files (snd result) = files w
  /\ logged (snd result) = logged w ++ log_entry Debug created w
  /\ stdout (snd result) = (stdout w ++ log_line Debug created w)%string
  /\ (IsLevelEnabled (logger w) Debug = false ->
      logged (snd result) = logged w /\ stdout (snd result) = stdout w)
  /\ (forall data0 w0,
        w = snd (PreRun set_EdgeRouterName set_WssEnabled set_IsPrivate
                        strings_ToLower options data0 w0) ->
        Verbose options = true ->
        logged (snd result) = logged w0 ++ [(Debug, created)]
        /\ stdout (snd result)
           = (stdout w0 ++ Formatter (logger w0) Debug created)%string).
Proof.
  intros Hflags Hparse Hmode Hdir Hcreate. cbn zeta.
  unfold RouterEdge.run. rewrite Hflags, Hparse.
  pose proof Hmode as Hmode'.
  apply String.eqb_neq in Hmode'. rewrite Hmode'. cbn [negb].
  rewrite Hdir. unfold os_Create. rewrite Hcreate.
  destruct (template_Execute tmpl data) as [text err]. cbn [fst snd].
  set (created := ("Created output file: " ++ Output options)%string).
  destruct (log_effect Debug created w) as (S1 & L1 & F1 & _).
  split; [reflexivity|]. split; [exact F1|]. split; [exact L1|].
  split; [exact S1|]. split.
  - intros Hoff. rewrite L1, S1. unfold log_entry, log_line.
    rewrite Hoff, app_nil_r, append_nil_r. auto.
  - intros data0 w0 Hw Hv.
    destruct (PreRun_logger options data0 w0)
      as ((_ & _ & _ & P4 & P5) & _ & P).
    cbn zeta in P4, P5, P. rewrite <- Hw in P4, P5, P.
    specialize (P Hv Debug created). rewrite Hmode' in P.
    rewrite L1, S1, P4, P5, (proj1 P), (proj2 P). auto.
Qed.

(** X18.  Standard output mode.  When the output is standard output
    and the flags do not conflict, the operation never ends the process
    and never looks at the file system: it returns, the files are as
    they were, and what it wrote to standard output is the text the
    template engine wrote, appended to what was there.  The one log
    record of this mode, the debug record of a successful execution,
    follows that text on standard output only if the logger has been
    set to the debug level and to standard output; [PreRun] with
    [--verbose] sets it to standard error in this mode. *)
Theorem run_stdout_mode
        (options : CreateConfigRouterEdgeOptions)
        (data : ConfigTemplateValues) (w : world) :
  IsPrivate options && WssEnabled options = false ->
  strings_ToLower (Output options) = "stdout"%string ->
  let result :=
    RouterEdge.run routerConfigEdgeTemplate template_Parse template_Execute
                   strings_ToLower filepath_Dir options data w in
  let success :=
    ("Edge Router configuration generated successfully and written to: "
       ++ Output options)%string in
  files (snd result) = files w
  /\ match template_Parse routerConfigEdgeTemplate with
     | inr perr => result = (Returns (Some perr), w)
     | inl tmpl =>
         fst result
         = Returns (option_map
                      (fun e => errors_Wrap e "unable to execute template")
                      (snd (template_Execute tmpl data)))
         /\ stdout (snd result)
            = (stdout w ++ fst (template_Execute tmpl data)
               ++ match snd (template_Execute tmpl data) with
                  | None => log_line Debug success w
                  | Some _ => EmptyString
                  end)%string
         /\ (log_line Debug success w = EmptyString ->
             stdout (snd result)
             = (stdout w ++ fst (template_Execute tmpl data))%string)
     end
  /\ (Out (logger w) <> os_Stdout -> log_line Debug success w = EmptyString)
  /\ (IsLevelEnabled (logger w) Debug = false ->
      log_line Debug success w = EmptyString)
  /\ (forall data0 w0,
        w = snd (PreRun set_EdgeRouterName set_WssEnabled set_IsPrivate
                        strings_ToLower options data0 w0) ->
        Verbose options = true ->
        log_line Debug success w = EmptyString)
  /\ (forall stat' create',
        fst (RouterEdge.run routerConfigEdgeTemplate template_Parse
               template_Execute strings_ToLower filepath_Dir options data
               (mkWorld stat' create' (files w) (stdout w) (logged w)
                        (stderr w) (logger w)))
        = fst result).
Proof.
  intros Hflags Hmode. cbn zeta. unfold RouterEdge.run.
  rewrite Hflags, Hmode. cbn [String.eqb Ascii.eqb Bool.eqb negb].
  split; [|split; [|split; [|split; [|split]]]].
  - destruct (template_Parse routerConfigEdgeTemplate) as [tmpl|perr];
      [|reflexivity].
    destruct (template_Execute tmpl data) as [text [e|]]; [reflexivity|].
    cbn [snd].
    exact (proj1 (proj2 (proj2 (log_effect Debug _
                                   (write_to ToStdout text w))))).
  - destruct (template_Parse routerConfigEdgeTemplate) as [tmpl|perr];
      [|reflexivity].
    destruct (template_Execute tmpl data) as [text [e|]]; cbn [fst snd].
    + rewrite append_nil_r. auto.
    + set (w1 := write_to ToStdout text w).
      destruct (log_effect Debug
                  ("Edge Router configuration generated successfully and written to: "
                     ++ Output options) w1) as (S1 & _).
      destruct (log_line_logger Debug
                  ("Edge Router configuration generated successfully and written to: "
                     ++ Output options) w w1 eq_refl) as (Hl & _).
      rewrite Hl in S1. cbn [w1 write_to stdout] in S1.
      rewrite append_assoc in S1.
      split; [reflexivity|]. split; [exact S1|].
      intros Hq. etransitivity; [exact S1|].
      rewrite Hq, append_nil_r. reflexivity.
  - intros Hout. unfold log_line.
    destruct (IsLevelEnabled (logger w) Debug); [|reflexivity].
    destruct (Out (logger w)); [contradiction|reflexivity|reflexivity].
  - intros Hoff. unfold log_line. rewrite Hoff. reflexivity.
  - intros data0 w0 Hw Hv.
    destruct (PreRun_logger options data0 w0) as (_ & _ & P).
    cbn zeta in P. rewrite <- Hw in P.
    rewrite (proj2 (P Hv Debug _)), Hmode. reflexivity.
  - intros stat' create'.
    destruct (template_Parse routerConfigEdgeTemplate) as [tmpl|perr];
      [|reflexivity].
    destruct (template_Execute tmpl data) as [text [e|]]; reflexivity.
Qed.

End RouterEdgeFiles.


(** The sample command asked to write into a directory that does not
    exist, after [PreRun] with [--verbose]: the fatal record is on
    standard output. *)
Lemma run_exit_conditions_witness :
  let options :=
    RouterEdge.mkOptions "router.yml" "my_router" true false false in
  let w0 :=
    RouterEdge.mkWorld
      (fun _ => Some RouterEdge.os_ErrNotExist) (fun _ => None)
      [("other.yml", "x")]%string EmptyString []
      EmptyString (RouterEdge.logrus_New sample_Formatter) in
  let w :=
    snd (RouterEdge.PreRun (fun _ d => d) (fun _ d => d) (fun _ d => d)
                           sample_ToLower options "my_router"%string w0) in
  let result :=
    RouterEdge.run "router: "%string sample_Parse sample_Execute
                   sample_ToLower sample_Dir options "my_router"%string w in
  fst result = RouterEdge.Exits 1
  /\ RouterEdge.files (snd result) = [("other.yml", "x")]%string
  /\ RouterEdge.stdout (snd result)
     = ("F Provided path: [./] does not exist"
          ++ RouterEdge.LF ++ RouterEdge.LF)%string.
Proof.
  intros options w0 w result.
  destruct (proj2 (run_exit_conditions string (fun _ d => d) (fun _ d => d)
                     (fun _ d => d) string "router: "%string
                     sample_Parse sample_Execute sample_ToLower sample_Dir
                     options "my_router"%string w) 1 eq_refl)
    as (_ & Hfiles & m & Hm & _ & _ & _ & _ & Hpre).
  split; [reflexivity|]. split; [exact Hfiles|].
  fold result in Hpre.
  rewrite (Hpre "my_router"%string w0 eq_refl eq_refl
                ltac:(cbn; discriminate)), Hm.
  reflexivity.
Defined.

(** The sample command where the file cannot be created, with the
    logger as [logrus.New] makes it: nothing is logged. *)
Lemma run_create_failure_witness :
  let options :=
    RouterEdge.mkOptions "router.yml" "my_router" false false false in
  let w :=
    RouterEdge.mkWorld
      (fun _ => None) (fun _ => Some (ErrForeign "permission denied"))
      [] EmptyString [] EmptyString
      (RouterEdge.logrus_New sample_Formatter) in
  let result :=
    RouterEdge.run "router: "%string sample_Parse sample_Execute
                   sample_ToLower sample_Dir options "my_router"%string w in
  RouterEdge.logged (snd result) = []
  /\ RouterEdge.stdout (snd result) = EmptyString.
Proof.
  intros options w result.
  exact (proj1 (proj2 (proj2 (proj2 (proj2
           (run_create_failure string (fun _ d => d) (fun _ d => d)
              (fun _ d => d) string "router: "%string
              sample_Parse sample_Execute sample_ToLower sample_Dir
              options "my_router"%string w "router: "%string
              (ErrForeign "permission denied")
              eq_refl eq_refl ltac:(cbn; discriminate) eq_refl eq_refl)))))
           eq_refl).
Defined.

(** The sample command writing to standard output. *)
Lemma run_stdout_mode_witness :
  RouterEdge.stdout (snd (sample_run false false))
  = "router: my_router"%string
  /\ RouterEdge.files (snd (sample_run false false)) = [].
Proof.
  destruct (run_stdout_mode string (fun _ d => d) (fun _ d => d)
              (fun _ d => d) string "router: "%string
              sample_Parse sample_Execute sample_ToLower sample_Dir
              (sample_options false false) "my_router"%string sample_world
              eq_refl eq_refl)
    as (Hfiles & (_ & _ & Hout) & _).
  split; [exact (Hout eq_refl)|exact Hfiles].
Defined.

(* ================================================================== *)
(** * What the codec does to the connection *)

Section Respects.

Variable R : protocol -> protocol -> Prop.
Hypothesis R_refl : forall p, R p p.
Hypothesis R_trans : forall p1 p2 p3, R p1 p2 -> R p2 p3 -> R p1 p3.
Hypothesis R_log : forall p l, R p (set_effects l p).

Lemma respects_ret {A} (a : A) : respects R (ret a).
Proof. intros p r p' H. injection H as _ <-. apply R_refl. Qed.

Lemma respects_fail {A} (e : error) : respects R (@fail A e).
Proof. intros p r p' H. injection H as _ <-. apply R_refl. Qed.

Lemma respects_throw {A} (v : panic) : respects R (@throw A v).
Proof. intros p r p' H. injection H as _ <-. apply R_refl. Qed.

Lemma respects_bind {A B} (c : M A) (k : A -> M B) :
  respects R c -> (forall a, respects R (k a)) -> respects R (bind c k).
Proof.
  intros Hc Hk p r p' H. unfold bind in H.
  destruct (c p) as [[a|e|v|] p1] eqn:E;
    try (injection H as _ <-; exact (Hc _ _ _ E)).
  eapply R_trans; [exact (Hc _ _ _ E)|exact (Hk _ _ _ _ H)].
Qed.

Lemma respects_defer_recover {A} (h : panic -> M A) (c : M A) :
  respects R c -> (forall v, respects R (h v)) ->
  respects R (defer_recover h c).
Proof.
  intros Hc Hh p r p' H. unfold defer_recover in H.
  destruct (c p) as [[a|e|v|] p1] eqn:E;
    try (injection H as _ <-; exact (Hc _ _ _ E)).
  eapply R_trans; [exact (Hc _ _ _ E)|exact (Hh _ _ _ _ H)].
Qed.

Lemma respects_emit (e : effect) : respects R (emit e).
Proof. intros p r p' H. injection H as _ <-. apply R_log. Qed.

Lemma respects_get_test : respects R get_test.
Proof.
  intros p r p' H. unfold get_test in H.
  destruct (test p); injection H as _ <-; apply R_refl.
Qed.

Lemma respects_make_bytes (n : Z) : respects R (make_bytes n).
Proof.
  unfold make_bytes. destruct (n <? 0);
    [apply respects_throw|apply respects_ret].
Qed.

End Respects.

Ltac respects_step Hrefl Htrans Hlog Hprim :=
  first [ apply (respects_ret _ Hrefl) | apply (respects_fail _ Hrefl)
        | apply (respects_throw _ Hrefl)
        | apply (respects_emit _ Hlog)
        | apply (respects_get_test _ Hrefl)
        | apply (respects_make_bytes _ Hrefl)
        | apply Hprim
        | apply (respects_defer_recover _ Htrans); [|intros ?]
        | apply (respects_bind _ Htrans); [|intros ?]
        | match goal with
          | |- respects _ (match ?x with _ => _ end) => destruct x
          | |- respects _ (if ?x then _ else _) => destruct x
          end ].

Lemma only_writes_refl p : only_writes p p.
Proof.
  unfold only_writes. repeat split. exists []. rewrite app_nil_r.
  reflexivity.
Qed.

Lemma only_writes_trans p1 p2 p3 :
  only_writes p1 p2 -> only_writes p2 p3 -> only_writes p1 p3.
Proof.
  intros (A1 & A2 & A3 & A4 & o1 & A5) (B1 & B2 & B3 & B4 & o2 & B5).
  unfold only_writes. rewrite B1, B2, B3, B4, B5, A5.
  repeat split; auto. exists (o1 ++ o2). rewrite app_assoc. reflexivity.
Qed.

Lemma only_writes_log p l : only_writes p (set_effects l p).
Proof. exact (only_writes_refl p). Qed.

Lemma only_writes_peer_Write (buf : list byte) :
  respects only_writes (peer_Write buf).
Proof.
  intros p r p' H. unfold peer_Write, stream_Write in H.
  destruct (tx_script (peer p)) as [|[n err] script];
    injection H as _ <-; unfold only_writes; cbn;
    repeat split; eauto.
Qed.

Lemma only_reads_refl p : only_reads p p.
Proof. unfold only_reads. repeat split. exists []. reflexivity. Qed.

Lemma only_reads_trans p1 p2 p3 :
  only_reads p1 p2 -> only_reads p2 p3 -> only_reads p1 p3.
Proof.
  intros (A1 & A2 & A3 & A4 & A5 & c1 & A6)
         (B1 & B2 & B3 & B4 & B5 & c2 & B6).
  unfold only_reads. rewrite B1, B2, B3, B4, B5, A6, B6.
  repeat split; auto. exists (c1 ++ c2). rewrite app_assoc. reflexivity.
Qed.

Lemma only_reads_log p l : only_reads p (set_effects l p).
Proof. exact (only_reads_refl p). Qed.

Lemma only_reads_io_ReadFull (buf : list byte) :
  respects only_reads (io_ReadFull buf).
Proof.
  intros p r p' H. unfold io_ReadFull, stream_ReadFull in H.
  destruct (List.length buf <=? List.length (rx_data (peer p)))%nat;
    injection H as _ <-; unfold only_reads; cbn; repeat split.
  - exists (firstn (List.length buf) (rx_data (peer p))).
    symmetry. apply firstn_skipn.
  - exists (rx_data (peer p)). rewrite app_nil_r. reflexivity.
Qed.

(** X19.  The frame writer only writes.  Whatever the message and the
    connection, and however it ends, [txPb] reads nothing from the
    connection and does not close it: what it leaves behind is the
    connection with some bytes appended to what had been sent.  It
    writes no log record and touches no other field of the protocol
    object. *)
Theorem txPb_only_writes
        (A : Type) (marshal : A -> list byte + error) (pb : A)
        (p : protocol) (r : result unit) (p' : protocol) :
  txPb marshal pb p = (r, p') ->
  only_writes p p' /\ same_but_io p p' /\ effects p' = effects p.
Proof.
  intros H. split; [|split].
  - revert p r p' H. change (respects only_writes (txPb marshal pb)).
    unfold txPb, txMagicHeader, txLength.
    repeat respects_step only_writes_refl only_writes_trans
           only_writes_log only_writes_peer_Write.
  - exact (io_only_txPb A marshal pb _ _ _ H).
  - exact (keeps_log_txPb A marshal pb _ _ _ H).
Qed.

(** X20.  The frame reader only reads.  Whatever the connection holds,
    and however it ends, [rxPb] writes nothing to the connection and
    does not close it: it consumes a prefix of what the connection
    delivers.  It touches no other field of the protocol object, and it
    writes a log record only on its way out of a panic. *)
Theorem rxPb_only_reads
        (A : Type) (unmarshal : list byte -> A + error)
        (p : protocol) (r : result A) (p' : protocol) :
  rxPb unmarshal p = (r, p') ->
  only_reads p p' /\ same_but_io p p'
  /\ (effects p' = effects p \/ exists v, r = Panicked v).
Proof.
  intros H. split; [|split].
  - revert p r p' H. change (respects only_reads (rxPb unmarshal)).
    unfold rxPb, rxMagicHeader, rxLength.
    repeat respects_step only_reads_refl only_reads_trans
           only_reads_log only_reads_io_ReadFull.
  - exact (io_only_rxPb A unmarshal _ _ _ H).
  - exact (rxPb_log A unmarshal _ _ _ H).
Qed.

(** A write on a connection that takes two bytes and then fails. *)
Lemma txPb_only_writes_witness :
  let conn := mkStream [x01; x02] io_EOF []
                       [(2, Some (ErrForeign "broken pipe"))] false None in
  let p' := snd (txPb raw_Marshal [x2a] (newProtocol conn)) in
  rx_data (peer p') = [x01; x02] /\ closed (peer p') = false.
Proof.
  intros conn p'.
  destruct (txPb_only_writes (list byte) raw_Marshal [x2a]
              (newProtocol conn) _ _ (surjective_pairing _))
    as ((K1 & _ & K3 & _) & _).
  split; [exact K1|exact K3].
Defined.

(** A read of a frame that is cut short. *)
Lemma rxPb_only_reads_witness :
  let conn := mkStream [xca; xfe; xf0] io_EOF [x07] [] false None in
  let p' := snd (rxPb raw_Unmarshal (newProtocol conn)) in
  tx_data (peer p') = [x07] /\ closed (peer p') = false.
Proof.
  intros conn p'.
  destruct (rxPb_only_reads (list byte) raw_Unmarshal
              (newProtocol conn) _ _ (surjective_pairing _))
    as ((K1 & _ & _ & K4 & _) & _).
  split; [exact K1|exact K4].
Defined.
